(** * user-sms: conversation state, message history and push tokens

    A shallow embedding of the chat service's request handlers
    ([controllers/chatController.js], in its two revisions) and of the push
    service ([services/pushNotificationService.js]) over an explicit store.

    Conventions.
    - A collection of the document store is a list of records in insertion
      order; [find] filters it, [findOne] takes the first match,
      [updateMany] maps over it, [deleteMany] filters it.
    - A handler runs in the monad [M]: it threads the store and may throw;
      what it wrote before a throw stays written, and the handler's
      [try { ... } catch] turns the throw into a 500 response.
    - [new Date()] and generated [_id]s are read from the environment
      [Env] of the request.
    - A text is kept as its UTF-8 bytes. A number that [parseInt] gives
      is a double whose value is an integer, or an infinity ([JsInt]);
      counters and times are integers. *)

From Stdlib Require Import ZArith Lia Ascii.
From stdpp Require Import gmap strings list sorting pretty.

Local Open Scope string_scope.
Local Open Scope Z_scope.

(** ** JavaScript values and builtins *)

(** A value of a parsed JSON body. [JObj] stands for an array or an
    object: the handlers only test such a value for truthiness and for its
    type, and a schema does not cast it to a text (the one object that it
    does cast, one with a text [_id], is left out).
    [JNum] carries an integer; a fractional number behaves like a non-zero
    one in every test below. *)
Inductive JsValue : Type :=
  | JUndefined
  | JNull
  | JBool (b : bool)
  | JNum (n : Z)
  | JStr (s : string)
  | JObj.

(** [!!v] *)
Definition truthy (v : JsValue) : bool :=
  match v with
  | JUndefined | JNull => false
  | JBool b => b
  | JNum n => negb (n =? 0)
  | JStr s => negb (String.eqb s "")
  | JObj => true
  end.

(** [typeof v === 'string'] *)
Definition is_string (v : JsValue) : bool :=
  match v with JStr _ => true | _ => false end.

Definition code (c : ascii) : nat := nat_of_ascii c.

(** The white space that [String.prototype.trim] and [parseInt] strip is
    the WhiteSpace and LineTerminator of ECMAScript. In UTF-8 such a
    character is one, two or three bytes.
    One byte: U+0009 to U+000D and U+0020. *)
Definition space1 (c : ascii) : bool :=
  let n := code c in
  ((9 <=? n) && (n <=? 13) || (n =? 32))%nat.

(** Two bytes: U+00A0, which is [C2 A0]. *)
Definition space2 (c d : ascii) : bool :=
  ((code c =? 194) && (code d =? 160))%nat.

(** Three bytes: U+1680 is [E1 9A 80]; U+2000 to U+200A, U+2028, U+2029
    and U+202F are [E2 80 80] to [E2 80 8A], [E2 80 A8], [E2 80 A9] and
    [E2 80 AF]; U+205F is [E2 81 9F]; U+3000 is [E3 80 80]; U+FEFF is
    [EF BB BF]. *)
Definition space3 (c d e : ascii) : bool :=
  let c := code c in
  let d := code d in
  let e := code e in
  ((c =? 225) && (d =? 154) && (e =? 128)
   || (c =? 226) && (d =? 128)
      && ((128 <=? e) && (e <=? 138) || (e =? 168) || (e =? 169) || (e =? 175))
   || (c =? 226) && (d =? 129) && (e =? 159)
   || (c =? 227) && (d =? 128) && (e =? 128)
   || (c =? 239) && (d =? 187) && (e =? 191))%nat.

(** What follows the first character of [s], when that character is
    white space. *)
Definition skip_space (s : string) : option string :=
  match s with
  | String c r =>
      if space1 c then Some r
      else
        match r with
        | String d r1 =>
            if space2 c d then Some r1
            else
              match r1 with
              | String e r2 => if space3 c d e then Some r2 else None
              | EmptyString => None
              end
        | EmptyString => None
        end
  | EmptyString => None
  end.

Fixpoint trim_start (s : string) : string :=
  match s with
  | String c r =>
      if space1 c then trim_start r
      else
        match r with
        | String d r1 =>
            if space2 c d then trim_start r1
            else
              match r1 with
              | String e r2 => if space3 c d e then trim_start r2 else s
              | EmptyString => s
              end
        | EmptyString => s
        end
  | EmptyString => EmptyString
  end.

(** [s] is white space only. *)
Definition blank (s : string) : bool :=
  match trim_start s with
  | EmptyString => true
  | String _ _ => false
  end.

(** Drops trailing white space: [s] is cut where what is left of it is
    white space only. *)
Fixpoint trim_end (s : string) : string :=
  match s with
  | EmptyString => EmptyString
  | String c s' => if blank s then EmptyString else String c (trim_end s')
  end.

(** [s.trim()] *)
Definition trim (s : string) : string := trim_end (trim_start s).

Definition digit_value (c : ascii) : option Z :=
  let n := code c in
  if ((48 <=? n) && (n <=? 57))%nat then Some (Z.of_nat n - 48)
  else if ((97 <=? n) && (n <=? 102))%nat then Some (Z.of_nat n - 87)
  else if ((65 <=? n) && (n <=? 70))%nat then Some (Z.of_nat n - 55)
  else None.

(** The digits of [s] in [radix], read from the left until the first
    character that is not one; [None] when there is no digit at all. *)
Fixpoint parse_digits (radix : Z) (acc : option Z) (s : string) : option Z :=
  match s with
  | EmptyString => acc
  | String c s' =>
      match digit_value c with
      | Some d =>
          if d <? radix
          then parse_digits radix (Some (default 0 acc * radix + d)) s'
          else acc
      | None => acc
      end
  end.

Definition strip_hex_prefix (s : string) : option string :=
  match s with
  | String "0" (String "x" r) | String "0" (String "X" r) => Some r
  | _ => None
  end.

Definition parse_unsigned (s : string) : option Z :=
  match strip_hex_prefix s with
  | Some r => parse_digits 16 None r
  | None => parse_digits 10 None s
  end.

(** A number whose value is an integer, or an infinity: what [parseInt]
    gives when it does not give [NaN]. *)
Inductive JsInt : Type :=
  | Fin (n : Z)
  | Inf (negative : bool).

Coercion Fin : Z >-> JsInt.

(** The double nearest to the integer [n], ties to the even significand:
    [n] itself up to 53 significant bits, and an infinity from [2^1024]
    on. *)
Definition to_double (n : Z) : JsInt :=
  let a := Z.abs n in
  let e := Z.log2 a - 52 in
  if e <=? 0 then Fin n
  else
    let q := Z.shiftr a e in
    let r := a - Z.shiftl q e in
    let half := Z.shiftl 1 (e - 1) in
    let q' := if (half <? r) || (r =? half) && Z.odd q then q + 1 else q in
    let m := Z.shiftl q' e in
    if Z.shiftl 1 1024 <=? m then Inf (n <? 0) else Fin (Z.sgn n * m).

(** [parseInt(q)] for a query-string parameter [q]; [None] is [NaN], which
    is what an absent parameter and a text without leading digits give.
    White space is skipped, a sign is read, a [0x] prefix selects base 16,
    and the digits up to the first other character are the number, which
    is rounded to a double. *)
Definition parseInt (q : option string) : option JsInt :=
  match q with
  | None => None
  | Some s =>
      to_double <$>
        match trim_start s with
        | String "-" r => Z.opp <$> parse_unsigned r
        | String "+" r => parse_unsigned r
        | r => parse_unsigned r
        end
  end.

(** [x || d] for a number [x]: [NaN] and [0] are falsy. *)
Definition num_or (x : option Z) (d : Z) : Z :=
  match x with
  | Some n => if n =? 0 then d else n
  | None => d
  end.

(** [x || d] for what [parseInt] gives *)
Definition int_or (x : option JsInt) (d : JsInt) : JsInt :=
  match x with
  | Some (Fin n) => if n =? 0 then d else Fin n
  | Some (Inf negative) => Inf negative
  | None => d
  end.

(** [Math.max(a, b)] and [Math.min(a, b)] *)
Definition js_max (a b : JsInt) : JsInt :=
  match a, b with
  | Inf false, _ | _, Inf false => Inf false
  | Inf true, x | x, Inf true => x
  | Fin m, Fin n => Fin (Z.max m n)
  end.

Definition js_min (a b : JsInt) : JsInt :=
  match a, b with
  | Inf true, _ | _, Inf true => Inf true
  | Inf false, x | x, Inf false => x
  | Fin m, Fin n => Fin (Z.min m n)
  end.

(** The schema's cast of a value to a [String] path: [null] stays, a
    number or a boolean becomes its text, an object does not cast. *)
Definition cast_String (v : JsValue) : option (option string) :=
  match v with
  | JUndefined | JNull => Some None
  | JStr s => Some (Some s)
  | JNum n => Some (Some (pretty n))
  | JBool b => Some (Some (if b then "true" else "false"))
  | JObj => None
  end.

(** ** Object ids *)

(** An [ObjectId] is kept as its canonical text: 24 lower-case hexadecimal
    digits. *)
Definition ObjectId : Type := string.

Definition is_hex_digit (c : ascii) : bool :=
  match digit_value c with Some _ => true | None => false end.

Definition to_lower (c : ascii) : ascii :=
  let n := code c in
  if ((65 <=? n) && (n <=? 90))%nat then ascii_of_nat (n + 32) else c.

Fixpoint string_forall (p : ascii -> bool) (s : string) : bool :=
  match s with
  | EmptyString => true
  | String c s' => p c && string_forall p s'
  end.

Fixpoint string_map (f : ascii -> ascii) (s : string) : string :=
  match s with
  | EmptyString => EmptyString
  | String c s' => String (f c) (string_map f s')
  end.

(** [mongoose.Types.ObjectId.isValid(String(id))] on a text: the 24-digit
    hexadecimal form. *)
Definition isValid (id : string) : bool :=
  (String.length id =? 24)%nat && string_forall is_hex_digit id.

(** [new mongoose.Types.ObjectId(id)] for a valid [id]; its text is in
    lower case whatever the case of [id]. *)
Definition mkObjectId (id : string) : ObjectId := string_map to_lower id.

(** ** Documents *)

Definition Time : Type := Z.

Record LastMessage : Type := mkLastMessage {
  lm_text : string;
  lm_senderId : option ObjectId;
  lm_createdAt : Time;
}.

(** [conversationSchema]. [unreadCount] is the [Map] of [Number] keyed by
    the text of a user id. *)
Record Conversation : Type := mkConversation {
  conv_id : ObjectId;
  participants : list ObjectId;
  lastMessage : LastMessage;
  unreadCount : gmap string Z;
  conv_createdAt : Time;
  updatedAt : Time;
}.

Record ReplyTo : Type := mkReplyTo {
  rt_id : ObjectId;
  rt_text : option string;
  rt_senderId : option ObjectId;
}.

(** [messageSchema]. [messageType] is [None] when [null] is stored. *)
Record Message : Type := mkMessage {
  msg_id : ObjectId;
  conversationId : ObjectId;
  senderId : ObjectId;
  receiverId : ObjectId;
  messageType : option string;
  text : string;
  voiceUrl : option string;
  voiceDuration : option Z;
  replyTo : option ReplyTo;
  isRead : bool;
  readAt : option Time;
  createdAt : Time;
}.

(** An entry of [userPhoto]: an object with a [key], or the key itself. *)
Inductive Photo : Type :=
  | PhotoObj (key : option string)
  | PhotoKey (key : string).

(** A stored user as [lean()] returns it, with the selected fields. *)
Record User : Type := mkUser {
  user_id : ObjectId;
  name : option string;
  age : option Z;
  userPhoto : list Photo;
  isOnline : option bool;
  lastSeen : option Time;
  city : option string;
  userLocation : option string;
}.

(** [deviceTokenSchema]. [platform] is [None] when [null] is stored. *)
Record DeviceToken : Type := mkDeviceToken {
  dt_userId : ObjectId;
  fcmToken : string;
  platform : option string;
  deviceId : option string;
  isActive : bool;
  dt_createdAt : Time;
  dt_updatedAt : Time;
}.

(** ** The store and the request environment *)

(** The message as [sendMessage] answers and emits it. *)
Record MessagePayload : Type := mkMessagePayload {
  p_id : ObjectId;
  p_conversationId : ObjectId;
  p_senderId : ObjectId;
  p_receiverId : ObjectId;
  p_messageType : option string;
  p_text : string;
  p_voiceUrl : option string;
  p_voiceDuration : option Z;
  p_replyTo : option ReplyTo;
  p_isRead : bool;
  p_createdAt : Time;
}.

(** What [emitToUser] hands to the realtime hub: room, event, data. *)
Record Emit : Type := mkEmit {
  em_room : string;
  em_event : string;
  em_message : MessagePayload;
  em_senderId : string;
}.

Record Store : Type := mkStore {
  conversations : list Conversation;
  messages : list Message;
  users : list User;
  deviceTokens : list DeviceToken;
  (** [firebaseInitialized] of the push service *)
  firebaseInitialized : bool;
  (** whether [io] of the socket manager is set *)
  io : bool;
  emitted : list Emit;
}.

Definition set_conversations (f : list Conversation -> list Conversation) (st : Store) : Store :=
  mkStore (f (conversations st)) (messages st) (users st) (deviceTokens st)
          (firebaseInitialized st) (io st) (emitted st).

Definition set_messages (f : list Message -> list Message) (st : Store) : Store :=
  mkStore (conversations st) (f (messages st)) (users st) (deviceTokens st)
          (firebaseInitialized st) (io st) (emitted st).

Definition set_deviceTokens (f : list DeviceToken -> list DeviceToken) (st : Store) : Store :=
  mkStore (conversations st) (messages st) (users st) (f (deviceTokens st))
          (firebaseInitialized st) (io st) (emitted st).

Definition set_emitted (f : list Emit -> list Emit) (st : Store) : Store :=
  mkStore (conversations st) (messages st) (users st) (deviceTokens st)
          (firebaseInitialized st) (io st) (f (emitted st)).

(** One entry of [response.responses] of a multicast send. *)
Record SendResponse : Type := mkSendResponse {
  success : bool;
  error_code : option string;
}.

Record BatchResponse : Type := mkBatchResponse {
  successCount : Z;
  failureCount : Z;
  responses : list SendResponse;
}.

(** What [sendEachForMulticast] does with a list of tokens: it answers, or
    the whole request fails and the call throws. *)
Inductive ProviderOutcome : Type :=
  | Answered (r : BatchResponse)
  | Failed (message : string).

Record Env : Type := mkEnv {
  (** [new Date()] *)
  now : Time;
  (** the [_id] the store gives to a created conversation, message *)
  newConversationId : ObjectId;
  newMessageId : ObjectId;
  (** the push provider *)
  sendEachForMulticast : list string -> ProviderOutcome;
  (** the object store's signer; [None] when it throws *)
  getSignedUrl : string -> option string;
}.

(** ** Handlers as store transformers that may throw *)

Inductive Outcome (A : Type) : Type :=
  | Returned (a : A)
  | Thrown (e : string).
Arguments Returned {A} a.
Arguments Thrown {A} e.

Definition M (A : Type) : Type := Store -> Outcome A * Store.

Definition ret {A} (a : A) : M A := fun st => (Returned a, st).

Definition bind {A B} (m : M A) (k : A -> M B) : M B :=
  fun st =>
    match m st with
    | (Returned a, st') => k a st'
    | (Thrown e, st') => (Thrown e, st')
    end.

Definition throw {A} (e : string) : M A := fun st => (Thrown e, st).

(** [try { m } catch (e) { h e }] *)
Definition try_catch {A} (m : M A) (h : string -> M A) : M A :=
  fun st =>
    match m st with
    | (Returned a, st') => (Returned a, st')
    | (Thrown e, st') => h e st'
    end.

Definition get_store : M Store := fun st => (Returned st, st).
Definition modify (f : Store -> Store) : M unit := fun st => (Returned tt, f st).

Declare Scope m_scope.
Delimit Scope m_scope with M.
Notation "x <- m ;; k" := (bind m (fun x => k))
  (at level 100, m at next level, right associativity) : m_scope.
Notation "m ;;; k" := (bind m (fun _ => k))
  (at level 100, right associativity) : m_scope.
Bind Scope m_scope with M.

(** An HTTP response: [res.status(s).json(payload)], or
    [res.status(s).json({ message })]. *)
Inductive Response (A : Type) : Type :=
  | Json (status : Z) (payload : A)
  | Fail (status : Z) (message : string).
Arguments Json {A} status payload.
Arguments Fail {A} status message.

Definition status_of {A} (r : Response A) : Z :=
  match r with Json s _ | Fail s _ => s end.

(** The body of every handler: [try { ... } catch (e) { 500 }]. A handler
    always answers. *)
Definition handler {A} (m : M (Response A)) (st : Store) : Response A * Store :=
  match m st with
  | (Returned r, st') => (r, st')
  | (Thrown _, st') => (Fail 500 "Server error", st')
  end.

(** ** Store primitives *)

Definition oid_eqb (a b : ObjectId) : bool := String.eqb a b.

(** First element satisfying [p] is replaced by its image. *)
Fixpoint update_first {A} (p : A -> bool) (f : A -> A) (l : list A) : list A :=
  match l with
  | [] => []
  | x :: l' => if p x then f x :: l' else x :: update_first p f l'
  end.

Definition update_many {A} (p : A -> bool) (f : A -> A) (l : list A) : list A :=
  map (fun x => if p x then f x else x) l.

Definition delete_many {A} (p : A -> bool) (l : list A) : list A :=
  List.filter (fun x => negb (p x)) l.

(** [{ participants: id }]: the array holds [id]. *)
Definition has_participant (id : ObjectId) (c : Conversation) : bool :=
  existsb (oid_eqb id) (participants c).

(** [{ participants: { $all: ids } }] *)
Definition has_all_participants (ids : list ObjectId) (c : Conversation) : bool :=
  forallb (fun id => has_participant id c) ids.

Definition Conversation_findOne (p : Conversation -> bool) : M (option Conversation) :=
  fun st => (Returned (List.find p (conversations st)), st).

Definition Conversation_findByIdAndUpdate (id : ObjectId)
    (f : Conversation -> Conversation) : M unit :=
  modify (set_conversations (update_first (fun c => oid_eqb (conv_id c) id) f)).

Definition set_unread (key : string) (n : Z) (c : Conversation) : Conversation :=
  mkConversation (conv_id c) (participants c) (lastMessage c)
                 (<[key := n]> (unreadCount c)) (conv_createdAt c) (updatedAt c).

Definition mark_read (t : Time) (m : Message) : Message :=
  mkMessage (msg_id m) (conversationId m) (senderId m) (receiverId m)
            (messageType m) (text m) (voiceUrl m) (voiceDuration m) (replyTo m)
            true (Some t) (createdAt m).

(** ** Requests *)

Record ReplyToInput : Type := mkReplyToInput {
  rti_id : option string;
  rti_text : JsValue;
  rti_senderId : option string;
}.

(** An authenticated request as a handler sees it. The identity fields are
    the five places [getReqUserId] looks at; [authRequired] fills the
    first two. [body_replyTo] is [None] for an absent or [null] [replyTo];
    its ids are texts or absent and its text is any value;
    [body_conversationIds] is [None]
    when the field is absent or not an array, and its elements are texts. *)
Record Request : Type := mkRequest {
  req_user__id : option string;
  req_user_id : option string;
  req_auth_userId : option string;
  req_regUserId : option string;
  req_userId : option string;
  param_recipientId : option string;
  param_conversationId : option string;
  query_page : option string;
  query_limit : option string;
  body_text : JsValue;
  body_replyTo : option ReplyToInput;
  body_messageType : JsValue;
  body_voiceUrl : JsValue;
  body_voiceDuration : option Z;
  body_conversationIds : option (list string);
}.

(** [a || b] on values that are a text or [undefined]. *)
Definition or_else (a b : option string) : option string :=
  match a with
  | Some s => if String.eqb s "" then b else a
  | None => b
  end.

Definition getReqUserId (req : Request) : option string :=
  or_else (req_user__id req)
    (or_else (req_user_id req)
      (or_else (req_auth_userId req)
        (or_else (req_regUserId req) (req_userId req)))).

(** [String(x)] *)
Definition js_String (x : option string) : string := default "undefined" x.

(** [!x || !mongoose.Types.ObjectId.isValid(String(x))] *)
Definition bad_id (x : option string) : bool :=
  match x with
  | Some s => String.eqb s "" || negb (isValid (js_String x))
  | None => true
  end.

(** ** [getMessages] *)

Record MessagesPage : Type := mkMessagesPage {
  mp_messages : list Message;
  mp_conversationId : option ObjectId;
  mp_page : JsInt;
  mp_hasMore : bool;
}.

(** [.sort({ createdAt: -1 })]: the later message comes first. *)
Definition newest_first (a b : Message) : Prop := createdAt b <= createdAt a.

#[global] Instance newest_first_dec a b : Decision (newest_first a b).
Proof. unfold newest_first. apply _. Defined.

(** [Math.max(1, parseInt(req.query.page) || 1)] *)
Definition page_of (req : Request) : JsInt :=
  js_max 1 (int_or (parseInt (query_page req)) 1).

(** The value of a number that is finite *)
Definition finite (x : JsInt) : Z :=
  match x with
  | Fin n => n
  | Inf _ => 0
  end.

(** [Math.min(50, Math.max(1, parseInt(req.query.limit) || 30))], which
    is finite. *)
Definition limit_of (req : Request) : Z :=
  finite (js_min 50 (js_max 1 (int_or (parseInt (query_limit req)) 30))).

(** [(page - 1) * limit] for a page of at least 1 and a limit within
    [1, 50]. The product of a finite page is taken exactly: the double
    that the code computes differs from it only beyond [2^53], and then
    both are past the end of what a collection holds. *)
Definition skip_of (page : JsInt) (limit : Z) : JsInt :=
  match page with
  | Fin p => Fin ((p - 1) * limit)
  | Inf negative => Inf negative
  end.

(** [.skip(skip)] on a list: a skip past the end, and so an infinite one,
    leaves nothing. *)
Definition skipped {A} (skip : JsInt) (l : list A) : list A :=
  match skip with
  | Fin k => drop (Z.to_nat k) l
  | Inf _ => []
  end.

(** [Message.find({ conversationId }).sort(..).skip(skip).limit(n).lean()] *)
Definition Message_find_page (cid : ObjectId) (skip : JsInt) (n : Z) : M (list Message) :=
  fun st =>
    (Returned
       (take (Z.to_nat n)
          (skipped skip
             (merge_sort newest_first
                (List.filter (fun m => oid_eqb (conversationId m) cid) (messages st))))),
     st).

Definition getMessages (req : Request) : Store -> Response MessagesPage * Store :=
  handler (
    let userId := getReqUserId req in
    let recipientId := param_recipientId req in
    let page := page_of req in
    let limit := limit_of req in
    let skip := skip_of page limit in
    if bad_id userId then ret (Fail 401 "Unauthorized") else
    if bad_id recipientId then ret (Fail 400 "Invalid recipient id") else
    let userObjectId := mkObjectId (js_String userId) in
    let recipientObjectId := mkObjectId (js_String recipientId) in
    conversation <- Conversation_findOne
                      (has_all_participants [userObjectId; recipientObjectId]) ;;
    match conversation with
    | None => ret (Json 200 (mkMessagesPage [] None page false))
    | Some conversation =>
        messages <- Message_find_page (conv_id conversation) skip (limit + 1) ;;
        let hasMore := Z.of_nat (length messages) >? limit in
        let messagesToReturn :=
          if hasMore then take (Z.to_nat limit) messages else messages in
        ret (Json 200 (mkMessagesPage (reverse messagesToReturn)
                                      (Some (conv_id conversation)) page hasMore))
    end)%M.

(** ** [markAsRead] *)

Definition Message_updateMany (p : Message -> bool) (f : Message -> Message) : M unit :=
  modify (set_messages (update_many p f)).

Definition markAsRead (env : Env) (req : Request) : Store -> Response bool * Store :=
  handler (
    let userId := getReqUserId req in
    let conversationId_ := param_conversationId req in
    if bad_id userId then ret (Fail 401 "Unauthorized") else
    if bad_id conversationId_ then ret (Fail 400 "Invalid conversation id") else
    let userObjectId := mkObjectId (js_String userId) in
    let convObjectId := mkObjectId (js_String conversationId_) in
    Message_updateMany
      (fun m => oid_eqb (conversationId m) convObjectId
                && oid_eqb (receiverId m) userObjectId
                && negb (isRead m))
      (mark_read (now env)) ;;;
    Conversation_findByIdAndUpdate convObjectId (set_unread (js_String userId) 0) ;;;
    ret (Json 200 true))%M.

(** ** [deleteConversations] *)

Record Deleted : Type := mkDeleted {
  del_success : bool;
  deletedCount : Z;
}.

(** The [for (const convId of conversationIds)] loop, which collects
    [validConversationIds]. *)
Fixpoint collect_valid (userObjectId : ObjectId) (conversationIds : list string)
    (validConversationIds : list ObjectId) : M (list ObjectId) :=
  match conversationIds with
  | [] => ret validConversationIds
  | convId :: rest =>
      if negb (isValid convId) then
        collect_valid userObjectId rest validConversationIds
      else
        (conversation <- Conversation_findOne
                           (fun c => oid_eqb (conv_id c) (mkObjectId convId)
                                     && has_participant userObjectId c) ;;
         match conversation with
         | Some conversation =>
             collect_valid userObjectId rest
               (validConversationIds ++ [conv_id conversation])%list
         | None => collect_valid userObjectId rest validConversationIds
         end)%M
  end.

(** [{ $in: ids }] *)
Definition oid_in (ids : list ObjectId) (id : ObjectId) : bool :=
  existsb (oid_eqb id) ids.

Definition Message_deleteMany (p : Message -> bool) : M unit :=
  modify (set_messages (delete_many p)).

Definition Conversation_deleteMany (p : Conversation -> bool) : M unit :=
  modify (set_conversations (delete_many p)).

Definition deleteConversations (req : Request) : Store -> Response Deleted * Store :=
  handler (
    let userId := getReqUserId req in
    if bad_id userId then ret (Fail 401 "Unauthorized") else
    match body_conversationIds req with
    | None | Some [] => ret (Fail 400 "No conversation IDs provided")
    | Some conversationIds =>
        let userObjectId := mkObjectId (js_String userId) in
        validConversationIds <- collect_valid userObjectId conversationIds [] ;;
        if (length validConversationIds =? 0)%nat then
          ret (Fail 404 "No valid conversations found")
        else
          (Message_deleteMany (fun m => oid_in validConversationIds (conversationId m)) ;;;
           Conversation_deleteMany (fun c => oid_in validConversationIds (conv_id c)) ;;;
           ret (Json 200 (mkDeleted true (Z.of_nat (length validConversationIds)))))
    end)%M.

(** ** The push service ([services/pushNotificationService.js]) *)

Module PushService.

Record Notification : Type := mkNotification {
  title : string;
  body : string;
  data : list (string * string);
}.

(** What [sendPushToUser] resolves to. *)
Record PushResult : Type := mkPushResult {
  pr_success : bool;
  pr_reason : option string;
  pr_successCount : option Z;
  pr_error : option string;
}.

(** [DeviceToken.find({ userId, isActive: true }).lean()]. The query
    casts [userId] to an id and throws when it cannot. *)
Definition DeviceToken_find_active (userId : string) : M (list DeviceToken) :=
  if isValid userId then
    fun st =>
      (Returned
         (List.filter (fun t => oid_eqb (dt_userId t) (mkObjectId userId) && isActive t)
                      (deviceTokens st)),
       st)
  else throw "CastError".

Definition DeviceToken_updateMany (p : DeviceToken -> bool)
    (f : DeviceToken -> DeviceToken) : M unit :=
  modify (set_deviceTokens (update_many p f)).

Definition deactivate (t : Time) (d : DeviceToken) : DeviceToken :=
  mkDeviceToken (dt_userId d) (fcmToken d) (platform d) (deviceId d)
                false (dt_createdAt d) t.

Definition invalid_token_code (errorCode : option string) : bool :=
  match errorCode with
  | Some c =>
      String.eqb c "messaging/invalid-registration-token"
      || String.eqb c "messaging/registration-token-not-registered"
  | None => false
  end.

(** The [forEach] over [response.responses]: [failedTokens] gets
    [fcmTokens[idx]] for every failed entry with one of the two codes.
    An index past the end of [fcmTokens] gives [undefined], which no
    stored token equals, and is left out. *)
Fixpoint collect_failed (fcmTokens : list string) (idx : nat)
    (resps : list SendResponse) : list string :=
  match resps with
  | [] => []
  | resp :: rest =>
      let tail := collect_failed fcmTokens (S idx) rest in
      if negb (success resp) && invalid_token_code (error_code resp) then
        match fcmTokens !! idx with
        | Some t => t :: tail
        | None => tail
        end
      else tail
  end.

Definition string_in (l : list string) (s : string) : bool :=
  existsb (String.eqb s) l.

Definition call_provider (env : Env) (fcmTokens : list string) : M BatchResponse :=
  match sendEachForMulticast env fcmTokens with
  | Answered r => ret r
  | Failed e => throw e
  end.

(** The part of [sendPushToUser] inside [try]. *)
Definition sendPushToUser_try (env : Env) (userId : string)
    (notification : Notification) : M PushResult :=
  (tokens <- DeviceToken_find_active userId ;;
   if (length tokens =? 0)%nat then
     ret (mkPushResult false (Some "no_tokens") None None)
   else
     let fcmTokens := map fcmToken tokens in
     response <- call_provider env fcmTokens ;;
     (if failureCount response >? 0 then
        let failedTokens := collect_failed fcmTokens 0 (responses response) in
        if (0 <? length failedTokens)%nat then
          DeviceToken_updateMany (fun d => string_in failedTokens (fcmToken d))
                                 (deactivate (now env))
        else ret tt
      else ret tt) ;;;
     ret (mkPushResult true None (Some (successCount response)) None))%M.

Definition sendPushToUser (env : Env) (userId : string)
    (notification : Notification) : M PushResult :=
  fun st =>
    if negb (firebaseInitialized st) then
      (Returned (mkPushResult false (Some "firebase_not_initialized") None None), st)
    else
      try_catch (sendPushToUser_try env userId notification)
        (fun e => ret (mkPushResult false (Some "error") None (Some e))) st.

(** [a || b] for a text [a] that may be absent. *)
Definition text_or (a : option string) (b : string) : string :=
  match a with
  | Some s => if String.eqb s "" then b else s
  | None => b
  end.

Definition sendNewMessageNotification (env : Env) (recipientId : string)
    (sender_id : ObjectId) (sender_name : option string)
    (messageText : string) (conversationId : ObjectId) : M PushResult :=
  let notification :=
    mkNotification
      "Новое сообщение"
      (text_or sender_name "Пользователь" ++ ": "
         ++ text_or (Some messageText) "Голосовое сообщение")
      [("type", "new_message");
       ("conversationId", conversationId);
       ("senderId", sender_id);
       ("senderName", text_or sender_name "")] in
  sendPushToUser env recipientId notification.

Definition platform_ok (p : string) : bool :=
  String.eqb p "android" || String.eqb p "ios".

(** What the schema makes of [platform]: the default for [undefined],
    [null] as it is (the [enum] is not checked on it), and a text of the
    [enum]; a number or a boolean is cast to its text, which the [enum]
    has not, and an object does not cast. [None] when the validation
    fails. *)
Definition cast_platform (v : JsValue) : option (option string) :=
  match v with
  | JUndefined => Some (Some "android")
  | JNull => Some None
  | v =>
      match cast_String v with
      | Some (Some p) => if platform_ok p then Some (Some p) else None
      | _ => None
      end
  end.

(** [DeviceToken.create]: schema validation, then the unique index on
    [fcmToken], then the insert. *)
Definition DeviceToken_create (env : Env) (userId fcmToken_ : string)
    (platform_ : JsValue) (deviceId_ : option string) : M unit :=
  match cast_platform platform_ with
  | Some platform_ =>
      if negb (isValid userId && negb (String.eqb fcmToken_ "")) then
        throw "ValidationError"
      else
        fun st =>
          if existsb (fun d => String.eqb (fcmToken d) fcmToken_) (deviceTokens st) then
            (Thrown "E11000 duplicate key", st)
          else
            (Returned tt,
             set_deviceTokens
               (fun l => (l ++ [mkDeviceToken (mkObjectId userId) fcmToken_ platform_
                                              deviceId_ true (now env) (now env)])%list)
               st)
  | None => throw "ValidationError"
  end.

(** [existingToken.save()] after the five assignments: the changed
    paths are validated, then the record is written over the stored one
    (the first with that token). *)
Definition DeviceToken_save (env : Env) (existingToken : DeviceToken)
    (userId : string) (platform_ : JsValue) (deviceId_ : option string) : M unit :=
  match cast_platform platform_ with
  | Some platform_ =>
      if negb (isValid userId) then throw "ValidationError"
      else
        modify (set_deviceTokens
          (update_first
             (fun d => String.eqb (fcmToken d) (fcmToken existingToken))
             (fun d => mkDeviceToken (mkObjectId userId) (fcmToken d) platform_ deviceId_
                                     true (dt_createdAt d) (now env))))
  | None => throw "ValidationError"
  end.

Definition DeviceToken_findOne (fcmToken_ : string) : M (option DeviceToken) :=
  fun st =>
    (Returned (List.find (fun d => String.eqb (fcmToken d) fcmToken_) (deviceTokens st)), st).

(** [registerDeviceToken(userId, fcmToken, platform = 'android',
    deviceId = null)]; the result is the [success] flag. The default of
    [platform] is taken for [undefined] only: [null] is passed on. *)
Definition registerDeviceToken (env : Env) (userId fcmToken_ : string)
    (platform_ : JsValue) (deviceId_ : option string) : M bool :=
  let platform_ := match platform_ with JUndefined => JStr "android" | v => v end in
  try_catch
    (existingToken <- DeviceToken_findOne fcmToken_ ;;
     match existingToken with
     | Some existingToken =>
         DeviceToken_save env existingToken userId platform_ deviceId_
     | None =>
         DeviceToken_create env userId fcmToken_ platform_ deviceId_
     end ;;;
     ret true)%M
    (fun _ => ret false).

(** [unregisterDeviceToken]: [deleteOne] removes the first match. *)
Fixpoint delete_first {A} (p : A -> bool) (l : list A) : list A :=
  match l with
  | [] => []
  | x :: l' => if p x then l' else x :: delete_first p l'
  end.

Definition unregisterDeviceToken (fcmToken_ : string) : M bool :=
  try_catch
    (modify (set_deviceTokens
               (delete_first (fun d => String.eqb (fcmToken d) fcmToken_))) ;;;
     ret true)%M
    (fun _ => ret false).

End PushService.

(** ** [sendMessage]: what both revisions of the controller share *)

(** [v === s] for a text [s] *)
Definition js_is (v : JsValue) (s : string) : bool :=
  match v with JStr t => String.eqb t s | _ => false end.

(** [const { messageType = 'text' } = req.body]: the default is taken for
    [undefined] only. *)
Definition messageType_of (req : Request) : JsValue :=
  match body_messageType req with
  | JUndefined => JStr "text"
  | v => v
  end.

(** [!text || typeof text !== 'string' || text.trim().length === 0] *)
Definition text_missing (text : JsValue) : bool :=
  negb (truthy text) || negb (is_string text)
  || match text with
     | JStr s => (String.length (trim s) =? 0)%nat
     | _ => false
     end.

(** The content check; [Some message] is the 400 answer. *)
Definition check_content (req : Request) : option string :=
  let messageType := messageType_of req in
  if js_is messageType "text" then
    if text_missing (body_text req) then Some "Message text is required" else None
  else if js_is messageType "voice" then
    if negb (truthy (body_voiceUrl req)) then Some "Voice URL is required" else None
  else None.

(** [text ? text.trim() : ''] *)
Definition messageText_of (text : JsValue) : M string :=
  if truthy text then
    match text with
    | JStr s => ret (trim s)
    | _ => throw "TypeError: text.trim is not a function"
    end
  else ret "".

(** [new mongoose.Types.ObjectId(id)] on a text of the request *)
Definition new_ObjectId (id : string) : M ObjectId :=
  if isValid id then ret (mkObjectId id) else throw "BSONError".

Definition present (x : option string) : bool :=
  match x with Some s => negb (String.eqb s "") | None => false end.

(** [replyToData]: the ids are made, the text is passed on as it came. *)
Record ReplyToData : Type := mkReplyToData {
  rtd_id : ObjectId;
  rtd_text : JsValue;
  rtd_senderId : option ObjectId;
}.

Definition replyToData_of (replyTo : option ReplyToInput) : M (option ReplyToData) :=
  match replyTo with
  | Some r =>
      if present (rti_id r) && truthy (rti_text r) then
        (_id <- new_ObjectId (js_String (rti_id r)) ;;
         senderId <- (if present (rti_senderId r)
                      then (i <- new_ObjectId (js_String (rti_senderId r)) ;; ret (Some i))
                      else ret None) ;;
         ret (Some (mkReplyToData _id (rti_text r) senderId)))%M
      else ret None
  | None => ret None
  end.

Definition voice_preview : string := "🎤 Голосовое сообщение".

Definition previewText_of (messageType : JsValue) (messageText : string) : string :=
  if js_is messageType "voice" then voice_preview else messageText.

(** [Conversation.create]: the store adds [_id] and the schema's
    [createdAt] and [updatedAt]. *)
Definition Conversation_create (env : Env) (participants_ : list ObjectId)
    (lastMessage_ : LastMessage) (unreadCount_ : gmap string Z) : M Conversation :=
  let c := mkConversation (newConversationId env) participants_ lastMessage_
                          unreadCount_ (now env) (now env) in
  (modify (set_conversations (fun l => (l ++ [c])%list)) ;;; ret c)%M.

Record MessageData : Type := mkMessageData {
  md_conversationId : ObjectId;
  md_senderId : ObjectId;
  md_receiverId : ObjectId;
  md_messageType : JsValue;
  md_text : string;
  md_replyTo : option ReplyToData;
  md_voiceUrl : JsValue;
  md_voiceDuration : option Z;
}.

Definition messageType_enum (t : string) : bool :=
  String.eqb t "text" || String.eqb t "voice" || String.eqb t "image".

(** What the schema makes of [messageType]: the default for [undefined],
    [null] as it is (the [enum] is not checked on it), and a text of the
    [enum]; a number or a boolean is cast to its text, which the [enum]
    has not, and an object does not cast. [None] when the validation
    fails. *)
Definition cast_messageType (v : JsValue) : option (option string) :=
  match v with
  | JUndefined => Some (Some "text")
  | JNull => Some None
  | v =>
      match cast_String v with
      | Some (Some t) => if messageType_enum t then Some (Some t) else None
      | _ => None
      end
  end.

(** The schema's cast of [replyTo]: its [text] is a [String] path. *)
Definition cast_replyTo (r : option ReplyToData) : option (option ReplyTo) :=
  match r with
  | Some r =>
      match cast_String (rtd_text r) with
      | Some text => Some (Some (mkReplyTo (rtd_id r) text (rtd_senderId r)))
      | None => None
      end
  | None => Some None
  end.

(** [Message.create]: [messageType] has to pass the schema's [enum], and
    [voiceUrl] and the text of [replyTo] have to cast, or the validation
    throws; [text] is trimmed by the schema, [isRead], [readAt] and
    [createdAt] get their defaults. *)
Definition Message_create (env : Env) (d : MessageData) : M Message :=
  match cast_messageType (md_messageType d), cast_String (md_voiceUrl d),
        cast_replyTo (md_replyTo d) with
  | Some t, Some url, Some reply =>
      let m := mkMessage (newMessageId env) (md_conversationId d) (md_senderId d)
                         (md_receiverId d) t (trim (md_text d)) url
                         (md_voiceDuration d) reply false None (now env) in
      (modify (set_messages (fun l => (l ++ [m])%list)) ;;; ret m)%M
  | _, _, _ => throw "ValidationError"
  end.

Definition messageData_of (req : Request) (conversation : Conversation)
    (userObjectId recipientObjectId : ObjectId) (messageText : string)
    (replyToData : option ReplyToData) : MessageData :=
  let messageType := messageType_of req in
  let voice := js_is messageType "voice" in
  mkMessageData (conv_id conversation) userObjectId recipientObjectId messageType
                messageText replyToData
                (if voice then body_voiceUrl req else JUndefined)
                (if voice then Some (num_or (body_voiceDuration req) 0) else None).

(** [x || null] *)
Definition text_or_null (x : option string) : option string :=
  match x with
  | Some s => if String.eqb s "" then None else x
  | None => None
  end.

Definition num_or_null (x : option Z) : option Z :=
  match x with
  | Some n => if n =? 0 then None else x
  | None => None
  end.

Definition payload_of (conversation : Conversation) (message : Message) : MessagePayload :=
  mkMessagePayload (msg_id message) (conv_id conversation) (senderId message)
                   (receiverId message) (messageType message) (text message)
                   (text_or_null (voiceUrl message)) (num_or_null (voiceDuration message))
                   (replyTo message) (isRead message) (createdAt message).

Record Sent : Type := mkSent {
  sent_success : bool;
  sent_message : MessagePayload;
}.

(** The update of the conversation after the message is stored. *)
Definition touch_conversation (env : Env) (previewText : string)
    (userObjectId : ObjectId) (message : Message) (key : string) (n : Z)
    (c : Conversation) : Conversation :=
  mkConversation (conv_id c) (participants c)
                 (mkLastMessage previewText (Some userObjectId) (createdAt message))
                 (<[key := n]> (unreadCount c)) (conv_createdAt c) (now env).

(** ** [getConversations]: what both revisions share *)

Record OtherUser : Type := mkOtherUser {
  ou_id : ObjectId;
  ou_name : option string;
  ou_age : option Z;
  ou_photo : option string;
  ou_city : option string;
  ou_isOnline : bool;
  ou_lastSeen : option Time;
}.

Record ConversationItem : Type := mkConversationItem {
  ci_id : ObjectId;
  ci_otherUser : option OtherUser;
  ci_lastMessage : LastMessage;
  ci_unreadCount : Z;
  ci_updatedAt : Time;
}.

(** [.sort({ updatedAt: -1 })] *)
Definition latest_first (a b : Conversation) : Prop := updatedAt b <= updatedAt a.

#[global] Instance latest_first_dec a b : Decision (latest_first a b).
Proof. unfold latest_first. apply _. Defined.

(** [Conversation.find({ participants: id }).sort({ updatedAt: -1 }).lean()] *)
Definition Conversation_find_sorted (id : ObjectId) : M (list Conversation) :=
  fun st =>
    (Returned (merge_sort latest_first (List.filter (has_participant id) (conversations st))),
     st).

Definition User_findById (id : ObjectId) : M (option User) :=
  fun st => (Returned (List.find (fun u => oid_eqb (user_id u) id) (users st)), st).

(** [getPhotoUrl(key)] *)
Definition getPhotoUrl (env : Env) (key : option string) : option string :=
  if present key then getSignedUrl env (js_String key) else None.

(** The photo of [otherUser]: [userPhoto[0]], when truthy, names the key. *)
Definition photoUrl_of (env : Env) (otherUser : option User) : option string :=
  match otherUser with
  | Some u =>
      match userPhoto u with
      | PhotoObj key :: _ => getPhotoUrl env key
      | PhotoKey key :: _ =>
          if String.eqb key "" then None else getPhotoUrl env (Some key)
      | [] => None
      end
  | None => None
  end.

Fixpoint mapM {A B} (f : A -> M B) (l : list A) : M (list B) :=
  match l with
  | [] => ret []
  | x :: l' => (y <- f x ;; ys <- mapM f l' ;; ret (y :: ys))%M
  end.

(** The other participant and their photo, as both revisions look them up. *)
Definition lookup_other (env : Env) (userId : string) (conv : Conversation)
    : M (option User * option string) :=
  let otherParticipantId :=
    List.find (fun p => negb (String.eqb p userId)) (participants conv) in
  match otherParticipantId with
  | Some otherParticipantId =>
      (otherUser <- User_findById otherParticipantId ;;
       ret (otherUser, photoUrl_of env otherUser))%M
  | None => ret (None, None)
  end.

(** ** The controller at [controllers/chatController.js] *)

Module ChatController.

(** [conv.unreadCount?.get?.(key) || 0] on the plain object that
    [lean()] returns: it has no [get] unless a key is called so, and
    then the call of a number throws. *)
Definition unread_of (conv : Conversation) (key : string) : M Z :=
  match unreadCount conv !! "get" with
  | None => ret (num_or None 0)
  | Some _ => throw "TypeError: conv.unreadCount?.get is not a function"
  end.

Definition enrich (env : Env) (userId : string) (conv : Conversation)
    : M ConversationItem :=
  (other <- lookup_other env userId conv ;;
   let otherUser := fst other in
   let photoUrl := snd other in
   unreadCount <- unread_of conv userId ;;
   ret (mkConversationItem (conv_id conv)
          ((fun u => mkOtherUser (user_id u) (name u) (age u) photoUrl
                       (text_or_null (city u)) (default false (isOnline u)) (lastSeen u))
             <$> otherUser)
          (lastMessage conv) unreadCount (updatedAt conv)))%M.

Definition getConversations (env : Env) (req : Request)
    : Store -> Response (list ConversationItem) * Store :=
  handler (
    let userId := getReqUserId req in
    if bad_id userId then ret (Fail 401 "Unauthorized") else
    let userObjectId := mkObjectId (js_String userId) in
    conversations <- Conversation_find_sorted userObjectId ;;
    enrichedConversations <- mapM (enrich env (js_String userId)) conversations ;;
    ret (Json 200 enrichedConversations))%M.

Definition sendMessage (env : Env) (req : Request) : Store -> Response Sent * Store :=
  handler (
    let userId := getReqUserId req in
    let recipientId := param_recipientId req in
    let messageType := messageType_of req in
    if bad_id userId then ret (Fail 401 "Unauthorized") else
    if bad_id recipientId then ret (Fail 400 "Invalid recipient id") else
    match check_content req with
    | Some message => ret (Fail 400 message)
    | None =>
        let userObjectId := mkObjectId (js_String userId) in
        let recipientObjectId := mkObjectId (js_String recipientId) in
        messageText <- messageText_of (body_text req) ;;
        replyToData <- replyToData_of (body_replyTo req) ;;
        found <- Conversation_findOne
                   (has_all_participants [userObjectId; recipientObjectId]) ;;
        let previewText := previewText_of messageType messageText in
        conversation <-
          match found with
          | Some c => ret c
          | None =>
              Conversation_create env [userObjectId; recipientObjectId]
                (mkLastMessage previewText (Some userObjectId) (now env))
                {[ js_String recipientId := 1 ]}
          end ;;
        message <- Message_create env
                     (messageData_of req conversation userObjectId recipientObjectId
                                     messageText replyToData) ;;
        let currentUnread :=
          num_or (unreadCount conversation !! js_String recipientId) 0 in
        Conversation_findByIdAndUpdate (conv_id conversation)
          (touch_conversation env previewText userObjectId message
                              (js_String recipientId) (currentUnread + 1)) ;;;
        ret (Json 201 (mkSent true (payload_of conversation message)))
    end)%M.

End ChatController.

(** ** The controller revision with push and realtime delivery *)

Module ChatControllerPush.

(** [conv.unreadCount?.[key] || 0] *)
Definition unread_of (conv : Conversation) (key : string) : Z :=
  num_or (unreadCount conv !! key) 0.

Definition enrich (env : Env) (userId : string) (conv : Conversation)
    : M ConversationItem :=
  (other <- lookup_other env userId conv ;;
   let otherUser := fst other in
   let photoUrl := snd other in
   let unreadCount := unread_of conv userId in
   ret (mkConversationItem (conv_id conv)
          ((fun u => mkOtherUser (user_id u) (name u) (age u) photoUrl
                       (text_or_null (or_else (city u) (userLocation u)))
                       (default false (isOnline u)) (lastSeen u))
             <$> otherUser)
          (lastMessage conv) unreadCount (updatedAt conv)))%M.

Definition getConversations (env : Env) (req : Request)
    : Store -> Response (list ConversationItem) * Store :=
  handler (
    let userId := getReqUserId req in
    if bad_id userId then ret (Fail 401 "Unauthorized") else
    let userObjectId := mkObjectId (js_String userId) in
    conversations <- Conversation_find_sorted userObjectId ;;
    enrichedConversations <- mapM (enrich env (js_String userId)) conversations ;;
    ret (Json 200 enrichedConversations))%M.

(** A promise that is not awaited and whose rejection is only logged:
    its effects on the store happen, its result is dropped. *)
Definition detached {A} (task : M A) : M unit :=
  fun st => (Returned tt, snd (task st)).

(** [emitToUser] of the socket manager *)
Definition emitToUser (userId event : string) (message : MessagePayload)
    (senderId : string) : M unit :=
  fun st =>
    if negb (io st) then (Returned tt, st)
    else (Returned tt,
          set_emitted (fun l => (l ++ [mkEmit ("user:" ++ userId) event message senderId])%list) st).

Definition sendMessage (env : Env) (req : Request) : Store -> Response Sent * Store :=
  handler (
    let userId := getReqUserId req in
    let recipientId := param_recipientId req in
    let messageType := messageType_of req in
    if bad_id userId then ret (Fail 401 "Unauthorized") else
    if bad_id recipientId then ret (Fail 400 "Invalid recipient id") else
    match check_content req with
    | Some message => ret (Fail 400 message)
    | None =>
        let userObjectId := mkObjectId (js_String userId) in
        let recipientObjectId := mkObjectId (js_String recipientId) in
        messageText <- messageText_of (body_text req) ;;
        replyToData <- replyToData_of (body_replyTo req) ;;
        found <- Conversation_findOne
                   (has_all_participants [userObjectId; recipientObjectId]) ;;
        let previewText := previewText_of messageType messageText in
        conversation <-
          match found with
          | Some c => ret c
          | None =>
              Conversation_create env [userObjectId; recipientObjectId]
                (mkLastMessage previewText (Some userObjectId) (now env))
                ∅
          end ;;
        message <- Message_create env
                     (messageData_of req conversation userObjectId recipientObjectId
                                     messageText replyToData) ;;
        let currentUnread :=
          num_or (unreadCount conversation !! js_String recipientId) 0 in
        Conversation_findByIdAndUpdate (conv_id conversation)
          (touch_conversation env previewText userObjectId message
                              (js_String recipientId) (currentUnread + 1)) ;;;
        sender <- User_findById userObjectId ;;
        detached (PushService.sendNewMessageNotification env (js_String recipientId)
                    userObjectId (sender ≫= name) previewText (conv_id conversation)) ;;;
        let messagePayload := payload_of conversation message in
        emitToUser (js_String recipientId) "new_message" messagePayload
                   (js_String userId) ;;;
        ret (Json 201 (mkSent true messagePayload))
    end)%M.

End ChatControllerPush.
(** ** Scenarios *)

Definition alice : string := "aaaaaaaaaaaaaaaaaaaaaaaa".
Definition bob : string := "bbbbbbbbbbbbbbbbbbbbbbbb".
Definition carol : string := "cccccccccccccccccccccccc".

Definition chat_id : ObjectId := "c00000000000000000000001".

(** A conversation of alice and bob. *)
Definition chat_ab (unread : gmap string Z) : Conversation :=
  mkConversation chat_id [alice; bob] (mkLastMessage "" None 0) unread 0 0.

Definition two_digits (i : nat) : string :=
  String (ascii_of_nat (48 + i / 10)) (String (ascii_of_nat (48 + i mod 10)) EmptyString).

(** [n] times the digit 9 *)
Fixpoint nines (n : nat) : string :=
  match n with
  | O => EmptyString
  | S n' => String "9" (nines n')
  end.

(** U+00A0, the no-break space *)
Definition nbsp : string :=
  String (ascii_of_nat 194) (String (ascii_of_nat 160) EmptyString).

(** The [i]-th message of alice to bob, sent at time [i]. *)
Definition nth_message (i : nat) : Message :=
  mkMessage ("dddddddddddddddddddddd" ++ two_digits i) chat_id alice bob
            (Some "text") "m" None None None false None (Z.of_nat i).

Definition store_of (cs : list Conversation) (ms : list Message) : Store :=
  mkStore cs ms [] [] false false [].

(** A store whose only conversation holds [n] messages. *)
Definition history (n : nat) : Store :=
  store_of [chat_ab ∅] (map nth_message (seq 0 n)).

(** An authenticated request of [user] with no parameters. *)
Definition request_of (user : string) : Request :=
  mkRequest (Some user) (Some user) None None None None None None None
            JUndefined None JUndefined JUndefined None None.

(** [GET /chats/:recipientId/messages?page=..&limit=..] *)
Definition get_messages (user recipientId : string) (page limit : option string) : Request :=
  mkRequest (Some user) (Some user) None None None (Some recipientId) None page limit
            JUndefined None JUndefined JUndefined None None.

(** [?limit=0] on the conversation of alice and bob *)
Definition limit_zero : Request := get_messages alice bob None (Some "0").

(** [POST /chats/:conversationId/read] *)
Definition mark_read_req (user conversationId_ : string) : Request :=
  mkRequest (Some user) (Some user) None None None None (Some conversationId_) None None
            JUndefined None JUndefined JUndefined None None.

(** Three unread messages for bob, and the counter that goes with them. *)
Definition three_unread : Store :=
  store_of [chat_ab {[ bob := 3 ]}] (map nth_message (seq 0 3)).

Definition at_time (t : Time) : Env :=
  mkEnv t "c00000000000000000000002" "d00000000000000000000099"
        (fun _ => Failed "unavailable") (fun _ => None).




(** [POST /chats/:recipientId/messages] with the body fields [text],
    [messageType] and [voiceUrl] *)
Definition post_message (user recipientId : string) (text messageType voiceUrl : JsValue)
    : Request :=
  mkRequest (Some user) (Some user) None None None (Some recipientId) None None None
            text None messageType voiceUrl None None.

(** An image message in reply to a message whose text it gives as
    [reply_text]. *)
Definition post_image_reply (user recipientId : string) (reply_text : JsValue) : Request :=
  mkRequest (Some user) (Some user) None None None (Some recipientId) None None None
            JUndefined
            (Some (mkReplyToInput (Some "dddddddddddddddddddddd00") reply_text None))
            (JStr "image") JUndefined None None.

(** A [replyTo] that is stored: its ids, where it carries any, are well
    formed, and its text casts to a string. *)
Definition replyTo_ok (replyTo : option ReplyToInput) : bool :=
  match replyTo with
  | Some r =>
      if present (rti_id r) && truthy (rti_text r) then
        isValid (js_String (rti_id r))
        && (if present (rti_senderId r) then isValid (js_String (rti_senderId r)) else true)
        && match cast_String (rti_text r) with Some _ => true | None => false end
      else true
  | None => true
  end.

(** No stored conversation has the id that the store will hand out. *)
Definition fresh_conversation_id (env : Env) (st : Store) : Prop :=
  List.find (fun c => oid_eqb (conv_id c) (newConversationId env)) (conversations st) = None.

(** The first text message of [userId] to [recipientId], as stored. *)
Definition first_message (env : Env) (userId recipientId s : string) : Message :=
  mkMessage (newMessageId env) (newConversationId env)
            (mkObjectId userId) (mkObjectId recipientId)
            (Some "text") (trim s) None None None false None (now env).

(** The conversation that the first text message leaves behind, with
    [unread] as the recipient's counter. *)
Definition first_conversation (env : Env) (userId recipientId s : string) (unread : Z)
    : Conversation :=
  mkConversation (newConversationId env) [mkObjectId userId; mkObjectId recipientId]
                 (mkLastMessage (trim s) (Some (mkObjectId userId)) (now env))
                 {[ recipientId := unread ]} (now env) (now env).

(** alice sends [{ text: '  hi ' }] to bob. *)
Definition hi_request : Request := post_message alice bob (JStr "  hi ") JUndefined JUndefined.

(** Two stores with the same conversations, messages and users. *)
Definition same_chats (a b : Store) : Prop :=
  conversations a = conversations b /\ messages a = messages b /\ users a = users b.

(** A store with nothing in it. *)
Definition no_chats : Store := store_of [] [].

(** The other participant of [conv] as [getConversations] picks them, and
    their stored profile. *)
Definition other_participant (userId : string) (conv : Conversation) : option ObjectId :=
  List.find (fun p => negb (String.eqb p userId)) (participants conv).

Definition other_profile (st : Store) (userId : string) (conv : Conversation) : option User :=
  other_participant userId conv
    ≫= fun id => List.find (fun u => oid_eqb (user_id u) id) (users st).

(** [item] is the entry of the list for [conv]: same id, preview and
    time, and the other participant's profile, or [null] when there is
    none. *)
Definition lists (st : Store) (userId : string) (conv : Conversation)
    (item : ConversationItem) : Prop :=
  ci_id item = conv_id conv /\
  ci_lastMessage item = lastMessage conv /\
  ci_updatedAt item = updatedAt conv /\
  match other_profile st userId conv with
  | Some u =>
      exists o, ci_otherUser item = Some o /\
                ou_id o = user_id u /\ ou_name o = name u /\ ou_age o = age u
  | None => ci_otherUser item = None
  end.

Definition latest_item_first (a b : ConversationItem) : Prop :=
  ci_updatedAt b <= ci_updatedAt a.

(** [GET /chats] *)
Definition dave : string := "dddddddddddddddddddddddd".

Definition bob_profile : User :=
  mkUser bob (Some "Bob") (Some 30) [] (Some true) None (Some "Kyiv") None.

Definition chat_ad_id : ObjectId := "c00000000000000000000004".

(** alice has three unread messages from bob, and an older conversation
    with dave, whose profile is gone. *)
Definition alice_chats : Store :=
  mkStore
    [mkConversation chat_ad_id [alice; dave] (mkLastMessage "bye" (Some dave) 3)
                    ∅ 1 3;
     mkConversation chat_id [alice; bob] (mkLastMessage "hi" (Some bob) 7)
                    {[ alice := 3 ]} 2 7;
     mkConversation "c00000000000000000000009" [bob; carol]
                    (mkLastMessage "x" (Some bob) 9) ∅ 1 9]
    [] [bob_profile] [] false false [].

(** The tokens [sendPushToUser] sends to: those of the user's active
    records, in store order. *)
Definition active_tokens (st : Store) (userId : string) : list string :=
  map fcmToken
    (List.filter (fun t => oid_eqb (dt_userId t) (mkObjectId userId) && isActive t)
                 (deviceTokens st)).

(** The provider's answer reports [token] as permanently invalid: the
    entry at the token's position failed with one of the two codes. *)
Definition reported_invalid (fcmTokens : list string) (resps : list SendResponse)
    (token : string) : Prop :=
  exists idx resp,
    fcmTokens !! idx = Some token /\ resps !! idx = Some resp /\
    success resp = false /\
    (error_code resp = Some "messaging/invalid-registration-token"
     \/ error_code resp = Some "messaging/registration-token-not-registered").

(** Two environments that differ in the push provider at most. *)
Definition same_but_provider (a b : Env) : Prop :=
  now a = now b /\ newConversationId a = newConversationId b /\
  newMessageId a = newMessageId b /\ getSignedUrl a = getSignedUrl b.

(** bob's two phones and his tablet, and alice's phone. *)
Definition device (user token : string) : DeviceToken :=
  mkDeviceToken user token (Some "android") None true 0 0.

Definition devices : Store :=
  mkStore [] [] [] [device bob "tok-1"; device alice "tok-a"; device bob "tok-2";
                    device bob "tok-3"]
          true false [].

(** A provider that delivers to the first token, reports the second as
    unregistered and the third as unavailable. *)
Definition partly_failing (t : Time) : Env :=
  mkEnv t "c00000000000000000000002" "d00000000000000000000099"
        (fun _ => Answered
           (mkBatchResponse 1 2
              [mkSendResponse true None;
               mkSendResponse false (Some "messaging/registration-token-not-registered");
               mkSendResponse false (Some "messaging/server-unavailable")]))
        (fun _ => None).

Definition hello : PushService.Notification :=
  PushService.mkNotification "t" "b" [].

(** Two stores that differ in the device tokens at most. *)
Definition same_but_tokens (a b : Store) : Prop :=
  conversations a = conversations b /\ messages a = messages b /\ users a = users b /\
  firebaseInitialized a = firebaseInitialized b /\ io a = io b /\ emitted a = emitted b.

(** Two runs with the same result on stores that differ in the device
    tokens at most. *)
Definition agree {A} (x y : Outcome A * Store) : Prop :=
  fst x = fst y /\ same_but_tokens (snd x) (snd y).

(** No two device-token records carry the same token. *)
Definition unique_tokens (st : Store) : Prop := NoDup (map fcmToken (deviceTokens st)).

(** One call of [registerDeviceToken]. *)
Record Registration : Type := mkRegistration {
  reg_env : Env;
  reg_userId : string;
  reg_fcmToken : string;
  reg_platform : JsValue;
  reg_deviceId : option string;
}.

Definition register (st : Store) (r : Registration) : Store :=
  snd (PushService.registerDeviceToken (reg_env r) (reg_userId r) (reg_fcmToken r)
         (reg_platform r) (reg_deviceId r) st).

(** A sequence of registrations, first to last. *)
Definition register_all (rs : list Registration) (st : Store) : Store :=
  fold_left register rs st.

(** The platform that a valid registration stores: ['android'] when the
    caller gives none, [null] for [null], and the text it gives. *)
Definition stored_platform (platform_ : JsValue) : option string :=
  default None (PushService.cast_platform platform_).

(** What a registration makes of the record [d] that holds its token. *)
Definition reassigned (env : Env) (userId : string) (platform_ : JsValue)
    (deviceId_ : option string) (d : DeviceToken) : DeviceToken :=
  mkDeviceToken (mkObjectId userId) (fcmToken d) (stored_platform platform_) deviceId_
                true (dt_createdAt d) (now env).

(** The platform passes the schema's validation: it is absent, [null],
    ['android'] or ['ios']. *)
Definition platform_known (platform_ : JsValue) : bool :=
  match PushService.cast_platform platform_ with Some _ => true | None => false end.

(** The registration passes the schema's validation. *)
Definition registration_ok (userId : string) (platform_ : JsValue) : bool :=
  isValid userId && platform_known platform_.

Definition has_token (token : string) (d : DeviceToken) : bool :=
  String.eqb (fcmToken d) token.

(** alice registers a token from one device; later bob registers the same
    token from another. *)
Definition alice_registers : Registration :=
  mkRegistration (at_time 10) alice "tok" JUndefined (Some "device-1").

Definition after_alice : Store := register no_chats alice_registers.

(** ** Vocabulary of the properties *)

(** Oldest first. *)
Definition chronological (l : list Message) : Prop :=
  StronglySorted (fun a b => createdAt a <= createdAt b) l.

(** [n] brought into the range from [lo] to [hi]. *)
Definition clamp (lo hi n : Z) : Z := Z.min hi (Z.max lo n).

(** The messages a call of [markAsRead] by [userId] on [conversationId]
    changes. *)
Definition unread_for (userId conversationId_ : string) (m : Message) : bool :=
  oid_eqb (conversationId m) (mkObjectId conversationId_)
  && oid_eqb (receiverId m) (mkObjectId userId)
  && negb (isRead m).

(** The conversation ids of the request that survive both checks: the id
    is well formed and names a conversation the caller takes part in. *)
Definition owned (userObjectId : ObjectId) (convs : list Conversation) (convId : string) : bool :=
  isValid convId
  && existsb (fun c => oid_eqb (conv_id c) (mkObjectId convId)
                       && has_participant userObjectId c) convs.

Definition surviving (userObjectId : ObjectId) (convs : list Conversation)
    (conversationIds : list string) : list ObjectId :=
  map mkObjectId (List.filter (owned userObjectId convs) conversationIds).

(** Whatever [m] returns satisfies [P]. *)
Definition answers {A} (P : A -> Prop) (m : M A) : Prop :=
  forall st, match m st with
             | (Returned a, _) => P a
             | (Thrown _, _) => True
             end.

(** [m] does not throw. *)
Definition returns {A} (m : M A) : Prop :=
  forall st, exists a st', m st = (Returned a, st').

(** The text of a text message is missing, not a string, or empty once
    trimmed. *)
Definition text_absent_or_blank (text : JsValue) : Prop :=
  match text with
  | JStr s => trim s = ""
  | _ => True
  end.

(** The voice URL is missing: absent, [null], or another falsy value such
    as the empty text. *)
Definition voiceUrl_missing (voiceUrl : JsValue) : Prop := truthy voiceUrl = false.

(** The content of the request is invalid. The message type is the
    effective one: ['text'] when the body names none. *)
Definition invalid_input (req : Request) : Prop :=
  (messageType_of req = JStr "text" /\ text_absent_or_blank (body_text req))
  \/ (messageType_of req = JStr "voice" /\ voiceUrl_missing (body_voiceUrl req)).

(** ** [startConversation] *)

Record Started : Type := mkStarted {
  st_conversationId : ObjectId;
  st_otherUser : option OtherUser;
}.

(** [startConversation], with the expression for [city] that tells the
    two revisions apart. [Conversation.create({ participants })] takes the
    schema's defaults for the preview and the counters. *)
Definition startConversation_with (city_of : User -> option string)
    (env : Env) (req : Request) : Store -> Response Started * Store :=
  handler (
    let userId := getReqUserId req in
    let recipientId := param_recipientId req in
    if bad_id userId then ret (Fail 401 "Unauthorized") else
    if bad_id recipientId then ret (Fail 400 "Invalid recipient id") else
    let userObjectId := mkObjectId (js_String userId) in
    let recipientObjectId := mkObjectId (js_String recipientId) in
    found <- Conversation_findOne
               (has_all_participants [userObjectId; recipientObjectId]) ;;
    conversation <-
      match found with
      | Some c => ret c
      | None =>
          Conversation_create env [userObjectId; recipientObjectId]
            (mkLastMessage "" None (now env)) ∅
      end ;;
    otherUser <- User_findById recipientObjectId ;;
    let photoUrl := photoUrl_of env otherUser in
    ret (Json 200
           (mkStarted (conv_id conversation)
              ((fun u => mkOtherUser (user_id u) (name u) (age u) photoUrl (city_of u)
                                     (default false (isOnline u)) (lastSeen u))
                 <$> otherUser))))%M.

(** [controllers/chatController.js]: [city: otherUser.city || null] *)
Definition startConversation : Env -> Request -> Store -> Response Started * Store :=
  startConversation_with (fun u => text_or_null (city u)).

(** The revision with push delivery:
    [city: otherUser.city || otherUser.userLocation || null] *)
Definition startConversation_push : Env -> Request -> Store -> Response Started * Store :=
  startConversation_with (fun u => text_or_null (or_else (city u) (userLocation u))).

(** [GET /chats/start/:recipientId] *)
Definition start_req (user recipientId : string) : Request :=
  mkRequest (Some user) (Some user) None None None (Some recipientId) None None None
            JUndefined None JUndefined JUndefined None None.

(** The request is made by [user] about [other]: both ids are well
    formed. *)
Definition between (req : Request) (user other : string) : Prop :=
  getReqUserId req = Some user /\ param_recipientId req = Some other /\
  isValid user = true /\ isValid other = true.

(** ** Device tokens *)

(** A push to [d'] can have changed the record [d] in one way only: by
    deactivating it. *)
Definition at_most_deactivated (d d' : DeviceToken) : Prop :=
  fcmToken d' = fcmToken d /\ dt_userId d' = dt_userId d /\
  platform d' = platform d /\ deviceId d' = deviceId d /\
  dt_createdAt d' = dt_createdAt d /\
  (isActive d' = true -> d' = d).

(** ** Paging *)

(** The messages of the page that [getMessages] answers with, newest
    first; nothing when it answers with an error. *)
Definition page_items (req : Request) (st : Store) : list Message :=
  match fst (getMessages req st) with
  | Json _ page => reverse (mp_messages page)
  | Fail _ _ => []
  end.

(** The stored messages of conversation [c], newest first. *)
Definition newest_of (c : Conversation) (st : Store) : list Message :=
  merge_sort newest_first
    (List.filter (fun m => oid_eqb (conversationId m) (conv_id c)) (messages st)).

(** [req] asks, for a valid pair of users whose conversation is [c], for
    page [p] with limit [l]; the page is in the range of exact integers. *)
Definition asks_page (req : Request) (st : Store) (c : Conversation) (p l : nat) : Prop :=
  bad_id (getReqUserId req) = false /\
  bad_id (param_recipientId req) = false /\
  List.find (has_all_participants
               [mkObjectId (js_String (getReqUserId req));
                mkObjectId (js_String (param_recipientId req))])
            (conversations st) = Some c /\
  page_of req = Z.of_nat p /\ limit_of req = Z.of_nat l /\
  Z.of_nat p < 2 ^ 53.

(** ** The two halves of [sendMessage] *)

(** What both revisions of [sendMessage] do once the request has passed
    its checks, up to the update of the conversation: the conversation,
    the stored message and the preview text. [unread0] is the counters a
    new conversation is created with. *)
Definition store_message (unread0 : gmap string Z) (env : Env) (req : Request)
    : M (Conversation * Message * string) :=
  let userId := getReqUserId req in
  let recipientId := param_recipientId req in
  let messageType := messageType_of req in
  let userObjectId := mkObjectId (js_String userId) in
  let recipientObjectId := mkObjectId (js_String recipientId) in
  (messageText <- messageText_of (body_text req) ;;
   replyToData <- replyToData_of (body_replyTo req) ;;
   found <- Conversation_findOne
              (has_all_participants [userObjectId; recipientObjectId]) ;;
   let previewText := previewText_of messageType messageText in
   conversation <-
     match found with
     | Some c => ret c
     | None =>
         Conversation_create env [userObjectId; recipientObjectId]
           (mkLastMessage previewText (Some userObjectId) (now env))
           unread0
     end ;;
   message <- Message_create env
                (messageData_of req conversation userObjectId recipientObjectId
                                messageText replyToData) ;;
   let currentUnread :=
     num_or (unreadCount conversation !! js_String recipientId) 0 in
   Conversation_findByIdAndUpdate (conv_id conversation)
     (touch_conversation env previewText userObjectId message
                         (js_String recipientId) (currentUnread + 1)) ;;;
   ret (conversation, message, previewText))%M.

(** What the revision with push delivery does after that: the sender's
    name is looked up, the push is started and the event is emitted. *)
Definition deliver (env : Env) (req : Request) (conversation : Conversation)
    (message : Message) (previewText : string) : M unit :=
  let userId := getReqUserId req in
  let recipientId := param_recipientId req in
  let userObjectId := mkObjectId (js_String userId) in
  (sender <- User_findById userObjectId ;;
   ChatControllerPush.detached
     (PushService.sendNewMessageNotification env (js_String recipientId)
        userObjectId (sender ≫= name) previewText (conv_id conversation)) ;;;
   ChatControllerPush.emitToUser (js_String recipientId) "new_message"
     (payload_of conversation message) (js_String userId))%M.

(** The request passes the checks of [sendMessage] that come before
    anything is stored. *)
Definition passes_checks (req : Request) : Prop :=
  bad_id (getReqUserId req) = false /\
  bad_id (param_recipientId req) = false /\
  check_content req = None.

(** The text that [sendMessage] stores: the trimmed [text] of the body, or
    the empty text when the body has none. *)
Definition stored_text (req : Request) : string :=
  match body_text req with
  | JStr s => trim s
  | _ => ""
  end.

(** The conversation that [sendMessage] creates for a pair without one. *)
Definition new_conversation (unread0 : gmap string Z) (env : Env) (req : Request)
    : Conversation :=
  let userObjectId := mkObjectId (js_String (getReqUserId req)) in
  let recipientObjectId := mkObjectId (js_String (param_recipientId req)) in
  mkConversation (newConversationId env) [userObjectId; recipientObjectId]
    (mkLastMessage (previewText_of (messageType_of req) (stored_text req))
                   (Some userObjectId) (now env))
    unread0 (now env) (now env).

(** [m] is the message that [sendMessage] stores in conversation [c]. *)
Definition message_for (env : Env) (req : Request) (c : Conversation) (m : Message) : Prop :=
  msg_id m = newMessageId env /\
  conversationId m = conv_id c /\
  senderId m = mkObjectId (js_String (getReqUserId req)) /\
  receiverId m = mkObjectId (js_String (param_recipientId req)) /\
  cast_messageType (messageType_of req) = Some (messageType m) /\
  text m = stored_text req /\
  isRead m = false /\ readAt m = None /\ createdAt m = now env.

(** The update of conversation [c] that follows the storing of [m]. *)
Definition bump (env : Env) (req : Request) (c : Conversation) (m : Message)
    : Conversation -> Conversation :=
  touch_conversation env
    (previewText_of (messageType_of req) (stored_text req))
    (mkObjectId (js_String (getReqUserId req))) m
    (js_String (param_recipientId req))
    (num_or (unreadCount c !! js_String (param_recipientId req)) 0 + 1).

Definition add_conversation (c : Conversation) : Store -> Store :=
  set_conversations (fun l => (l ++ [c])%list).

Definition add_message (m : Message) : Store -> Store :=
  set_messages (fun l => (l ++ [m])%list).

Definition bump_conversation (env : Env) (req : Request) (c : Conversation) (m : Message)
    : Store -> Store :=
  set_conversations (update_first (fun x => oid_eqb (conv_id x) (conv_id c))
                                  (bump env req c m)).

(** The ways [store_message] can end on the store [st]. *)
Inductive stored (unread0 : gmap string Z) (env : Env) (req : Request) (st : Store)
    : Outcome (Conversation * Message * string) * Store -> Prop :=
  | stored_nothing e :
      stored unread0 env req st (Thrown e, st)
  | stored_conversation_only e :
      List.find (has_all_participants
                   [mkObjectId (js_String (getReqUserId req));
                    mkObjectId (js_String (param_recipientId req))])
                (conversations st) = None ->
      stored unread0 env req st
             (Thrown e, add_conversation (new_conversation unread0 env req) st)
  | stored_in_found c m :
      List.find (has_all_participants
                   [mkObjectId (js_String (getReqUserId req));
                    mkObjectId (js_String (param_recipientId req))])
                (conversations st) = Some c ->
      message_for env req c m ->
      stored unread0 env req st
             (Returned (c, m, previewText_of (messageType_of req) (stored_text req)),
              bump_conversation env req c m (add_message m st))
  | stored_in_new m :
      List.find (has_all_participants
                   [mkObjectId (js_String (getReqUserId req));
                    mkObjectId (js_String (param_recipientId req))])
                (conversations st) = None ->
      message_for env req (new_conversation unread0 env req) m ->
      stored unread0 env req st
             (Returned (new_conversation unread0 env req, m,
                        previewText_of (messageType_of req) (stored_text req)),
              bump_conversation env req (new_conversation unread0 env req) m
                (add_message m
                   (add_conversation (new_conversation unread0 env req) st))).

(** [POST /chats/:recipientId/messages] of a voice message *)
Definition post_voice (user recipientId voiceUrl : string) (duration : option Z) : Request :=
  mkRequest (Some user) (Some user) None None None (Some recipientId) None None None
            JUndefined None (JStr "voice") (JStr voiceUrl) duration None.

(** bob's counter is at 3 in the conversation with alice, and alice has a
    counter of her own. *)
Definition busy_chat : Store :=
  store_of [chat_ab {[ bob := 3; alice := 1 ]}] (map nth_message (seq 0 3)).

(** alice has a conversation with bob and then writes to herself. *)
Definition to_herself : Request := post_message alice alice (JStr "note") JUndefined JUndefined.

(** ** Tokens of identity ([middlewares/auth.js], [src/socketManager.js]) *)

(** The claims of a verified token that the service reads. *)
Record Payload : Type := mkPayload {
  pl_sub : option string;
  pl_userId : option string;
  pl_id : option string;
  pl_scope : option string;
}.

(** [payload.sub || payload.userId || payload.id] *)
Definition token_user (payload : Payload) : option string :=
  or_else (pl_sub payload) (or_else (pl_userId payload) (pl_id payload)).

(** [s.startsWith(p) ? s.slice(p.length) : null] *)
Fixpoint strip_prefix (p s : string) : option string :=
  match p, s with
  | EmptyString, _ => Some s
  | String a p', String b s' => if Ascii.eqb a b then strip_prefix p' s' else None
  | String _ _, EmptyString => None
  end.

(** [req.user = { id: userId, _id: userId, scope }] *)
Definition set_req_user (userId : string) (req : Request) : Request :=
  mkRequest (Some userId) (Some userId) (req_auth_userId req) (req_regUserId req)
            (req_userId req) (param_recipientId req) (param_conversationId req)
            (query_page req) (query_limit req) (body_text req) (body_replyTo req)
            (body_messageType req) (body_voiceUrl req) (body_voiceDuration req)
            (body_conversationIds req).

(** [authRequired(req, res, next)]: the answer it sends, or the request it
    passes on to [next]. [verify] is [jwt.verify] with the service's
    secret; it gives no payload when it throws. *)
Definition authRequired (verify : string -> option Payload)
    (authorization : option string) (req : Request) : Response unit + Request :=
  let auth := PushService.text_or authorization "" in
  let token := strip_prefix "Bearer " auth in
  if negb (present token) then inl (Fail 401 "Unauthorized")
  else
    match verify (js_String token) with
    | Some payload =>
        let userId := token_user payload in
        if negb (present userId) then inl (Fail 401 "Invalid token: missing user id")
        else inr (set_req_user (js_String userId) req)
    | None => inl (Fail 401 "Invalid token")
    end.

(** The handshake of the socket server and the join that follows it: the
    error the connection is refused with, or the room the socket joins. *)
Definition socket_room (verify : string -> option Payload) (token : option string)
    : string + string :=
  if negb (present token) then inl "Unauthorized"
  else
    match verify (js_String token) with
    | Some payload =>
        let userId := token_user payload in
        if negb (present userId) then inl "Invalid token"
        else inr ("user:" ++ js_String userId)
    | None => inl "Invalid token"
    end.

(** A verifier that knows one token, alice's. *)
Definition knows_alice (token : string) : option Payload :=
  if String.eqb token "alice-token" then Some (mkPayload (Some alice) None None None)
  else None.

(** A store in which the socket server is running. *)
Definition online : Store := mkStore [] [] [] [] false true [].

(** A verifier that knows one token, whose subject is not an object id. *)
Definition knows_uuid (token : string) : option Payload :=
  if String.eqb token "t" then Some (mkPayload (Some "7f3e-uuid") None None None)
  else None.

(** ** The push-token endpoints of the revision with push delivery *)

(** The body of [POST] and [DELETE /chats/push-token]: [fcmToken] and
    [deviceId] are texts, or absent or [null]; [platform] is any value. *)
Record TokenBody : Type := mkTokenBody {
  tb_fcmToken : option string;
  tb_platform : JsValue;
  tb_deviceId : option string;
}.

Definition registerPushToken (env : Env) (req : Request) (body : TokenBody)
    : Store -> Response bool * Store :=
  handler (
    let userId := getReqUserId req in
    if bad_id userId then ret (Fail 401 "Unauthorized") else
    if negb (present (tb_fcmToken body)) then ret (Fail 400 "FCM token is required") else
    result <- PushService.registerDeviceToken env (js_String userId)
                (js_String (tb_fcmToken body)) (tb_platform body) (tb_deviceId body) ;;
    if result then ret (Json 200 true)
    else ret (Fail 500 "Failed to register token"))%M.

Definition unregisterPushToken (req : Request) (body : TokenBody)
    : Store -> Response bool * Store :=
  handler (
    let userId := getReqUserId req in
    if bad_id userId then ret (Fail 401 "Unauthorized") else
    if negb (present (tb_fcmToken body)) then ret (Fail 400 "FCM token is required") else
    result <- PushService.unregisterDeviceToken (js_String (tb_fcmToken body)) ;;
    if result then ret (Json 200 true)
    else ret (Fail 500 "Failed to unregister token"))%M.


(** ** [uploadVoice] and [debugPush] *)

Record Uploaded : Type := mkUploaded {
  up_success : bool;
  voiceKey : option string;
  up_voiceUrl : option string;
}.

(** [uploadVoice]; [file] is [req.file], given by its [key], or [None]
    when the upload middleware has stored no file. *)
Definition uploadVoice (env : Env) (req : Request) (file : option (option string))
    : Store -> Response Uploaded * Store :=
  handler (
    let userId := getReqUserId req in
    if bad_id userId then ret (Fail 401 "Unauthorized") else
    match file with
    | None => ret (Fail 400 "No voice file uploaded")
    | Some voiceKey =>
        let voiceUrl := getPhotoUrl env voiceKey in
        ret (Json 200 (mkUploaded true voiceKey voiceUrl))
    end)%M.

Record TokenPreview : Type := mkTokenPreview {
  tp_platform : option string;
  tp_isActive : bool;
  tokenPreview : string;
  tp_createdAt : Time;
}.

Record PushReport : Type := mkPushReport {
  rep_userId : string;
  tokenCount : Z;
  activeTokenCount : Z;
  rep_tokens : list TokenPreview;
  pushResult : PushService.PushResult;
}.

Definition test_notification : PushService.Notification :=
  PushService.mkNotification "Тест FCM ✅" "Push уведомления работают!" [("type", "test")].

(** [t.fcmToken?.substring(0, 20) + '...'], for a token of one-byte
    characters *)
Definition preview_of (d : DeviceToken) : TokenPreview :=
  mkTokenPreview (platform d) (isActive d)
                 (String.substring 0 20 (fcmToken d) ++ "...") (dt_createdAt d).

(** [debugPush]; [userId] is [req.params.userId]. The route has no
    [authRequired]. *)
Definition debugPush (env : Env) (userId : option string)
    : Store -> Response PushReport * Store :=
  handler (
    if bad_id userId then ret (Fail 400 "Invalid userId") else
    tokens <- (fun st =>
                 (Returned (List.filter
                              (fun t => oid_eqb (dt_userId t) (mkObjectId (js_String userId)))
                              (deviceTokens st)), st)) ;;
    pushResult <- (if existsb isActive tokens then
                     PushService.sendPushToUser env (js_String userId) test_notification
                   else
                     ret (PushService.mkPushResult false (Some "no_active_tokens") None None)) ;;
    ret (Json 200 (mkPushReport (js_String userId)
                     (Z.of_nat (length tokens))
                     (Z.of_nat (length (List.filter isActive tokens)))
                     (map preview_of tokens) pushResult)))%M.

(** The statuses that the handlers behind [authRequired] answer [req]
    with on [st]; [file] and [body] are what [uploadVoice] and the
    push-token endpoints read besides. *)
Definition chat_statuses (env : Env) (req : Request) (file : option (option string))
    (body : TokenBody) (st : Store) : list Z :=
  [status_of (fst (ChatController.getConversations env req st));
   status_of (fst (ChatControllerPush.getConversations env req st));
   status_of (fst (getMessages req st));
   status_of (fst (ChatController.sendMessage env req st));
   status_of (fst (ChatControllerPush.sendMessage env req st));
   status_of (fst (markAsRead env req st));
   status_of (fst (startConversation env req st));
   status_of (fst (startConversation_push env req st));
   status_of (fst (deleteConversations req st));
   status_of (fst (uploadVoice env req file st));
   status_of (fst (registerPushToken env req body st));
   status_of (fst (unregisterPushToken req body st))].

(** ** The routers *)

(** A request to one of the routes, with what the handler reads of it. *)
Inductive Call : Type :=
  | GetConversations (req : Request)
  | StartConversation (req : Request)
  | GetMessages (req : Request)
  | SendMessage (req : Request)
  | MarkAsRead (req : Request)
  | DeleteConversations (req : Request)
  | UploadVoice (req : Request) (file : option (option string))
  | RegisterPushToken (req : Request) (body : TokenBody)
  | UnregisterPushToken (req : Request) (body : TokenBody)
  | DebugPush (userId : option string).

(** [router.verb(path, authRequired, h)]: the store after the request. *)
Definition guarded {A} (verify : string -> option Payload) (authorization : option string)
    (h : Request -> Store -> Response A * Store) (req : Request) (st : Store) : Store :=
  match authRequired verify authorization req with
  | inl _ => st
  | inr req' => snd (h req' st)
  end.

(** The router of six routes, over [controllers/chatController.js]. A
    call it has no route for leaves the store as it is. *)
Definition routes (verify : string -> option Payload) (env : Env)
    (authorization : option string) (call : Call) : Store -> Store :=
  match call with
  | GetConversations req =>
      guarded verify authorization (ChatController.getConversations env) req
  | StartConversation req => guarded verify authorization (startConversation env) req
  | GetMessages req => guarded verify authorization getMessages req
  | SendMessage req => guarded verify authorization (ChatController.sendMessage env) req
  | MarkAsRead req => guarded verify authorization (markAsRead env) req
  | DeleteConversations req => guarded verify authorization deleteConversations req
  | _ => fun st => st
  end.

(** The router of ten routes, over the controller with push delivery. *)
Definition routes_push (verify : string -> option Payload) (env : Env)
    (authorization : option string) (call : Call) : Store -> Store :=
  match call with
  | GetConversations req =>
      guarded verify authorization (ChatControllerPush.getConversations env) req
  | StartConversation req => guarded verify authorization (startConversation_push env) req
  | GetMessages req => guarded verify authorization getMessages req
  | SendMessage req => guarded verify authorization (ChatControllerPush.sendMessage env) req
  | MarkAsRead req => guarded verify authorization (markAsRead env) req
  | DeleteConversations req => guarded verify authorization deleteConversations req
  | UploadVoice req file =>
      guarded verify authorization (fun r => uploadVoice env r file) req
  | RegisterPushToken req body =>
      guarded verify authorization (fun r => registerPushToken env r body) req
  | UnregisterPushToken req body =>
      guarded verify authorization (fun r => unregisterPushToken r body) req
  | DebugPush userId => fun st => snd (debugPush env userId st)
  end.

(** A request as it comes in: which of the two routers serves it, what
    the environment gives while it is served, its [Authorization] header
    and the call. *)
Record Incoming : Type := mkIncoming {
  in_push : bool;
  in_env : Env;
  in_authorization : option string;
  in_call : Call;
}.

Definition serve (verify : string -> option Payload) (i : Incoming) : Store -> Store :=
  (if in_push i then routes_push else routes)
    verify (in_env i) (in_authorization i) (in_call i).

(** The requests are served one after the other. *)
Definition serve_all (verify : string -> option Payload) (l : list Incoming)
    (st : Store) : Store :=
  foldl (fun s i => serve verify i s) st l.

(** ** Invariants of the store *)

(** A message is marked read exactly when it has the time of reading. *)
Definition read_marks (st : Store) : Prop :=
  Forall (fun m => isRead m = true <-> is_Some (readAt m)) (messages st).

(** Every message is in a stored conversation that its sender and its
    receiver take part in. *)
Definition messages_belong (st : Store) : Prop :=
  Forall (fun m => exists c, c ∈ conversations st /\ conv_id c = conversationId m /\
                             senderId m ∈ participants c /\ receiverId m ∈ participants c)
         (messages st).

Definition counters_ok (c : Conversation) : Prop :=
  map_Forall (fun _ n => 0 <= n) (unreadCount c).

(** Every conversation has two participants, and no counter is negative. *)
Definition two_party (st : Store) : Prop :=
  Forall (fun c => length (participants c) = 2%nat /\ counters_ok c) (conversations st).

(** No conversation holds all the participants of one that was stored
    after it. *)
Definition one_per_pair (st : Store) : Prop :=
  StronglySorted (fun ci cj => has_all_participants (participants cj) ci = false)
                 (conversations st).

(** One change of the stored conversations, messages and device tokens. *)
Inductive write (st : Store) : Store -> Prop :=
  | write_tokens st' :
      conversations st' = conversations st -> messages st' = messages st ->
      map fcmToken (deviceTokens st') = map fcmToken (deviceTokens st) ->
      write st st'
  | write_token_new d st' :
      conversations st' = conversations st -> messages st' = messages st ->
      List.find (has_token (fcmToken d)) (deviceTokens st) = None ->
      deviceTokens st' = (deviceTokens st ++ [d])%list ->
      write st st'
  | write_token_delete token st' :
      conversations st' = conversations st -> messages st' = messages st ->
      deviceTokens st' = PushService.delete_first (has_token token) (deviceTokens st) ->
      write st st'
  | write_conversation c a b st' :
      participants c = [a; b] -> counters_ok c ->
      List.find (has_all_participants [a; b]) (conversations st) = None ->
      conversations st' = (conversations st ++ [c])%list ->
      messages st' = messages st -> deviceTokens st' = deviceTokens st ->
      write st st'
  | write_message c m st' :
      c ∈ conversations st -> conversationId m = conv_id c ->
      senderId m ∈ participants c -> receiverId m ∈ participants c ->
      isRead m = false -> readAt m = None ->
      conversations st' = conversations st ->
      messages st' = (messages st ++ [m])%list -> deviceTokens st' = deviceTokens st ->
      write st st'
  | write_touch p f st' :
      (forall c, conv_id (f c) = conv_id c /\ participants (f c) = participants c) ->
      (two_party st -> forall c, counters_ok c -> counters_ok (f c)) ->
      conversations st' = update_first p f (conversations st) ->
      messages st' = messages st -> deviceTokens st' = deviceTokens st ->
      write st st'
  | write_read p t st' :
      conversations st' = conversations st ->
      messages st' = update_many p (mark_read t) (messages st) ->
      deviceTokens st' = deviceTokens st ->
      write st st'
  | write_delete ids st' :
      conversations st' = delete_many (fun c => oid_in ids (conv_id c)) (conversations st) ->
      messages st' = delete_many (fun m => oid_in ids (conversationId m)) (messages st) ->
      deviceTokens st' = deviceTokens st ->
      write st st'.

(** A handler that only reads leaves the store as it is. *)
Definition reads {A} (m : M A) : Prop := forall st, snd (m st) = st.

(** A verifier that knows the tokens of alice and of bob. *)
Definition knows_two (token : string) : option Payload :=
  if String.eqb token "alice-token" then Some (mkPayload (Some alice) None None None)
  else if String.eqb token "bob-token" then Some (mkPayload None (Some bob) None None)
  else None.

(** The environment of the request served at time [t]. *)
Definition env_at (t : Z) : Env :=
  mkEnv t ("c000000000000000000000" ++ two_digits (Z.to_nat t))
        ("e000000000000000000000" ++ two_digits (Z.to_nat t))
        (fun _ => Failed "unavailable") (fun _ => None).

(** alice writes to bob and registers a device, bob reads, alice writes
    again, bob opens a conversation with carol and lists his
    conversations. *)
Definition a_day (push : bool) : list Incoming :=
  let by_alice := Some "Bearer alice-token" in
  let by_bob := Some "Bearer bob-token" in
  [mkIncoming push (env_at 1) by_alice
     (SendMessage (post_message "" bob (JStr "hi") JUndefined JUndefined));
   mkIncoming push (env_at 2) by_alice
     (RegisterPushToken (request_of "") (mkTokenBody (Some "tok-a") JUndefined None));
   mkIncoming push (env_at 3) by_bob (MarkAsRead (mark_read_req "" chat_id));
   mkIncoming push (env_at 4) by_alice
     (SendMessage (post_message "" bob (JStr "again") JUndefined JUndefined));
   mkIncoming push (env_at 5) by_bob (StartConversation (start_req "" carol));
   mkIncoming push (env_at 6) by_bob (GetConversations (request_of ""))].

(** ** The list after a message *)




(** ** The url of an uploaded voice file *)

(** The [voiceUrl] that a client sends on from the answer of the upload *)
Definition url_value (url : option string) : JsValue :=
  match url with
  | Some s => JStr s
  | None => JNull
  end.

(** A signer that knows no key, and one that signs every key. *)
Definition unsigned (t : Time) : Env :=
  mkEnv t "c00000000000000000000002" "d00000000000000000000099"
        (fun _ => Failed "unavailable") (fun _ => None).

Definition signing (t : Time) : Env :=
  mkEnv t "c00000000000000000000002" "d00000000000000000000099"
        (fun _ => Failed "unavailable") (fun key => Some ("https://files/" ++ key)).

(** * Properties *)

(** ** Sorted lists *)

Section Sorted_lists.
Context {A : Type} (R : relation A).

Lemma StronglySorted_take n (l : list A) :
  StronglySorted R l -> StronglySorted R (take n l).
Proof.
  intros H. rewrite <- (take_drop n l) in H.
  by apply StronglySorted_app_1_l in H.
Qed.

Lemma StronglySorted_drop n (l : list A) :
  StronglySorted R l -> StronglySorted R (drop n l).
Proof.
  intros H. rewrite <- (take_drop n l) in H.
  by apply StronglySorted_app_1_r in H.
Qed.

Lemma StronglySorted_reverse (l : list A) :
  StronglySorted R l -> StronglySorted (flip R) (reverse l).
Proof.
  induction 1 as [|x l Hl IH Hx]; [constructor|].
  rewrite reverse_cons. apply StronglySorted_app. split; [|split].
  - intros a b Ha Hb. apply list_elem_of_singleton in Hb as ->.
    rewrite elem_of_reverse in Ha. unfold flip.
    rewrite Forall_forall in Hx. by apply Hx.
  - exact IH.
  - repeat constructor.
Qed.
End Sorted_lists.

#[global] Instance newest_first_total : Total newest_first.
Proof. intros a b. unfold newest_first. lia. Qed.

#[global] Instance newest_first_trans : Transitive newest_first.
Proof. intros a b c. unfold newest_first. lia. Qed.

#[global] Instance latest_first_total : Total latest_first.
Proof. intros a b. unfold latest_first. lia. Qed.

#[global] Instance latest_first_trans : Transitive latest_first.
Proof. intros a b c. unfold latest_first. lia. Qed.

Lemma newest_sorted (l : list Message) :
  StronglySorted newest_first (merge_sort newest_first l).
Proof. apply StronglySorted_merge_sort; apply _. Qed.

Lemma reverse_page_chronological n k j (l : list Message) :
  chronological (reverse (take n (take k (drop j (merge_sort newest_first l))))).
Proof.
  unfold chronological.
  apply (StronglySorted_reverse newest_first).
  do 2 apply StronglySorted_take. apply StronglySorted_drop, newest_sorted.
Qed.

(** ** [getMessages] *)

Lemma getMessages_run req st :
  bad_id (getReqUserId req) = false ->
  bad_id (param_recipientId req) = false ->
  getMessages req st =
    (match List.find (has_all_participants
                        [mkObjectId (js_String (getReqUserId req));
                         mkObjectId (js_String (param_recipientId req))])
                     (conversations st) with
     | None => Json 200 (mkMessagesPage [] None (page_of req) false)
     | Some c =>
         let fetched :=
           take (Z.to_nat (limit_of req + 1))
             (skipped (skip_of (page_of req) (limit_of req))
                (merge_sort newest_first
                   (List.filter (fun m => oid_eqb (conversationId m) (conv_id c))
                                (messages st)))) in
         let hasMore := Z.of_nat (length fetched) >? limit_of req in
         Json 200
           (mkMessagesPage
              (reverse (if hasMore then take (Z.to_nat (limit_of req)) fetched else fetched))
              (Some (conv_id c)) (page_of req) hasMore)
     end, st).
Proof.
  intros Hu Hr. unfold getMessages, handler. rewrite Hu, Hr.
  unfold bind, Conversation_findOne. cbn.
  destruct (List.find _ _); reflexivity.
Qed.

Lemma limit_of_spec req :
  limit_of req =
    match parseInt (query_limit req) with
    | Some (Fin n) => if n =? 0 then 30 else clamp 1 50 n
    | Some (Inf negative) => if negative then 1 else 50
    | None => 30
    end.
Proof.
  unfold limit_of, int_or, clamp.
  destruct (parseInt (query_limit req)) as [[n|[|]]|]; try reflexivity.
  destruct (n =? 0); reflexivity.
Qed.

Lemma page_of_spec req :
  page_of req =
    match parseInt (query_page req) with
    | Some (Fin n) => Fin (Z.max 1 n)
    | Some (Inf negative) => if negative then Fin 1 else Inf false
    | None => Fin 1
    end.
Proof.
  unfold page_of, int_or.
  destruct (parseInt (query_page req)) as [[n|[|]]|]; try reflexivity.
  destruct (Z.eqb_spec n 0) as [->|]; reflexivity.
Qed.

Lemma limit_of_range req : 1 <= limit_of req <= 50.
Proof.
  rewrite limit_of_spec. unfold clamp.
  destruct (parseInt (query_limit req)) as [[n|[|]]|]; try lia.
  destruct (n =? 0); lia.
Qed.

Lemma page_of_range req p : page_of req = Fin p -> 1 <= p.
Proof.
  rewrite page_of_spec.
  destruct (parseInt (query_page req)) as [[n|[|]]|]; intros [= <-]; lia.
Qed.

Lemma page_of_positive req : page_of req <> Inf true.
Proof.
  rewrite page_of_spec. by destruct (parseInt (query_page req)) as [[n|[|]]|].
Qed.

(** Below [2^53] in size a parsed number is exact. *)
Lemma to_double_exact n : Z.abs n < 2 ^ 53 -> to_double n = Fin n.
Proof.
  intros H. unfold to_double.
  destruct (Z.leb_spec (Z.log2 (Z.abs n) - 52) 0) as [|Hlog]; [reflexivity|].
  exfalso. assert (0 < Z.abs n) by (destruct (Z.abs n) eqn:E; [simpl in Hlog|..]; lia).
  apply Z.log2_lt_pow2 in H; lia.
Qed.

(** What [getMessages] returns for a pair with a conversation, with the
    [hasMore] test and the trimming folded together. *)
Lemma getMessages_found req st c :
  bad_id (getReqUserId req) = false ->
  bad_id (param_recipientId req) = false ->
  List.find (has_all_participants
               [mkObjectId (js_String (getReqUserId req));
                mkObjectId (js_String (param_recipientId req))])
            (conversations st) = Some c ->
  let stored := List.filter (fun m => oid_eqb (conversationId m) (conv_id c)) (messages st) in
  let sorted := merge_sort newest_first stored in
  let rest := skipped (skip_of (page_of req) (limit_of req)) sorted in
  let limit := Z.to_nat (limit_of req) in
  getMessages req st =
    (Json 200
       (mkMessagesPage
          (reverse (take limit (take (S limit) rest)))
          (Some (conv_id c)) (page_of req)
          (bool_decide (limit < length rest)%nat)),
     st).
Proof.
  intros Hu Hr Hc stored sorted rest limit.
  rewrite getMessages_run by assumption. rewrite Hc. cbv zeta.
  fold stored. fold sorted. fold rest.
  pose proof (limit_of_range req) as Hl.
  replace (Z.to_nat (limit_of req + 1)) with (S limit) by (unfold limit; lia).
  fold limit.
  set (fetched := take (S limit) rest).
  assert (Hlen : length fetched = (S limit `min` length rest)%nat)
    by (unfold fetched; apply length_take).
  destruct (Z.gtb_spec (Z.of_nat (length fetched)) (limit_of req)) as [Hgt|Hle].
  - rewrite bool_decide_eq_true_2 by (unfold limit in *; lia). reflexivity.
  - rewrite bool_decide_eq_false_2 by (unfold limit in *; lia).
    rewrite (take_ge fetched limit) by (unfold limit in *; lia). reflexivity.
Qed.

(** C3. With 31 stored messages, limit 30 and page 1 the answer has
    [hasMore = true] and exactly 30 messages, oldest first; with 30 stored
    messages [hasMore = false]. The answer is the newest-first list, cut
    to [limit + 1], trimmed to [limit] and reversed; what is left out is
    no newer than what is returned. *)
Theorem getMessages_pagination req st c :
  bad_id (getReqUserId req) = false ->
  bad_id (param_recipientId req) = false ->
  List.find (has_all_participants
               [mkObjectId (js_String (getReqUserId req));
                mkObjectId (js_String (param_recipientId req))])
            (conversations st) = Some c ->
  page_of req = 1 ->
  limit_of req = 30 ->
  let stored := List.filter (fun m => oid_eqb (conversationId m) (conv_id c)) (messages st) in
  exists page,
    getMessages req st = (Json 200 page, st) /\
    mp_messages page
      = reverse (take 30 (take (30 + 1) (drop 0 (merge_sort newest_first stored)))) /\
    chronological (mp_messages page) /\
    (exists older,
        stored ≡ₚ mp_messages page ++ older /\
        forall m r, m ∈ older -> r ∈ mp_messages page -> createdAt m <= createdAt r) /\
    (length stored = 31%nat ->
       mp_hasMore page = true /\ length (mp_messages page) = 30%nat) /\
    (length stored = 30%nat ->
       mp_hasMore page = false /\ length (mp_messages page) = 30%nat).
Proof.
  intros Hu Hr Hc Hp Hl stored.
  pose proof (getMessages_found req st c Hu Hr Hc) as Hrun. cbv zeta in Hrun.
  fold stored in Hrun. rewrite Hp, Hl in Hrun.
  change (skipped (skip_of 1 30) ?l) with (drop 0 l) in Hrun.
  change (Z.to_nat 30) with 30%nat in Hrun.
  set (sorted := merge_sort newest_first stored) in *.
  assert (Hperm : sorted ≡ₚ stored) by apply merge_sort_Permutation.
  assert (Hlen : length sorted = length stored) by (by rewrite Hperm).
  eexists. split; [exact Hrun|]. cbn [mp_messages mp_hasMore].
  change (30 + 1)%nat with 31%nat. rewrite drop_0 in *.
  split; [reflexivity|]. split; [|split; [|split]].
  - rewrite <- (drop_0 sorted). apply reverse_page_chronological.
  - exists (drop 30 sorted). rewrite take_take. change (30 `min` 31)%nat with 30%nat.
    split.
    + rewrite reverse_Permutation, take_drop. by symmetry.
    + intros m r Hm Hrv. rewrite elem_of_reverse in Hrv.
      pose proof (newest_sorted stored) as Hs. fold sorted in Hs.
      rewrite <- (take_drop 30 sorted) in Hs.
      exact (StronglySorted_app_1_elem_of _ _ _ _ _ Hs Hrv Hm).
  - intros H31. split.
    + apply bool_decide_eq_true_2. lia.
    + rewrite length_reverse, !length_take. lia.
  - intros H30. split.
    + apply bool_decide_eq_false_2. lia.
    + rewrite length_reverse, !length_take. lia.
Qed.

Lemma getMessages_pagination_witness :
  (exists page,
      getMessages (get_messages alice bob (Some "1") (Some "30")) (history 31)
        = (Json 200 page, history 31) /\
      mp_hasMore page = true /\ length (mp_messages page) = 30%nat) /\
  (exists page,
      getMessages (get_messages alice bob None None) (history 30)
        = (Json 200 page, history 30) /\
      mp_hasMore page = false /\ length (mp_messages page) = 30%nat).
Proof.
  split.
  - destruct (getMessages_pagination
                (get_messages alice bob (Some "1") (Some "30")) (history 31) (chat_ab ∅)
                eq_refl eq_refl eq_refl eq_refl eq_refl)
      as (page & Hrun & _ & _ & _ & H31 & _).
    exists page. split; [exact Hrun|]. apply H31. vm_compute. reflexivity.
  - destruct (getMessages_pagination
                (get_messages alice bob None None) (history 30) (chat_ab ∅)
                eq_refl eq_refl eq_refl eq_refl eq_refl)
      as (page & Hrun & _ & _ & _ & _ & H30).
    exists page. split; [exact Hrun|]. apply H30. vm_compute. reflexivity.
Defined.

Example trim_hi : trim "  hi " = "hi" /\ trim " a b  " = "a b" /\ trim "   " = "".
Proof. by repeat split. Qed.

Example parseInt_samples :
  parseInt (Some "30") = Some (Fin 30) /\
  parseInt (Some " -12abc") = Some (Fin (-12)) /\
  parseInt (Some "0x1F") = Some (Fin 31) /\ parseInt (Some "abc") = None /\
  parseInt (Some "") = None /\ parseInt None = None /\
  parseInt (Some "0") = Some (Fin 0).
Proof. by repeat split. Qed.

(** A number of more than 53 bits is rounded, and one of [2^1024] or more
    is infinite. *)
Example parseInt_rounds :
  parseInt (Some "9007199254740993") = Some (Fin 9007199254740992) /\
  parseInt (Some "9007199254740995") = Some (Fin 9007199254740996) /\
  parseInt (Some (nines 400)) = Some (Inf false) /\
  parseInt (Some ("-" ++ nines 400)) = Some (Inf true).
Proof. repeat split; vm_compute; reflexivity. Qed.

(** White space of more than one byte is stripped as well. *)
Example trim_unicode :
  trim (nbsp ++ "hi" ++ nbsp) = "hi" /\ trim (nbsp ++ nbsp) = "" /\
  trim ("a" ++ nbsp ++ "b") = "a" ++ nbsp ++ "b" /\
  parseInt (Some (nbsp ++ "7")) = Some (Fin 7).
Proof. repeat split; vm_compute; reflexivity. Qed.

Example getMessages_history_31 :
  (fun r => match fst r with
            | Json _ page => (map createdAt (mp_messages page), mp_hasMore page)
            | Fail _ _ => ([], false)
            end)
    (getMessages (get_messages alice bob (Some "1") (Some "30")) (history 31))
  = (map Z.of_nat (seq 1 30), true).
Proof. vm_compute. reflexivity. Qed.

Example getMessages_history_31_page_2 :
  (fun r => match fst r with
            | Json _ page => (map createdAt (mp_messages page), mp_hasMore page)
            | Fail _ _ => ([], true)
            end)
    (getMessages (get_messages alice bob (Some "2") (Some "30")) (history 31))
  = ([0], false).
Proof. vm_compute. reflexivity. Qed.

(** C9, as stated, fails for [limit=0]: the limit is not clamped to 1 but
    replaced by the default 30, so a conversation of two messages is
    returned whole. *)
Lemma getMessages_limit_zero_is_default :
  parseInt (query_limit limit_zero) = Some (Fin 0) /\
  clamp 1 50 0 = 1 /\
  limit_of limit_zero = 30 /\
  limit_of limit_zero <> clamp 1 50 0 /\
  exists page,
    getMessages limit_zero (history 2) = (Json 200 page, history 2) /\
    length (mp_messages page) = 2%nat /\ mp_hasMore page = false.
Proof.
  split; [reflexivity|]. split; [reflexivity|]. split; [reflexivity|].
  split; [discriminate|].
  eexists. split; [vm_compute; reflexivity|]. split; reflexivity.
Qed.

(** C9, amended. The limit is always within [1, 50]: it is the parsed
    number clamped to that range when the number is not 0, and the default
    30 when [limit] is absent, not a number, or 0. The page is the parsed
    number raised to at least 1, and 1 when [page] is absent, not a number
    or 0. The parsed number is the double that [parseInt] gives: the
    number written when that has at most 53 bits, the nearest double
    beyond, and an infinity from [2^1024] on, which leaves the limit at
    50 or 1 and the page infinite or 1. For a pair without a conversation
    the answer is the 200 answer
    [{ messages: [], conversationId: null, page, hasMore: false }] with
    that page, and the store is untouched; for a pair with one, and a
    page below [2^53], it carries that page and at most [limit]
    messages. *)
Theorem getMessages_limit_page_empty req st :
  bad_id (getReqUserId req) = false ->
  bad_id (param_recipientId req) = false ->
  limit_of req
    = match parseInt (query_limit req) with
      | Some (Fin n) => if n =? 0 then 30 else clamp 1 50 n
      | Some (Inf negative) => if negative then 1 else 50
      | None => 30
      end /\
  1 <= limit_of req <= 50 /\
  page_of req
    = match parseInt (query_page req) with
      | Some (Fin n) => Fin (Z.max 1 n)
      | Some (Inf negative) => if negative then Fin 1 else Inf false
      | None => Fin 1
      end /\
  (forall p, page_of req = Fin p -> 1 <= p) /\
  page_of req <> Inf true /\
  (forall q n, parseInt q = Some (Fin n) ->
     exists m, to_double m = Fin n /\ (Z.abs m < 2 ^ 53 -> n = m)) /\
  match List.find (has_all_participants
                     [mkObjectId (js_String (getReqUserId req));
                      mkObjectId (js_String (param_recipientId req))])
                  (conversations st) with
  | None =>
      getMessages req st = (Json 200 (mkMessagesPage [] None (page_of req) false), st)
  | Some c =>
      forall p, page_of req = Fin p -> p < 2 ^ 53 ->
      exists page,
        getMessages req st = (Json 200 page, st) /\
        mp_conversationId page = Some (conv_id c) /\
        mp_page page = Fin p /\
        Z.of_nat (length (mp_messages page)) <= limit_of req
  end.
Proof.
  intros Hu Hr.
  split; [apply limit_of_spec|]. split; [apply limit_of_range|].
  split; [apply page_of_spec|]. split; [apply page_of_range|].
  split; [apply page_of_positive|]. split.
  { intros [s|] n; [|discriminate]. unfold parseInt.
    destruct (match trim_start s with
              | String "-" r => Z.opp <$> parse_unsigned r
              | String "+" r => parse_unsigned r
              | r => parse_unsigned r
              end) as [m|]; [|discriminate].
    cbn. intros [= H]. exists m. split; [exact H|]. intros Hm.
    rewrite to_double_exact in H by exact Hm. by injection H. }
  destruct (List.find _ _) as [c|] eqn:Hc.
  - intros p Hp _. eexists. split; [exact (getMessages_found req st c Hu Hr Hc)|].
    cbn [mp_conversationId mp_page mp_messages].
    split; [reflexivity|]. split; [exact Hp|].
    pose proof (limit_of_range req).
    rewrite length_reverse, !length_take. lia.
  - rewrite getMessages_run by assumption. rewrite Hc. reflexivity.
Qed.

Lemma getMessages_limit_page_empty_witness :
  limit_of (get_messages alice carol (Some "-3") (Some "75")) = 50 /\
  page_of (get_messages alice carol (Some "-3") (Some "75")) = 1 /\
  getMessages (get_messages alice carol (Some "-3") (Some "75")) (history 2)
    = (Json 200 (mkMessagesPage [] None 1 false), history 2) /\
  getMessages (get_messages alice carol (Some "9007199254740993") None) (history 2)
    = (Json 200 (mkMessagesPage [] None 9007199254740992 false), history 2).
Proof.
  pose proof (getMessages_limit_page_empty
                (get_messages alice carol (Some "-3") (Some "75")) (history 2)
                eq_refl eq_refl) as (Hl & _ & Hp & _ & _ & _ & Hrun).
  split; [exact Hl|]. split; [exact Hp|]. split; [exact Hrun|].
  pose proof (getMessages_limit_page_empty
                (get_messages alice carol (Some "9007199254740993") None) (history 2)
                eq_refl eq_refl) as (_ & _ & _ & _ & _ & _ & Hrun').
  exact Hrun'.
Defined.

(** ** [markAsRead] *)

Lemma markAsRead_run env req st :
  bad_id (getReqUserId req) = false ->
  bad_id (param_conversationId req) = false ->
  let userId := js_String (getReqUserId req) in
  let cid := js_String (param_conversationId req) in
  markAsRead env req st =
    (Json 200 true,
     set_conversations
       (update_first (fun c => oid_eqb (conv_id c) (mkObjectId cid)) (set_unread userId 0))
       (set_messages (update_many (unread_for userId cid) (mark_read (now env))) st)).
Proof.
  intros Hu Hc. unfold markAsRead, handler. rewrite Hu, Hc. reflexivity.
Qed.

Lemma markAsRead_rejected env req st :
  bad_id (getReqUserId req) = true \/ bad_id (param_conversationId req) = true ->
  snd (markAsRead env req st) = st /\ status_of (fst (markAsRead env req st)) <> 200.
Proof.
  unfold markAsRead, handler.
  destruct (bad_id (getReqUserId req)); [intros _; by split|].
  destruct (bad_id (param_conversationId req)); [intros _; by split|].
  intros [?|?]; discriminate.
Qed.

Lemma update_many_idem {A} (p : A -> bool) (f g : A -> A) (l : list A) :
  (forall x, p x = true -> p (f x) = false) ->
  update_many p g (update_many p f l) = update_many p f l.
Proof.
  intros Hp. unfold update_many. rewrite map_map. apply map_ext. intros x.
  destruct (p x) eqn:Hx; [by rewrite Hp|by rewrite Hx].
Qed.

Lemma update_first_idem {A} (p : A -> bool) (f : A -> A) (l : list A) :
  (forall x, p x = true -> p (f x) = true) ->
  (forall x, f (f x) = f x) ->
  update_first p f (update_first p f l) = update_first p f l.
Proof.
  intros Hp Hf. induction l as [|x l IH]; [reflexivity|]. simpl.
  destruct (p x) eqn:Hx; simpl.
  - by rewrite Hp, Hf.
  - by rewrite Hx, IH.
Qed.

Lemma set_unread_idem key n c : set_unread key n (set_unread key n c) = set_unread key n c.
Proof. unfold set_unread. simpl. by rewrite insert_insert_eq. Qed.

Lemma find_update_first {A} (p : A -> bool) (f : A -> A) (l : list A) :
  (forall x, p x = true -> p (f x) = true) ->
  List.find p (update_first p f l) = f <$> List.find p l.
Proof.
  intros Hp. induction l as [|x l IH]; [reflexivity|]. simpl.
  destruct (p x) eqn:Hx; simpl.
  - by rewrite Hp.
  - by rewrite Hx.
Qed.

Lemma update_first_none {A} (p : A -> bool) (f : A -> A) (l : list A) :
  List.find p l = None -> update_first p f l = l.
Proof.
  induction l as [|x l IH]; [reflexivity|]. simpl.
  destruct (p x); [discriminate|]. intros H. by rewrite IH.
Qed.

(** C2. [markAsRead] is idempotent: a second call, at any later time,
    leaves the answer and the whole store, so every message's
    [isRead] and [readAt] and every [unreadCount], as the first call left
    them. One call marks exactly the unread messages of the conversation
    addressed to the caller as read at the time of the call, leaves every
    other message as it was, and sets the caller's entry of [unreadCount]
    to 0 on the conversation. *)
Theorem markAsRead_idempotent env env' req st :
  let once := markAsRead env req st in
  let twice := markAsRead env' req (snd once) in
  snd twice = snd once /\
  fst twice = fst once /\
  (bad_id (getReqUserId req) = false ->
   bad_id (param_conversationId req) = false ->
   let userId := js_String (getReqUserId req) in
   let cid := js_String (param_conversationId req) in
   messages (snd once)
     = map (fun m => if unread_for userId cid m then mark_read (now env) m else m)
           (messages st) /\
   (forall i m, messages st !! i = Some m ->
      exists m', messages (snd once) !! i = Some m' /\
        if unread_for userId cid m
        then isRead m' = true /\ readAt m' = Some (now env)
        else m' = m) /\
   (forall c, List.find (fun c => oid_eqb (conv_id c) (mkObjectId cid)) (conversations st)
                = Some c ->
      exists c', List.find (fun c => oid_eqb (conv_id c) (mkObjectId cid))
                           (conversations (snd once)) = Some c' /\
                 unreadCount c' !! userId = Some 0)).
Proof.
  intros once twice. subst once twice.
  destruct (bad_id (getReqUserId req)) eqn:Hu;
    [|destruct (bad_id (param_conversationId req)) eqn:Hc].
  - pose proof (markAsRead_rejected env req st (or_introl Hu)) as [Hs _].
    unfold markAsRead, handler in *. rewrite Hu in *. simpl. by repeat split.
  - unfold markAsRead, handler. rewrite Hu, Hc. simpl. by repeat split.
  - rewrite (markAsRead_run env req st Hu Hc). cbv zeta. cbn [fst snd].
    rewrite (markAsRead_run env' req _ Hu Hc). cbv zeta. cbn [fst snd].
    split; [|split; [reflexivity|]].
    + unfold set_conversations, set_messages. cbn.
      f_equal.
      * apply update_first_idem; [by intros x Hx|]. apply set_unread_idem.
      * apply update_many_idem. intros m Hm. unfold unread_for. simpl.
        by rewrite andb_false_r.
    + intros _ _. cbn. split; [reflexivity|]. split.
      { intros i m Hi. unfold update_many. rewrite list_lookup_fmap, Hi. simpl.
        eexists. split; [reflexivity|].
        destruct (unread_for _ _ m); [by split|reflexivity]. }
      intros c Hfind. rewrite find_update_first by (by intros x Hx).
      rewrite Hfind. eexists. split; [reflexivity|]. simpl.
      apply lookup_insert_eq.
Qed.

Lemma markAsRead_idempotent_witness :
  let once := markAsRead (at_time 10) (mark_read_req bob chat_id) three_unread in
  snd (markAsRead (at_time 20) (mark_read_req bob chat_id) (snd once)) = snd once /\
  map (fun m => (isRead m, readAt m)) (messages (snd once))
    = [(true, Some 10); (true, Some 10); (true, Some 10)] /\
  exists c', List.find (fun c => oid_eqb (conv_id c) chat_id) (conversations (snd once))
               = Some c' /\
             unreadCount c' !! bob = Some 0.
Proof.
  intros once.
  pose proof (markAsRead_idempotent (at_time 10) (at_time 20)
                (mark_read_req bob chat_id) three_unread) as (Hst & _ & Hone).
  destruct (Hone eq_refl eq_refl) as (Hmsgs & _ & Hconv).
  split; [exact Hst|]. split.
  - subst once. rewrite Hmsgs. vm_compute. reflexivity.
  - exact (Hconv (chat_ab {[ bob := 3 ]}) eq_refl).
Defined.

(** C10. [markAsRead] checks neither that the conversation exists nor that
    the caller takes part in it: it never answers 404, and for a
    well-formed conversation id it answers success and sets
    [unreadCount[userId]] to 0 on the conversation with that id, whoever
    its participants are; when no conversation has that id, the
    conversations are left as they were. *)
Theorem markAsRead_no_membership_check env req st :
  status_of (fst (markAsRead env req st)) <> 404 /\
  (bad_id (getReqUserId req) = false ->
   bad_id (param_conversationId req) = false ->
   let userId := js_String (getReqUserId req) in
   let has_id := fun c => oid_eqb (conv_id c) (mkObjectId (js_String (param_conversationId req))) in
   fst (markAsRead env req st) = Json 200 true /\
   match List.find has_id (conversations st) with
   | Some c =>
       List.find has_id (conversations (snd (markAsRead env req st)))
         = Some (set_unread userId 0 c) /\
       unreadCount (set_unread userId 0 c) !! userId = Some 0
   | None => conversations (snd (markAsRead env req st)) = conversations st
   end).
Proof.
  split.
  - unfold markAsRead, handler.
    destruct (bad_id (getReqUserId req)); [simpl; lia|].
    destruct (bad_id (param_conversationId req)); simpl; lia.
  - intros Hu Hc userId has_id.
    rewrite (markAsRead_run env req st Hu Hc). cbn.
    split; [reflexivity|].
    destruct (List.find has_id (conversations st)) as [c|] eqn:Hfind.
    + split; [|apply lookup_insert_eq].
      fold has_id. rewrite find_update_first by (by intros x Hx).
      fold userId. by rewrite Hfind.
    + by apply update_first_none.
Qed.

(** carol is not in the conversation of alice and bob; her call succeeds
    and writes her counter into it. An id that matches nothing changes
    nothing. *)
Lemma markAsRead_no_membership_check_witness :
  has_participant carol (chat_ab {[ bob := 3 ]}) = false /\
  fst (markAsRead (at_time 10) (mark_read_req carol chat_id) three_unread) = Json 200 true /\
  List.find (fun c => oid_eqb (conv_id c) chat_id)
            (conversations (snd (markAsRead (at_time 10) (mark_read_req carol chat_id)
                                            three_unread)))
    = Some (set_unread carol 0 (chat_ab {[ bob := 3 ]})) /\
  fst (markAsRead (at_time 10) (mark_read_req carol carol) three_unread) = Json 200 true /\
  conversations (snd (markAsRead (at_time 10) (mark_read_req carol carol) three_unread))
    = conversations three_unread.
Proof.
  split; [reflexivity|].
  destruct (markAsRead_no_membership_check (at_time 10) (mark_read_req carol chat_id)
              three_unread) as [_ H1].
  destruct (H1 eq_refl eq_refl) as [Hres [Hfind _]].
  destruct (markAsRead_no_membership_check (at_time 10) (mark_read_req carol carol)
              three_unread) as [_ H2].
  destruct (H2 eq_refl eq_refl) as [Hres2 Hsame].
  split; [exact Hres|]. split; [exact Hfind|]. split; [exact Hres2|exact Hsame].
Defined.

(** ** [deleteConversations] *)

Lemma find_existsb {A} (p : A -> bool) (l : list A) :
  existsb p l = match List.find p l with Some _ => true | None => false end.
Proof. induction l as [|x l IH]; [reflexivity|]. simpl. by destruct (p x). Qed.

Lemma find_conv_id (id u : ObjectId) (convs : list Conversation) c :
  List.find (fun c => oid_eqb (conv_id c) id && has_participant u c) convs = Some c ->
  conv_id c = id.
Proof.
  intros H. apply find_some in H as [_ H].
  apply andb_true_iff in H as [H _]. by apply String.eqb_eq in H.
Qed.

Lemma collect_valid_run u ids acc st :
  collect_valid u ids acc st
  = (Returned (acc ++ surviving u (conversations st) ids)%list, st).
Proof.
  revert acc. induction ids as [|id ids IH]; intros acc.
  - simpl. unfold ret, surviving. simpl. by rewrite app_nil_r.
  - simpl. unfold surviving, owned in *. simpl.
    destruct (isValid id) eqn:Hv; simpl.
    + unfold bind, Conversation_findOne. rewrite find_existsb.
      destruct (List.find _ (conversations st)) as [c|] eqn:Hf.
      * rewrite IH. simpl. rewrite <- app_assoc. simpl.
        by rewrite (find_conv_id _ _ _ _ Hf).
      * apply IH.
    + apply IH.
Qed.

Lemma deleteConversations_run req st ids :
  bad_id (getReqUserId req) = false ->
  body_conversationIds req = Some ids ->
  ids <> [] ->
  let valid := surviving (mkObjectId (js_String (getReqUserId req))) (conversations st) ids in
  deleteConversations req st =
    if (length valid =? 0)%nat then (Fail 404 "No valid conversations found", st)
    else (Json 200 (mkDeleted true (Z.of_nat (length valid))),
          set_conversations (delete_many (fun c => oid_in valid (conv_id c)))
            (set_messages (delete_many (fun m => oid_in valid (conversationId m))) st)).
Proof.
  intros Hu Hb Hne valid. unfold deleteConversations, handler. rewrite Hu, Hb.
  destruct ids as [|id ids]; [done|].
  unfold bind at 1. rewrite collect_valid_run.
  change ([] ++ ?l)%list with l. fold valid.
  destruct (length valid =? 0)%nat; reflexivity.
Qed.









(** ** Reasoning about handlers *)

Lemma answers_ret {A} (P : A -> Prop) a : P a -> answers P (ret a).
Proof. intros H st. exact H. Qed.

Lemma answers_throw {A} (P : A -> Prop) e : answers P (throw e).
Proof. intros st. exact I. Qed.

Lemma answers_bind {A B} (P : B -> Prop) (m : M A) (k : A -> M B) :
  (forall a, answers P (k a)) -> answers P (bind m k).
Proof.
  intros H st. unfold bind. destruct (m st) as [[a|e] st']; [apply H|exact I].
Qed.

Lemma returns_ret {A} (a : A) : returns (ret a).
Proof. intros st. by exists a, st. Qed.

Lemma returns_bind {A B} (m : M A) (k : A -> M B) :
  returns m -> (forall a, returns (k a)) -> returns (bind m k).
Proof.
  intros Hm Hk st. unfold bind. destruct (Hm st) as (a & st' & ->). apply Hk.
Qed.

Lemma returns_modify f : returns (modify f).
Proof. intros st. by eexists _, _. Qed.

Lemma handler_answers {A} (P : Response A -> Prop) (m : M (Response A)) st :
  answers P m -> P (Fail 500 "Server error") -> P (fst (handler m st)).
Proof.
  intros Hm H500. unfold handler. specialize (Hm st).
  destruct (m st) as [[r|e] st']; assumption.
Qed.

Lemma handler_returns {A} (P : Response A -> Prop) (m : M (Response A)) st :
  answers P m -> returns m -> P (fst (handler m st)).
Proof.
  intros Hm Hr. unfold handler. specialize (Hm st).
  destruct (Hr st) as (r & st' & Heq). rewrite Heq in *. exact Hm.
Qed.

Lemma returns_findOne p : returns (Conversation_findOne p).
Proof. intros st. by eexists _, _. Qed.

Lemma returns_User_findById id : returns (User_findById id).
Proof. intros st. by eexists _, _. Qed.

Lemma returns_Conversation_create env ps lm uc : returns (Conversation_create env ps lm uc).
Proof. intros st. by eexists _, _. Qed.

Lemma returns_findByIdAndUpdate id f : returns (Conversation_findByIdAndUpdate id f).
Proof. intros st. by eexists _, _. Qed.

(** ** [sendMessage]: the content check *)

Lemma string_length_0 (s : string) : (String.length s =? 0)%nat = true <-> s = "".
Proof. destruct s; simpl; split; intros H; try done. Qed.

Lemma trim_empty : trim "" = "".
Proof. reflexivity. Qed.

Lemma text_missing_iff text : text_missing text = true <-> text_absent_or_blank text.
Proof.
  unfold text_missing, text_absent_or_blank.
  destruct text as [| |b|n|s|]; simpl; try (split; [done|intros _]); try done.
  - by rewrite orb_true_r.
  - by rewrite orb_true_r.
  - destruct (String.eqb_spec s "") as [->|Hs]; simpl.
    + split; [intros _; apply trim_empty|done].
    + apply string_length_0.
Qed.

Lemma js_is_eq v s : js_is v s = true <-> v = JStr s.
Proof.
  destruct v; simpl; try (split; [discriminate|discriminate]).
  rewrite String.eqb_eq. split; [by intros ->|by intros [= ->]].
Qed.

Lemma check_content_iff req : is_Some (check_content req) <-> invalid_input req.
Proof.
  unfold check_content, invalid_input.
  destruct (js_is (messageType_of req) "text") eqn:Ht.
  - apply js_is_eq in Ht. rewrite Ht.
    destruct (text_missing (body_text req)) eqn:Hm.
    + apply text_missing_iff in Hm. split; [intros _; by left|by eexists].
    + split; [by intros [? [=]]|].
      intros [[_ H]|[[=] _]]. apply text_missing_iff in H. congruence.
  - destruct (js_is (messageType_of req) "voice") eqn:Hv.
    + apply js_is_eq in Hv. rewrite Hv. unfold voiceUrl_missing.
      destruct (truthy (body_voiceUrl req)); simpl.
      * split; [by intros [? [=]]|]. intros [[[=] _]|[_ [=]]].
      * split; [intros _; by right|by eexists].
    + split; [by intros [? [=]]|].
      intros [[H _]|[H _]]; apply js_is_eq in H; congruence.
Qed.

Ltac answers_step :=
  lazymatch goal with
  | |- answers _ (ret _) => apply answers_ret
  | |- answers _ (throw _) => apply answers_throw
  | |- answers _ (bind _ _) => apply answers_bind; intros ?
  | |- answers _ (match ?x with _ => _ end) => destruct x
  end.

(** After the checks, [sendMessage] answers 201 or, when something throws,
    500; a failed content check answers 400 and writes nothing. *)
Lemma sendMessage_answers env req :
  bad_id (getReqUserId req) = false ->
  bad_id (param_recipientId req) = false ->
  forall st,
    match check_content req with
    | Some message =>
        ChatController.sendMessage env req st = (Fail 400 message, st) /\
        ChatControllerPush.sendMessage env req st = (Fail 400 message, st)
    | None =>
        (status_of (fst (ChatController.sendMessage env req st)) = 201
         \/ status_of (fst (ChatController.sendMessage env req st)) = 500) /\
        (status_of (fst (ChatControllerPush.sendMessage env req st)) = 201
         \/ status_of (fst (ChatControllerPush.sendMessage env req st)) = 500)
    end.
Proof.
  intros Hu Hr st.
  unfold ChatController.sendMessage, ChatControllerPush.sendMessage.
  rewrite Hu, Hr. destruct (check_content req) as [message|].
  - split; reflexivity.
  - split; (apply handler_answers; [|by right]); cbv zeta;
      repeat answers_step; by left.
Qed.

Lemma returns_messageText_of text :
  (truthy text = true -> is_string text = true) -> returns (messageText_of text).
Proof.
  intros H. unfold messageText_of. destruct (truthy text); [|apply returns_ret].
  destruct text; try (by specialize (H eq_refl)). apply returns_ret.
Qed.

Lemma returns_new_ObjectId id : isValid id = true -> returns (new_ObjectId id).
Proof. intros H. unfold new_ObjectId. rewrite H. apply returns_ret. Qed.

Lemma returns_bind_answers {A B} (P : A -> Prop) (m : M A) (k : A -> M B) :
  returns m -> answers P m -> (forall a, P a -> returns (k a)) -> returns (bind m k).
Proof.
  intros Hm HP Hk st. destruct (Hm st) as (a & st' & E).
  specialize (HP st). rewrite E in HP. unfold bind. rewrite E. by apply Hk.
Qed.

Lemma returns_replyToData_of replyTo :
  replyTo_ok replyTo = true -> returns (replyToData_of replyTo).
Proof.
  unfold replyTo_ok, replyToData_of. destruct replyTo as [r|]; [|intros _; apply returns_ret].
  destruct (present (rti_id r) && truthy (rti_text r)); [|intros _; apply returns_ret].
  intros [[H1 H2]%andb_true_iff _]%andb_true_iff.
  apply returns_bind; [by apply returns_new_ObjectId|]. intros _id.
  apply returns_bind; [|intros; apply returns_ret].
  destruct (present (rti_senderId r)); [|apply returns_ret].
  apply returns_bind; [by apply returns_new_ObjectId|]. intros; apply returns_ret.
Qed.

(** The text of a [replyTo] that is stored casts. *)
Lemma replyToData_of_casts replyTo :
  replyTo_ok replyTo = true ->
  answers (fun rd => is_Some (cast_replyTo rd)) (replyToData_of replyTo).
Proof.
  unfold replyTo_ok, replyToData_of. intros H st.
  destruct replyTo as [r|]; [|by eexists].
  destruct (present (rti_id r) && truthy (rti_text r)); [|by eexists].
  apply andb_true_iff in H as [_ H]. unfold bind, new_ObjectId.
  destruct (isValid (js_String (rti_id r))); [|done]. cbn.
  destruct (present (rti_senderId r)); cbn.
  - destruct (isValid (js_String (rti_senderId r))); [|done]. cbn.
    unfold cast_replyTo. cbn. destruct (cast_String (rti_text r)); [by eexists|done].
  - unfold cast_replyTo. cbn. destruct (cast_String (rti_text r)); [by eexists|done].
Qed.

Lemma returns_Message_create env d :
  is_Some (cast_messageType (md_messageType d)) ->
  is_Some (cast_String (md_voiceUrl d)) ->
  is_Some (cast_replyTo (md_replyTo d)) ->
  returns (Message_create env d).
Proof.
  intros [t Ht] [url Hc] [reply Hr]. unfold Message_create. rewrite Ht, Hc, Hr.
  apply returns_bind; [apply returns_modify|]. intros; apply returns_ret.
Qed.

Lemma returns_detached {A} (task : M A) : returns (ChatControllerPush.detached task).
Proof. intros st. by eexists _, _. Qed.

Lemma returns_emitToUser u e p s : returns (ChatControllerPush.emitToUser u e p s).
Proof.
  intros st. unfold ChatControllerPush.emitToUser. destruct (io st); by eexists _, _.
Qed.

(** When nothing can throw, [sendMessage] answers 201. *)
Lemma sendMessage_created env req st :
  bad_id (getReqUserId req) = false ->
  bad_id (param_recipientId req) = false ->
  check_content req = None ->
  (truthy (body_text req) = true -> is_string (body_text req) = true) ->
  replyTo_ok (body_replyTo req) = true ->
  is_Some (cast_messageType (messageType_of req)) ->
  (messageType_of req = JStr "voice" -> is_Some (cast_String (body_voiceUrl req))) ->
  status_of (fst (ChatController.sendMessage env req st)) = 201 /\
  status_of (fst (ChatControllerPush.sendMessage env req st)) = 201.
Proof.
  intros Hu Hr Hc Htext Hreply Ht Hv.
  assert (Hcreate : forall c u r text rd,
             is_Some (cast_replyTo rd) ->
             returns (Message_create env (messageData_of req c u r text rd))).
  { intros c u r text rd Hrd. apply returns_Message_create; [exact Ht| |exact Hrd].
    simpl. destruct (js_is (messageType_of req) "voice") eqn:E; [|by eexists].
    apply Hv. by apply js_is_eq. }
  unfold ChatController.sendMessage, ChatControllerPush.sendMessage.
  rewrite Hu, Hr, Hc.
  split; (apply handler_returns; [cbv zeta; repeat answers_step; reflexivity|]); cbv zeta.
  - apply returns_bind; [by apply returns_messageText_of|]. intros ?.
    apply (returns_bind_answers (fun rd => is_Some (cast_replyTo rd)));
      [by apply returns_replyToData_of|by apply replyToData_of_casts|]. intros rd Hrd.
    apply returns_bind; [apply returns_findOne|]. intros found.
    apply returns_bind;
      [destruct found; [apply returns_ret|apply returns_Conversation_create]|].
    intros ?. apply returns_bind; [by apply Hcreate|]. intros ?.
    apply returns_bind; [apply returns_findByIdAndUpdate|]. intros ?.
    apply returns_ret.
  - apply returns_bind; [by apply returns_messageText_of|]. intros ?.
    apply (returns_bind_answers (fun rd => is_Some (cast_replyTo rd)));
      [by apply returns_replyToData_of|by apply replyToData_of_casts|]. intros rd Hrd.
    apply returns_bind; [apply returns_findOne|]. intros found.
    apply returns_bind;
      [destruct found; [apply returns_ret|apply returns_Conversation_create]|].
    intros ?. apply returns_bind; [by apply Hcreate|]. intros ?.
    apply returns_bind; [apply returns_findByIdAndUpdate|]. intros ?.
    apply returns_bind; [apply returns_User_findById|]. intros ?.
    apply returns_bind; [apply returns_detached|]. intros ?.
    apply returns_bind; [apply returns_emitToUser|]. intros ?.
    apply returns_ret.
Qed.

(** C4, as stated, fails in its last part: a message of type ['image']
    is not accepted whatever its content. With a [text] that is a number
    the handler throws while trimming it and answers 500, in both
    revisions of the controller. *)
Lemma sendMessage_image_number_text_is_500 :
  let req := post_message alice bob (JNum 123) (JStr "image") JUndefined in
  bad_id (getReqUserId req) = false /\
  bad_id (param_recipientId req) = false /\
  messageType_of req = JStr "image" /\
  ChatController.sendMessage (at_time 10) req (history 0)
    = (Fail 500 "Server error", history 0) /\
  ChatControllerPush.sendMessage (at_time 10) req (history 0)
    = (Fail 500 "Server error", history 0) /\
  status_of (fst (ChatControllerPush.sendMessage (at_time 10) req (history 0))) <> 201.
Proof. repeat split. discriminate. Qed.

(** C4, amended. For a request with valid sender and recipient ids,
    [sendMessage] answers 400 exactly when the message type is ['text']
    (or absent) and the text is missing, not a string or empty once
    trimmed, or the type is ['voice'] and [voiceUrl] is missing; a 400
    writes nothing. White space is what [String.prototype.trim] strips,
    the no-break space and the other Unicode spaces included. The type
    ['image'] has no check of its own: it is never answered with 400, and
    it is answered with 201 whenever its [text] is absent, falsy or a
    string and its [replyTo], if it has an id and a text, has well-formed
    ids and a text that casts to a string. Both revisions of the
    controller agree. *)
Theorem sendMessage_content_check env req st :
  bad_id (getReqUserId req) = false ->
  bad_id (param_recipientId req) = false ->
  (status_of (fst (ChatController.sendMessage env req st)) = 400 <-> invalid_input req) /\
  (status_of (fst (ChatControllerPush.sendMessage env req st)) = 400 <-> invalid_input req) /\
  (invalid_input req ->
     snd (ChatController.sendMessage env req st) = st /\
     snd (ChatControllerPush.sendMessage env req st) = st) /\
  (messageType_of req = JStr "image" ->
     status_of (fst (ChatController.sendMessage env req st)) <> 400 /\
     status_of (fst (ChatControllerPush.sendMessage env req st)) <> 400 /\
     ((truthy (body_text req) = true -> is_string (body_text req) = true) ->
      replyTo_ok (body_replyTo req) = true ->
      status_of (fst (ChatController.sendMessage env req st)) = 201 /\
      status_of (fst (ChatControllerPush.sendMessage env req st)) = 201)).
Proof.
  intros Hu Hr.
  pose proof (sendMessage_answers env req Hu Hr st) as Hans.
  pose proof (check_content_iff req) as Hiff.
  destruct (check_content req) as [message|] eqn:Hc.
  - destruct Hans as [-> ->]. cbn [fst snd status_of].
    assert (Hinv : invalid_input req) by (apply Hiff; by eexists).
    split; [by split|]. split; [by split|]. split; [by split|].
    intros Himg. destruct Hinv as [[H _]|[H _]]; congruence.
  - assert (Hinv : ~ invalid_input req) by (intros H; apply Hiff in H as [? [=]]).
    destruct Hans as [H1 H2].
    split; [split; [lia|done]|]. split; [split; [lia|done]|]. split; [done|].
    intros Himg. split; [lia|]. split; [lia|].
    intros Htext Hreply.
    apply (sendMessage_created env req st); try assumption.
    + rewrite Himg. by eexists.
    + rewrite Himg. intros [=].
Qed.

Lemma sendMessage_content_check_witness :
  (* a blank text is refused *)
  status_of (fst (ChatControllerPush.sendMessage (at_time 10)
                    (post_message alice bob (JStr "   ") JUndefined JUndefined)
                    (history 0))) = 400 /\
  (* and so is a text of no-break spaces *)
  status_of (fst (ChatController.sendMessage (at_time 10)
                    (post_message alice bob (JStr (nbsp ++ nbsp)) JUndefined JUndefined)
                    (history 0))) = 400 /\
  (* a voice message without URL is refused *)
  status_of (fst (ChatController.sendMessage (at_time 10)
                    (post_message alice bob JUndefined (JStr "voice") (JStr ""))
                    (history 0))) = 400 /\
  (* an image with no content at all is stored *)
  status_of (fst (ChatControllerPush.sendMessage (at_time 10)
                    (post_message alice bob JUndefined (JStr "image") JUndefined)
                    (history 0))) = 201.
Proof.
  split; [|split; [|split]].
  - apply (sendMessage_content_check (at_time 10)
             (post_message alice bob (JStr "   ") JUndefined JUndefined) (history 0)
             eq_refl eq_refl).
    left. split; reflexivity.
  - apply (sendMessage_content_check (at_time 10)
             (post_message alice bob (JStr (nbsp ++ nbsp)) JUndefined JUndefined) (history 0)
             eq_refl eq_refl).
    left. split; reflexivity.
  - apply (sendMessage_content_check (at_time 10)
             (post_message alice bob JUndefined (JStr "voice") (JStr "")) (history 0)
             eq_refl eq_refl).
    right. split; reflexivity.
  - apply (sendMessage_content_check (at_time 10)
             (post_message alice bob JUndefined (JStr "image") JUndefined) (history 0)
             eq_refl eq_refl); [reflexivity|discriminate|reflexivity].
Defined.

(** The text of [replyTo] has to cast to a string: a number does, and is
    stored as its text; an object does not, and the answer is 500. *)
Example sendMessage_image_reply_text :
  replyTo_ok (body_replyTo (post_image_reply alice bob JObj)) = false /\
  fst (ChatController.sendMessage (at_time 10) (post_image_reply alice bob JObj) (history 0))
    = Fail 500 "Server error" /\
  fst (ChatControllerPush.sendMessage (at_time 10) (post_image_reply alice bob JObj)
         (history 0))
    = Fail 500 "Server error" /\
  replyTo_ok (body_replyTo (post_image_reply alice bob (JNum 7))) = true /\
  match fst (ChatController.sendMessage (at_time 10) (post_image_reply alice bob (JNum 7))
               (history 0)) with
  | Json status sent =>
      status = 201 /\ rt_text <$> p_replyTo (sent_message sent) = Some (Some "7")
  | Fail _ _ => False
  end.
Proof. repeat split; vm_compute; reflexivity. Qed.

(** A [messageType] of [null] passes the content check and the schema:
    the message is stored without a type and the answer is 201. *)
Example sendMessage_null_type_is_201 :
  let run := ChatController.sendMessage (at_time 10)
               (post_message alice bob JUndefined JNull JUndefined) (history 0) in
  status_of (fst run) = 201 /\
  messageType <$> last (messages (snd run)) = Some None.
Proof. split; vm_compute; reflexivity. Qed.

(** ** [sendMessage]: the first message of a pair *)

Lemma trim_start_unfold s :
  trim_start s = match skip_space s with Some r => trim_start r | None => s end.
Proof.
  destruct s as [|c [|d [|e r]]]; cbn [trim_start skip_space]; [reflexivity|..].
  - by destruct (space1 c).
  - destruct (space1 c); [reflexivity|]. by destruct (space2 c d).
  - destruct (space1 c); [reflexivity|]. destruct (space2 c d); [reflexivity|].
    by destruct (space3 c d e).
Qed.

Lemma skip_space_shorter s r :
  skip_space s = Some r -> (String.length r < String.length s)%nat.
Proof.
  destruct s as [|c [|d [|e r']]]; cbn [skip_space]; [discriminate|..].
  - destruct (space1 c); intros [= <-]. simpl. lia.
  - destruct (space1 c); [intros [= <-]; simpl; lia|].
    destruct (space2 c d); intros [= <-]. simpl. lia.
  - destruct (space1 c); [intros [= <-]; simpl; lia|].
    destruct (space2 c d); [intros [= <-]; simpl; lia|].
    destruct (space3 c d e); intros [= <-]. simpl. lia.
Qed.

Lemma string_length_ind (P : string -> Prop) :
  (forall s, (forall r, (String.length r < String.length s)%nat -> P r) -> P s) ->
  forall s, P s.
Proof.
  intros H s. remember (String.length s) as n eqn:E. revert s E.
  induction (lt_wf n) as [n _ IH]. intros s ->. apply H. intros r Hr.
  by apply (IH _ Hr).
Qed.

(** What [trim_start] leaves does not start with white space. *)
Lemma skip_space_trim_start s : skip_space (trim_start s) = None.
Proof.
  induction s as [s IH] using string_length_ind. rewrite trim_start_unfold.
  destruct (skip_space s) as [r|] eqn:E; [|exact E].
  by apply IH, skip_space_shorter.
Qed.

Lemma trim_start_fixed s : skip_space s = None -> trim_start s = s.
Proof. intros H. by rewrite trim_start_unfold, H. Qed.

Lemma skip_space_app_none p w : skip_space (p ++ w) = None -> skip_space p = None.
Proof.
  destruct p as [|c [|d [|e r]]]; [done|..]; simpl.
  - destruct (space1 c); [done|]. by destruct w.
  - destruct (space1 c); [done|]. destruct (space2 c d); [done|]. by destruct w.
  - destruct (space1 c); [done|]. destruct (space2 c d); [done|].
    by destruct (space3 c d e).
Qed.

Lemma skip_space_app_some a r w :
  skip_space a = Some r -> skip_space (a ++ w) = Some (r ++ w).
Proof.
  destruct a as [|c [|d [|e r']]]; [done|..]; simpl.
  - destruct (space1 c); by intros [= <-].
  - destruct (space1 c); [by intros [= <-]|]. destruct (space2 c d); by intros [= <-].
  - destruct (space1 c); [by intros [= <-]|]. destruct (space2 c d); [by intros [= <-]|].
    destruct (space3 c d e); by intros [= <-].
Qed.

Lemma blank_iff s : blank s = true <-> trim_start s = "".
Proof. unfold blank. by destruct (trim_start s). Qed.

(** White space before [w] is stripped with the white space of [w]. *)
Lemma trim_start_app_blank a w : blank a = true -> trim_start (a ++ w) = trim_start w.
Proof.
  induction a as [a IH] using string_length_ind. intros Ha.
  apply blank_iff in Ha. rewrite trim_start_unfold in Ha.
  destruct (skip_space a) as [r|] eqn:E.
  - rewrite (trim_start_unfold (a ++ w)), (skip_space_app_some _ _ w E).
    apply IH; [by apply skip_space_shorter|by apply blank_iff].
  - by subst a.
Qed.

(** [trim_end] cuts off white space, and nothing else. *)
Lemma trim_end_rest s : exists w, s = trim_end s ++ w /\ blank w = true.
Proof.
  induction s as [|c s (w & Hs & Hw)]; [by exists ""|]. cbn [trim_end].
  destruct (blank (String c s)) eqn:E; [by exists (String c s)|].
  exists w. split; [|exact Hw].
  change (String c s = String c (trim_end s ++ w)). by rewrite <- Hs.
Qed.

Lemma trim_end_idem s : trim_end (trim_end s) = trim_end s.
Proof.
  induction s as [|c s IH]; [reflexivity|]. cbn [trim_end].
  destruct (blank (String c s)) eqn:E; [reflexivity|]. cbn [trim_end].
  destruct (blank (String c (trim_end s))) eqn:E'; [|by rewrite IH].
  destruct (trim_end_rest s) as (w & Hs & Hw).
  rewrite Hs in E. change (String c (trim_end s ++ w)) with (String c (trim_end s) ++ w) in E.
  apply blank_iff in Hw. unfold blank in E.
  by rewrite (trim_start_app_blank _ w E'), Hw in E.
Qed.

Lemma trim_idem s : trim (trim s) = trim s.
Proof.
  unfold trim. pose proof (skip_space_trim_start s) as H.
  destruct (trim_end_rest (trim_start s)) as (w & Hs & _).
  rewrite Hs in H. apply skip_space_app_none in H.
  rewrite (trim_start_fixed _ H). apply trim_end_idem.
Qed.

Lemma update_first_last {A} (p : A -> bool) (f : A -> A) (l : list A) (x : A) :
  List.find p l = None -> p x = true ->
  update_first p f (l ++ [x])%list = (l ++ [f x])%list.
Proof.
  induction l as [|y l IH]; simpl; intros Hl Hx; [by rewrite Hx|].
  destruct (p y); [discriminate|]. by rewrite IH.
Qed.

Lemma string_eqb_refl (s : string) : String.eqb s s = true.
Proof. by apply String.eqb_eq. Qed.

(** The push service writes to the device tokens only. *)
Lemma sendPushToUser_same_chats env userId notification st :
  same_chats (snd (PushService.sendPushToUser env userId notification st)) st.
Proof.
  unfold PushService.sendPushToUser.
  destruct (firebaseInitialized st); [|by repeat split]. cbn [negb].
  unfold try_catch, PushService.sendPushToUser_try, bind,
    PushService.DeviceToken_find_active.
  destruct (isValid userId); [|by repeat split].
  destruct (length _ =? 0)%nat; [by repeat split|].
  unfold PushService.call_provider.
  destruct (sendEachForMulticast env _) as [r|e]; [|by repeat split].
  unfold ret. destruct (failureCount r >? 0); [|by repeat split].
  destruct (0 <? length _)%nat; by repeat split.
Qed.

(** What the revision with push delivery does after the conversation is
    updated: it returns its answer and leaves the chats as they are. *)
Lemma delivery_same_chats {A} (u : ObjectId) (push : option User -> M PushService.PushResult)
    rid ev payload uid (r : A) st :
  (forall sender st, same_chats (snd (push sender st)) st) ->
  exists st',
    (sender <- User_findById u ;;
     ChatControllerPush.detached (push sender) ;;;
     ChatControllerPush.emitToUser rid ev payload uid ;;;
     ret r)%M st = (Returned r, st') /\
    same_chats st' st.
Proof.
  intros Hpush. unfold bind, User_findById, ChatControllerPush.detached,
    ChatControllerPush.emitToUser, ret.
  set (sender := List.find _ _).
  destruct (Hpush sender st) as (H1 & H2 & H3).
  destruct (io (snd (push sender st))); eexists; (split; [reflexivity|]);
    by repeat split.
Qed.

Lemma valid_not_bad id : isValid id = true -> bad_id (Some id) = false.
Proof.
  intros H. unfold bad_id. simpl. rewrite H.
  destruct (String.eqb_spec id "") as [->|]; [discriminate|reflexivity].
Qed.

Section First_message.
Variables (env : Env) (req : Request) (st : Store) (userId recipientId s : string).
Hypothesis Huser : getReqUserId req = Some userId.
Hypothesis Hrecipient : param_recipientId req = Some recipientId.
Hypothesis Huser_valid : isValid userId = true.
Hypothesis Hrecipient_valid : isValid recipientId = true.
Hypothesis Htext : body_text req = JStr s.
Hypothesis Hnot_blank : trim s <> "".
Hypothesis Htype : messageType_of req = JStr "text".
Hypothesis Hreply : body_replyTo req = None.
Hypothesis Hno_prior :
  List.find (has_all_participants [mkObjectId userId; mkObjectId recipientId])
            (conversations st) = None.
Hypothesis Hfresh : fresh_conversation_id env st.

Lemma first_content_ok : check_content req = None /\ truthy (JStr s) = true.
Proof.
  assert (Hs : s <> "") by (intros ->; by apply Hnot_blank).
  assert (Ht : truthy (JStr s) = true)
    by (simpl; by destruct (String.eqb_spec s "")).
  split; [|exact Ht].
  unfold check_content. rewrite Htype. simpl. rewrite Htext.
  unfold text_missing. rewrite Ht. simpl.
  destruct (String.length (trim s) =? 0)%nat eqn:Hl; [|reflexivity].
  by apply string_length_0 in Hl.
Qed.

(** In [controllers/chatController.js] the new conversation starts with
    the recipient's counter at 1, and the update after the message is
    stored writes 1 + 1. *)
Lemma first_message_counts_twice :
  ChatController.sendMessage env req st =
    (Json 201 (mkSent true (payload_of (first_conversation env userId recipientId s 1)
                                       (first_message env userId recipientId s))),
     set_conversations
       (fun l => (l ++ [first_conversation env userId recipientId s 2])%list)
       (set_messages (fun l => (l ++ [first_message env userId recipientId s])%list) st)).
Proof.
  destruct first_content_ok as [Hc Ht].
  unfold ChatController.sendMessage, handler.
  rewrite Huser, Hrecipient, !valid_not_bad by assumption. rewrite Hc.
  unfold bind at 1. unfold messageText_of at 1. rewrite Htext, Ht.
  unfold ret at 1. unfold bind at 1. rewrite Hreply. unfold replyToData_of at 1.
  unfold ret at 1. unfold bind at 1. unfold Conversation_findOne at 1.
  cbv [js_String default from_option id]. rewrite Hno_prior.
  unfold bind at 1. unfold Conversation_create at 1. unfold bind at 1.
  unfold modify at 1. unfold ret at 1.
  unfold bind at 1. unfold Message_create, messageData_of.
  rewrite Htype. cbn -[trim]. rewrite trim_idem.
  unfold first_conversation, first_message, set_conversations, set_messages, payload_of.
  cbn -[trim]. unfold fresh_conversation_id in Hfresh.
  rewrite update_first_last; [|exact Hfresh|cbn; apply string_eqb_refl].
  unfold touch_conversation. cbn -[trim].
  rewrite lookup_singleton_eq. cbn -[trim]. rewrite insert_singleton_eq.
  reflexivity.
Qed.

(** In the revision with push delivery the new conversation starts with
    no counters, and the update writes 0 + 1. *)
Lemma first_message_counts_once :
  exists st',
    ChatControllerPush.sendMessage env req st
      = (Json 201 (mkSent true (payload_of (first_conversation env userId recipientId s 1)
                                           (first_message env userId recipientId s))),
         st') /\
    conversations st'
      = (conversations st ++ [first_conversation env userId recipientId s 1])%list /\
    messages st'
      = (messages st ++ [first_message env userId recipientId s])%list.
Proof.
  destruct first_content_ok as [Hc Ht].
  unfold ChatControllerPush.sendMessage, handler.
  rewrite Huser, Hrecipient, !valid_not_bad by assumption. rewrite Hc.
  unfold bind at 1. unfold messageText_of at 1. rewrite Htext, Ht.
  unfold ret at 1. unfold bind at 1. rewrite Hreply. unfold replyToData_of at 1.
  unfold ret at 1. unfold bind at 1. unfold Conversation_findOne at 1.
  cbv [js_String default from_option id]. rewrite Hno_prior.
  unfold bind at 1. unfold Conversation_create at 1. unfold bind at 1.
  unfold modify at 1. unfold ret at 1.
  unfold bind at 1. unfold Message_create, messageData_of.
  rewrite Htype. cbn -[trim bind]. rewrite trim_idem.
  unfold bind at 1. unfold modify at 1. unfold ret at 1.
  unfold bind at 1. unfold Conversation_findByIdAndUpdate, modify.
  match goal with
  | |- context [bind (User_findById ?u) ?k ?st2] =>
      destruct (delivery_same_chats u
                  (fun sender =>
                     PushService.sendNewMessageNotification env recipientId u
                       (sender ≫= name) (trim s) (newConversationId env))
                  recipientId "new_message"
                  (payload_of (first_conversation env userId recipientId s 1)
                              (first_message env userId recipientId s))
                  userId
                  (Json 201 (mkSent true
                     (payload_of (first_conversation env userId recipientId s 1)
                                 (first_message env userId recipientId s))))
                  st2)
        as (st' & Hrun & Hconv & Hmsg & _)
  end.
  { intros sender st0. apply sendPushToUser_same_chats. }
  unfold payload_of, first_conversation, first_message in Hrun. cbn -[trim bind] in Hrun.
  unfold payload_of. cbn -[trim bind].
  rewrite Hrun. exists st'. split; [reflexivity|].
  rewrite Hconv, Hmsg. cbn -[trim].
  split; [|reflexivity].
  unfold fresh_conversation_id in Hfresh.
  rewrite update_first_last; [|exact Hfresh|cbn; apply string_eqb_refl].
  unfold touch_conversation, first_conversation. cbn -[trim].
  rewrite lookup_empty. cbn -[trim]. rewrite insert_empty.
  reflexivity.
Qed.
End First_message.

(** C1. The first text message of a sender to a recipient, with no
    conversation of the two before: the message is stored with its text
    trimmed and the conversation's preview is that text, in both revisions
    of the controller. The recipient's unread counter ends at 1 in the
    revision with push delivery, as the claim says; in
    [controllers/chatController.js] it ends at 2. *)
Theorem sendMessage_first_message_unread env req st userId recipientId s :
  getReqUserId req = Some userId ->
  param_recipientId req = Some recipientId ->
  isValid userId = true ->
  isValid recipientId = true ->
  body_text req = JStr s ->
  trim s <> "" ->
  messageType_of req = JStr "text" ->
  body_replyTo req = None ->
  List.find (has_all_participants [mkObjectId userId; mkObjectId recipientId])
            (conversations st) = None ->
  fresh_conversation_id env st ->
  (exists st',
      snd (ChatController.sendMessage env req st) = st' /\
      status_of (fst (ChatController.sendMessage env req st)) = 201 /\
      messages st' = (messages st ++ [first_message env userId recipientId s])%list /\
      conversations st'
        = (conversations st ++ [first_conversation env userId recipientId s 2])%list) /\
  (exists st',
      snd (ChatControllerPush.sendMessage env req st) = st' /\
      status_of (fst (ChatControllerPush.sendMessage env req st)) = 201 /\
      messages st' = (messages st ++ [first_message env userId recipientId s])%list /\
      conversations st'
        = (conversations st ++ [first_conversation env userId recipientId s 1])%list) /\
  text (first_message env userId recipientId s) = trim s /\
  (forall n,
      lm_text (lastMessage (first_conversation env userId recipientId s n)) = trim s /\
      unreadCount (first_conversation env userId recipientId s n) !! recipientId = Some n).
Proof.
  intros Hu Hr Huv Hrv Ht Hs Hty Hrep Hno Hfresh.
  split; [|split; [|split]].
  - rewrite (first_message_counts_twice env req st userId recipientId s) by assumption.
    eexists. split; [reflexivity|]. by repeat split.
  - destruct (first_message_counts_once env req st userId recipientId s)
      as (st' & Hrun & Hc & Hm); try assumption.
    rewrite Hrun. exists st'. by repeat split.
  - reflexivity.
  - intros n. split; [reflexivity|]. cbn. apply lookup_singleton_eq.
Qed.

(** alice sends [{ text: '  hi ' }] to bob for the first time. *)
Lemma sendMessage_first_message_unread_witness :
  let old := snd (ChatController.sendMessage (at_time 10) hi_request no_chats) in
  let new := snd (ChatControllerPush.sendMessage (at_time 10) hi_request no_chats) in
  (map text (messages old) = ["hi"] /\
   map (fun c => (lm_text (lastMessage c), unreadCount c !! bob)) (conversations old)
     = [("hi", Some 2)]) /\
  (map text (messages new) = ["hi"] /\
   map (fun c => (lm_text (lastMessage c), unreadCount c !! bob)) (conversations new)
     = [("hi", Some 1)]).
Proof.
  intros old new.
  destruct (sendMessage_first_message_unread (at_time 10) hi_request no_chats
              alice bob "  hi " eq_refl eq_refl eq_refl eq_refl eq_refl
              ltac:(discriminate) eq_refl eq_refl eq_refl eq_refl)
    as ((st1 & E1 & _ & M1 & C1) & (st2 & E2 & _ & M2 & C2) & _ & _).
  subst old new. rewrite E1, E2, M1, C1, M2, C2.
  split; split; vm_compute; reflexivity.
Defined.

(** ** [getConversations] *)

Lemma mapM_Forall2 {A B} (f : A -> M B) (R : A -> B -> Prop) (l : list A) st :
  (forall x, x ∈ l -> exists y, f x st = (Returned y, st) /\ R x y) ->
  exists ys, mapM f l st = (Returned ys, st) /\ Forall2 R l ys.
Proof.
  induction l as [|x l IH]; intros H.
  - exists []. split; [reflexivity|constructor].
  - destruct (H x) as (y & Hy & HR); [by left|].
    destruct IH as (ys & Hys & HF); [intros z Hz; apply H; by right|].
    exists (y :: ys). split; [|by constructor].
    simpl. unfold bind. rewrite Hy, Hys. reflexivity.
Qed.

Lemma StronglySorted_Forall2 {A B} (R : relation A) (R' : relation B)
    (Q : A -> B -> Prop) (l : list A) (l' : list B) :
  (forall a b a' b', Q a a' -> Q b b' -> R a b -> R' a' b') ->
  Forall2 Q l l' -> StronglySorted R l -> StronglySorted R' l'.
Proof.
  intros HQ HF. induction HF as [|a a' l l' Ha HF IH]; intros Hs; [constructor|].
  apply StronglySorted_inv in Hs as [Hs Hall]. constructor; [by apply IH|].
  clear IH Hs. induction HF as [|b b' l l' Hb HF IH]; [constructor|].
  apply Forall_cons in Hall as [Hab Hall]. constructor; [by eapply HQ|by apply IH].
Qed.

Lemma lookup_other_run env st userId conv :
  lookup_other env userId conv st
  = (Returned (other_profile st userId conv,
               photoUrl_of env (other_profile st userId conv)), st).
Proof.
  unfold lookup_other, other_profile, other_participant.
  destruct (List.find (fun p => negb (String.eqb p userId)) (participants conv));
    reflexivity.
Qed.

Lemma lists_item st userId conv photo city_ unread :
  lists st userId conv
    (mkConversationItem (conv_id conv)
       ((fun u => mkOtherUser (user_id u) (name u) (age u) photo (city_ u)
                              (default false (isOnline u)) (lastSeen u))
          <$> other_profile st userId conv)
       (lastMessage conv) unread (updatedAt conv)).
Proof.
  unfold lists. cbn. repeat split.
  destruct (other_profile st userId conv) as [u|]; [|reflexivity].
  eexists. by repeat split.
Qed.

(** The revision with push delivery reports the stored counter. *)
Lemma enrich_push_run env st userId conv :
  exists item,
    ChatControllerPush.enrich env userId conv st = (Returned item, st) /\
    lists st userId conv item /\
    ci_unreadCount item = default 0 (unreadCount conv !! userId).
Proof.
  unfold ChatControllerPush.enrich, bind. rewrite lookup_other_run. cbn [fst snd].
  eexists. split; [reflexivity|]. split; [apply lists_item|].
  cbn. unfold ChatControllerPush.unread_of, num_or.
  destruct (unreadCount conv !! userId) as [n|]; [|reflexivity].
  cbn. by destruct (Z.eqb_spec n 0).
Qed.

(** [controllers/chatController.js] reports 0 whatever is stored. *)
Lemma enrich_run env st userId conv :
  unreadCount conv !! "get" = None ->
  exists item,
    ChatController.enrich env userId conv st = (Returned item, st) /\
    lists st userId conv item /\
    ci_unreadCount item = 0.
Proof.
  intros Hget.
  unfold ChatController.enrich, bind. rewrite lookup_other_run. cbn [fst snd].
  unfold ChatController.unread_of. rewrite Hget.
  eexists. split; [reflexivity|]. split; [apply lists_item|reflexivity].
Qed.

Lemma latest_sorted (l : list Conversation) :
  StronglySorted latest_first (merge_sort latest_first l).
Proof. apply StronglySorted_merge_sort; apply _. Qed.

Lemma lists_sorted st userId (cs : list Conversation) (items : list ConversationItem)
    (Q : Conversation -> ConversationItem -> Prop) :
  (forall c i, Q c i -> lists st userId c i) ->
  Forall2 Q (merge_sort latest_first cs) items ->
  StronglySorted latest_item_first items /\
  map ci_id items ≡ₚ map conv_id cs.
Proof.
  intros HQ HF. split.
  - eapply (StronglySorted_Forall2 latest_first latest_item_first Q);
      [|exact HF|apply latest_sorted].
    intros a b a' b' Ha Hb Hab.
    apply HQ in Ha as (_ & _ & Ha & _). apply HQ in Hb as (_ & _ & Hb & _).
    unfold latest_item_first, latest_first in *. by rewrite Ha, Hb.
  - assert (Heq : map ci_id items = map conv_id (merge_sort latest_first cs)).
    { induction HF as [|c i l l' Hci HF IH]; [reflexivity|]. simpl.
      apply HQ in Hci as (-> & _). by rewrite IH. }
    rewrite Heq. apply Permutation_map, merge_sort_Permutation.
Qed.

(** C6. [getConversations] answers with exactly the conversations the
    caller takes part in, latest [updatedAt] first, each with its preview
    and with the other participant's profile, or [null] when that profile
    is missing. The revision with push delivery reports the caller's
    stored unread counter, 0 when there is none, as the claim says;
    [controllers/chatController.js] reads the counter off the plain object
    with [get] and reports 0 whatever is stored. *)
Theorem getConversations_own_chats env req st userId :
  getReqUserId req = Some userId ->
  isValid userId = true ->
  let mine := List.filter (has_participant (mkObjectId userId)) (conversations st) in
  (exists items,
      ChatControllerPush.getConversations env req st = (Json 200 items, st) /\
      map ci_id items ≡ₚ map conv_id mine /\
      StronglySorted latest_item_first items /\
      Forall2 (fun c item =>
                 lists st userId c item /\
                 ci_unreadCount item = default 0 (unreadCount c !! userId))
              (merge_sort latest_first mine) items) /\
  (Forall (fun c => unreadCount c !! "get" = None) mine ->
   exists items,
      ChatController.getConversations env req st = (Json 200 items, st) /\
      map ci_id items ≡ₚ map conv_id mine /\
      StronglySorted latest_item_first items /\
      Forall2 (fun c item => lists st userId c item /\ ci_unreadCount item = 0)
              (merge_sort latest_first mine) items).
Proof.
  intros Hu Hv mine. split.
  - destruct (mapM_Forall2 (ChatControllerPush.enrich env userId)
                (fun c item =>
                   lists st userId c item /\
                   ci_unreadCount item = default 0 (unreadCount c !! userId))
                (merge_sort latest_first mine) st) as (items & Hrun & HF).
    { intros c _. destruct (enrich_push_run env st userId c) as (i & ? & ? & ?).
      by exists i. }
    exists items.
    destruct (lists_sorted st userId mine items _ (fun c i H => proj1 H) HF) as [Hs Hp].
    split; [|by repeat split].
    unfold ChatControllerPush.getConversations, handler. rewrite Hu, valid_not_bad by done.
    unfold bind at 1. unfold Conversation_find_sorted at 1.
    cbv [js_String default from_option id]. fold mine.
    unfold bind. rewrite Hrun. reflexivity.
  - intros Hget.
    destruct (mapM_Forall2 (ChatController.enrich env userId)
                (fun c item => lists st userId c item /\ ci_unreadCount item = 0)
                (merge_sort latest_first mine) st) as (items & Hrun & HF).
    { intros c Hc. rewrite merge_sort_Permutation in Hc.
      rewrite Forall_forall in Hget.
      destruct (enrich_run env st userId c (Hget c Hc)) as (i & ? & ? & ?).
      by exists i. }
    exists items.
    destruct (lists_sorted st userId mine items _ (fun c i H => proj1 H) HF) as [Hs Hp].
    split; [|by repeat split].
    unfold ChatController.getConversations, handler. rewrite Hu, valid_not_bad by done.
    unfold bind at 1. unfold Conversation_find_sorted at 1.
    cbv [js_String default from_option id]. fold mine.
    unfold bind. rewrite Hrun. reflexivity.
Qed.

(** alice has three unread messages from bob. The revision with push
    delivery lists her two conversations with the counters 3 and 0;
    [controllers/chatController.js] lists them with 0 and 0. dave has no
    profile, and his conversation is listed with no other user. *)
Lemma getConversations_own_chats_witness :
  let view := fun r : Response (list ConversationItem) * Store =>
    match fst r with
    | Json s items =>
        (s, map (fun i => (ci_id i, ou_name <$> ci_otherUser i, ci_unreadCount i)) items)
    | Fail s _ => (s, [])
    end in
  view (ChatControllerPush.getConversations (at_time 10) (request_of alice) alice_chats)
    = (200, [(chat_id, Some (Some "Bob"), 3); (chat_ad_id, None, 0)]) /\
  view (ChatController.getConversations (at_time 10) (request_of alice) alice_chats)
    = (200, [(chat_id, Some (Some "Bob"), 0); (chat_ad_id, None, 0)]).
Proof.
  intros view.
  destruct (getConversations_own_chats (at_time 10) (request_of alice) alice_chats alice
              eq_refl eq_refl) as [(items & Hrun & _) Hold].
  destruct Hold as (items' & Hrun' & _).
  { vm_compute. repeat constructor. }
  subst view. cbv beta. rewrite Hrun, Hrun'. cbn [fst].
  assert (H1 : Json 200 items
               = fst (ChatControllerPush.getConversations (at_time 10) (request_of alice)
                        alice_chats)) by (by rewrite Hrun).
  assert (H2 : Json 200 items'
               = fst (ChatController.getConversations (at_time 10) (request_of alice)
                        alice_chats)) by (by rewrite Hrun').
  vm_compute in H1, H2. injection H1 as ->. injection H2 as ->.
  split; vm_compute; reflexivity.
Defined.

(** ** The push service *)

Lemma invalid_token_code_iff c :
  PushService.invalid_token_code c = true <->
  c = Some "messaging/invalid-registration-token"
  \/ c = Some "messaging/registration-token-not-registered".
Proof.
  unfold PushService.invalid_token_code.
  destruct c as [c|]; [|split; [discriminate|by intros [?|?]]].
  rewrite orb_true_iff, !String.eqb_eq. split; (intros [H|H]; [left|right]); congruence.
Qed.

Lemma string_in_iff (l : list string) (s : string) :
  PushService.string_in l s = true <-> s ∈ l.
Proof.
  unfold PushService.string_in. rewrite existsb_exists. split.
  - intros (x & Hx & ->%String.eqb_eq). by apply list_elem_of_In.
  - intros H. exists s. split; [by apply list_elem_of_In|apply string_eqb_refl].
Qed.

Lemma collect_failed_spec (fcmTokens : list string) (resps : list SendResponse)
    (idx : nat) (t : string) :
  t ∈ PushService.collect_failed fcmTokens idx resps <->
  exists j resp,
    resps !! j = Some resp /\ fcmTokens !! (idx + j)%nat = Some t /\
    success resp = false /\ PushService.invalid_token_code (error_code resp) = true.
Proof.
  revert idx. induction resps as [|resp resps IH]; intros idx.
  - simpl. split; [by intros ?%elem_of_nil|by intros (j & r & ? & _)].
  - assert (Htail : t ∈ PushService.collect_failed fcmTokens (S idx) resps <->
                    exists j r, (resp :: resps) !! S j = Some r /\
                                fcmTokens !! (idx + S j)%nat = Some t /\
                                success r = false /\
                                PushService.invalid_token_code (error_code r) = true).
    { rewrite IH. split; intros (j & r & H1 & H2 & H3); exists j, r;
        (split; [exact H1|]); (split; [|exact H3]);
        [by replace (idx + S j)%nat with (S idx + j)%nat by lia
        |by replace (S idx + j)%nat with (idx + S j)%nat by lia]. }
    simpl.
    destruct (negb (success resp) && PushService.invalid_token_code (error_code resp))
      eqn:Hbad.
    + apply andb_true_iff in Hbad as [Hs Hc]. apply negb_true_iff in Hs.
      destruct (fcmTokens !! idx) as [t0|] eqn:Ht0.
      * rewrite elem_of_cons, Htail. split.
        -- intros [->|(j & r & ?)]; [|by exists (S j), r].
           exists 0%nat, resp. rewrite Nat.add_0_r. by repeat split.
        -- intros ([|j] & r & H1 & H2 & H3).
           ++ left. rewrite Nat.add_0_r in H2. congruence.
           ++ right. by exists j, r.
      * rewrite Htail. split.
        -- intros (j & r & ?). by exists (S j), r.
        -- intros ([|j] & r & H1 & H2 & H3); [|by exists j, r].
           rewrite Nat.add_0_r in H2. congruence.
    + rewrite Htail. split.
      * intros (j & r & ?). by exists (S j), r.
      * intros ([|j] & r & H1 & H2 & H3 & H4); [|by exists j, r].
        simpl in H1. injection H1 as <-. rewrite H3, H4 in Hbad. discriminate.
Qed.

Lemma collect_failed_reported fcmTokens resps t :
  t ∈ PushService.collect_failed fcmTokens 0 resps <-> reported_invalid fcmTokens resps t.
Proof.
  rewrite collect_failed_spec. unfold reported_invalid.
  split; intros (j & r & H); exists j, r; rewrite invalid_token_code_iff in *;
    simpl in *; tauto.
Qed.

Lemma update_many_none {A} (p : A -> bool) (f : A -> A) (l : list A) :
  (forall x, p x = false) -> update_many p f l = l.
Proof.
  intros H. unfold update_many. rewrite <- (map_id l) at 2. apply map_ext.
  intros x. by rewrite H.
Qed.

(** [sendPushToUser] with the provider's answer in hand. *)
Lemma sendPushToUser_answered env userId notification st r :
  firebaseInitialized st = true ->
  isValid userId = true ->
  active_tokens st userId <> [] ->
  sendEachForMulticast env (active_tokens st userId) = Answered r ->
  PushService.sendPushToUser env userId notification st =
    (Returned (PushService.mkPushResult true None (Some (successCount r)) None),
     if failureCount r >? 0 then
       set_deviceTokens
         (update_many
            (fun d => PushService.string_in
                        (PushService.collect_failed (active_tokens st userId) 0 (responses r))
                        (fcmToken d))
            (PushService.deactivate (now env)))
         st
     else st).
Proof.
  intros Hfb Hv Hne Hr.
  unfold PushService.sendPushToUser. rewrite Hfb. cbn [negb].
  unfold try_catch, PushService.sendPushToUser_try, bind,
    PushService.DeviceToken_find_active. rewrite Hv.
  unfold active_tokens in *.
  set (tokens := List.filter _ (deviceTokens st)) in *.
  destruct tokens as [|t0 tokens'] eqn:Htok; [done|]. cbn [length Nat.eqb].
  unfold PushService.call_provider. rewrite Hr. unfold ret.
  destruct (failureCount r >? 0); [|reflexivity].
  set (failed := PushService.collect_failed _ 0 (responses r)).
  destruct (0 <? length failed)%nat eqn:Hlen; [reflexivity|].
  apply Nat.ltb_ge in Hlen. destruct failed; [|simpl in Hlen; lia].
  f_equal. unfold set_deviceTokens. rewrite update_many_none by done.
  by destruct st.
Qed.

Lemma sendPushToUser_returns env userId notification :
  returns (PushService.sendPushToUser env userId notification).
Proof.
  intros st. unfold PushService.sendPushToUser.
  destruct (firebaseInitialized st); [|by eexists _, _]. cbn [negb].
  unfold try_catch.
  destruct (PushService.sendPushToUser_try env userId notification st) as [[r|e] st'];
    by eexists _, _.
Qed.

Lemma sendPushToUser_provider_down env userId notification st e :
  firebaseInitialized st = true ->
  isValid userId = true ->
  active_tokens st userId <> [] ->
  sendEachForMulticast env (active_tokens st userId) = Failed e ->
  PushService.sendPushToUser env userId notification st =
    (Returned (PushService.mkPushResult false (Some "error") None (Some e)), st).
Proof.
  intros Hfb Hv Hne Hr.
  unfold PushService.sendPushToUser. rewrite Hfb. cbn [negb].
  unfold try_catch, PushService.sendPushToUser_try, bind,
    PushService.DeviceToken_find_active. rewrite Hv.
  unfold active_tokens in *.
  set (tokens := List.filter _ (deviceTokens st)) in *.
  destruct tokens as [|t0 tokens'] eqn:Htok; [done|]. cbn [length Nat.eqb].
  unfold PushService.call_provider. rewrite Hr. reflexivity.
Qed.

Lemma same_but_tokens_refl st : same_but_tokens st st.
Proof. by repeat split. Qed.

Lemma agree_refl {A} (x : Outcome A * Store) : agree x x.
Proof. split; [reflexivity|apply same_but_tokens_refl]. Qed.

Lemma agree_bind {A B} (m : M A) (k1 k2 : A -> M B) st :
  (forall a st', agree (k1 a st') (k2 a st')) -> agree (bind m k1 st) (bind m k2 st).
Proof.
  intros H. unfold bind. destruct (m st) as [[a|e] st']; [apply H|apply agree_refl].
Qed.

Lemma sendPushToUser_same_but_tokens env userId notification st :
  same_but_tokens (snd (PushService.sendPushToUser env userId notification st)) st.
Proof.
  unfold PushService.sendPushToUser.
  destruct (firebaseInitialized st) eqn:Hfb; [|apply same_but_tokens_refl]. cbn [negb].
  unfold try_catch, PushService.sendPushToUser_try, bind,
    PushService.DeviceToken_find_active.
  destruct (isValid userId); [|apply same_but_tokens_refl].
  destruct (length _ =? 0)%nat; [apply same_but_tokens_refl|].
  unfold PushService.call_provider.
  destruct (sendEachForMulticast env _) as [r|e]; [|apply same_but_tokens_refl].
  unfold ret. destruct (failureCount r >? 0); [|apply same_but_tokens_refl].
  destruct (0 <? length _)%nat; by repeat split.
Qed.

Lemma agree_detached {A B} (t1 t2 : M A) (k : M B) st :
  (forall st, same_but_tokens (snd (t1 st)) st) ->
  (forall st, same_but_tokens (snd (t2 st)) st) ->
  (forall s1 s2, same_but_tokens s1 s2 -> agree (k s1) (k s2)) ->
  agree (bind (ChatControllerPush.detached t1) (fun _ => k) st)
        (bind (ChatControllerPush.detached t2) (fun _ => k) st).
Proof.
  intros H1 H2 Hk. unfold bind, ChatControllerPush.detached. apply Hk.
  destruct (H1 st) as (a1 & a2 & a3 & a4 & a5 & a6).
  destruct (H2 st) as (b1 & b2 & b3 & b4 & b5 & b6).
  repeat split; congruence.
Qed.

Lemma agree_emit {A} userId ev payload senderId (r : A) s1 s2 :
  same_but_tokens s1 s2 ->
  agree ((ChatControllerPush.emitToUser userId ev payload senderId ;;; ret r)%M s1)
        ((ChatControllerPush.emitToUser userId ev payload senderId ;;; ret r)%M s2).
Proof.
  intros (H1 & H2 & H3 & H4 & H5 & H6).
  unfold bind, ChatControllerPush.emitToUser, ret. rewrite H5.
  destruct (io s2) eqn:Hio; unfold agree, same_but_tokens, set_emitted; cbn;
    repeat split; congruence.
Qed.

(** The answer of [sendMessage], and everything it stores but the device
    tokens, do not depend on what the push provider does. *)
Lemma sendMessage_whatever_provider env env' req st :
  same_but_provider env env' ->
  fst (ChatControllerPush.sendMessage env req st)
    = fst (ChatControllerPush.sendMessage env' req st) /\
  same_but_tokens (snd (ChatControllerPush.sendMessage env req st))
                  (snd (ChatControllerPush.sendMessage env' req st)).
Proof.
  destruct env as [n c m p g], env' as [n' c' m' p' g'].
  intros (Hn & Hc & Hm & Hg). cbn in Hn, Hc, Hm, Hg. subst n' c' m' g'.
  assert (Hagree : forall (m1 m2 : M (Response Sent)),
             agree (m1 st) (m2 st) ->
             fst (handler m1 st) = fst (handler m2 st) /\
             same_but_tokens (snd (handler m1 st)) (snd (handler m2 st))).
  { intros m1 m2 [H1 H2]. unfold handler.
    destruct (m1 st) as [[r1|e1] s1], (m2 st) as [[r2|e2] s2]; cbn in *;
      try discriminate; split; congruence. }
  apply Hagree. cbv zeta.
  destruct (bad_id (getReqUserId req)); [apply agree_refl|].
  destruct (bad_id (param_recipientId req)); [apply agree_refl|].
  destruct (check_content req); [apply agree_refl|].
  unfold Conversation_create, Message_create, touch_conversation.
  cbn [now newConversationId newMessageId].
  do 7 (apply agree_bind; intros ? ?).
  apply agree_detached.
  - intros st0. apply sendPushToUser_same_but_tokens.
  - intros st0. apply sendPushToUser_same_but_tokens.
  - intros s1 s2 Hs. by apply agree_emit.
Qed.

(** C7. [sendPushToUser] always returns a result to its caller. When the
    provider fails as a whole the result is the failure
    [{ success: false, reason: 'error' }] and nothing is written. When
    the provider answers with failures, the result is a success with the
    provider's count, and a stored token is deactivated exactly when the
    answer reports it with [messaging/invalid-registration-token] or
    [messaging/registration-token-not-registered]; every other record,
    among them the tokens that failed with another code, is left as it
    was. The answer of [sendMessage] is the same whatever the provider
    does. *)
Theorem sendPushToUser_partial_failure env userId notification st :
  (exists result st',
      PushService.sendPushToUser env userId notification st = (Returned result, st')) /\
  (forall env' req st0,
      same_but_provider env env' ->
      fst (ChatControllerPush.sendMessage env req st0)
        = fst (ChatControllerPush.sendMessage env' req st0)) /\
  (firebaseInitialized st = true ->
   isValid userId = true ->
   active_tokens st userId <> [] ->
   (forall e,
       sendEachForMulticast env (active_tokens st userId) = Failed e ->
       PushService.sendPushToUser env userId notification st
         = (Returned (PushService.mkPushResult false (Some "error") None (Some e)), st)) /\
   (forall r,
       sendEachForMulticast env (active_tokens st userId) = Answered r ->
       0 < failureCount r ->
       exists st',
         PushService.sendPushToUser env userId notification st
           = (Returned (PushService.mkPushResult true None (Some (successCount r)) None),
              st') /\
         same_but_tokens st' st /\
         forall i d,
           deviceTokens st !! i = Some d ->
           exists d',
             deviceTokens st' !! i = Some d' /\
             (reported_invalid (active_tokens st userId) (responses r) (fcmToken d) ->
                d' = PushService.deactivate (now env) d /\ isActive d' = false) /\
             (~ reported_invalid (active_tokens st userId) (responses r) (fcmToken d) ->
                d' = d))).
Proof.
  split; [apply sendPushToUser_returns|].
  split; [intros env' req st0 H; by apply sendMessage_whatever_provider|].
  intros Hfb Hv Hne. split.
  - intros e He. by apply sendPushToUser_provider_down.
  - intros r Hr Hfail.
    rewrite (sendPushToUser_answered env userId notification st r) by assumption.
    destruct (Z.gtb_spec (failureCount r) 0) as [_|]; [|lia].
    eexists. split; [reflexivity|]. split; [by repeat split|].
    intros i d Hd. cbn. unfold update_many. rewrite list_lookup_fmap, Hd. cbn.
    eexists. split; [reflexivity|].
    destruct (PushService.string_in _ (fcmToken d)) eqn:Hin.
    + split; [by intros _|]. intros Hnot. exfalso. apply Hnot.
      by apply collect_failed_reported, string_in_iff.
    + split; [|by intros _]. intros Hrep. exfalso.
      apply collect_failed_reported, string_in_iff in Hrep. congruence.
Qed.

(** bob has three active tokens. The provider delivers to the first,
    reports the second as unregistered and the third as unavailable: only
    the second is deactivated. When the provider is down, nothing changes
    and the result is a failure. *)
Lemma sendPushToUser_partial_failure_witness :
  (exists st',
      PushService.sendPushToUser (partly_failing 10) bob hello devices
        = (Returned (PushService.mkPushResult true None (Some 1) None), st') /\
      map (fun d => (fcmToken d, isActive d)) (deviceTokens st')
        = [("tok-1", true); ("tok-a", true); ("tok-2", false); ("tok-3", true)]) /\
  PushService.sendPushToUser (at_time 10) bob hello devices
    = (Returned (PushService.mkPushResult false (Some "error") None (Some "unavailable")),
       devices).
Proof.
  destruct (sendPushToUser_partial_failure (partly_failing 10) bob hello devices)
    as (_ & _ & Hpart).
  destruct (Hpart eq_refl eq_refl ltac:(discriminate)) as [_ Hans].
  destruct (Hans _ eq_refl ltac:(reflexivity)) as (st' & Hrun & _ & _).
  destruct (sendPushToUser_partial_failure (at_time 10) bob hello devices)
    as (_ & _ & Hdown).
  destruct (Hdown eq_refl eq_refl ltac:(discriminate)) as [Hfail _].
  split; [|exact (Hfail _ eq_refl)].
  exists st'. split; [exact Hrun|].
  assert (E : st' = snd (PushService.sendPushToUser (partly_failing 10) bob hello devices))
    by (by rewrite Hrun).
  rewrite E. vm_compute. reflexivity.
Defined.

Lemma cast_platform_default platform_ :
  PushService.cast_platform
    (match platform_ with JUndefined => JStr "android" | v => v end)
  = PushService.cast_platform platform_.
Proof. by destruct platform_. Qed.

Lemma registerDeviceToken_existing env userId token platform_ deviceId_ st existing :
  List.find (has_token token) (deviceTokens st) = Some existing ->
  PushService.registerDeviceToken env userId token platform_ deviceId_ st =
    if registration_ok userId platform_ then
      (Returned true,
       set_deviceTokens
         (update_first (has_token token) (reassigned env userId platform_ deviceId_)) st)
    else (Returned false, st).
Proof.
  intros Hfind.
  assert (Htok : fcmToken existing = token).
  { apply find_some in Hfind as [_ H]. by apply String.eqb_eq in H. }
  unfold PushService.registerDeviceToken, try_catch, bind, PushService.DeviceToken_findOne.
  fold (has_token token). rewrite Hfind.
  unfold PushService.DeviceToken_save, registration_ok, platform_known, reassigned,
    stored_platform.
  rewrite cast_platform_default.
  destruct (PushService.cast_platform platform_) as [p|];
    [|by rewrite andb_false_r].
  rewrite andb_true_r. destruct (isValid userId); [|reflexivity].
  cbn [negb]. rewrite Htok. reflexivity.
Qed.

Lemma registerDeviceToken_new env userId token platform_ deviceId_ st :
  List.find (has_token token) (deviceTokens st) = None ->
  PushService.registerDeviceToken env userId token platform_ deviceId_ st =
    if registration_ok userId platform_ && negb (String.eqb token "") then
      (Returned true,
       set_deviceTokens
         (fun l => (l ++ [mkDeviceToken (mkObjectId userId) token
                            (stored_platform platform_) deviceId_ true
                            (now env) (now env)])%list) st)
    else (Returned false, st).
Proof.
  intros Hfind.
  unfold PushService.registerDeviceToken, try_catch, bind, PushService.DeviceToken_findOne.
  fold (has_token token). rewrite Hfind.
  unfold PushService.DeviceToken_create, registration_ok, platform_known, stored_platform.
  rewrite cast_platform_default.
  destruct (PushService.cast_platform platform_) as [p|];
    [|by rewrite andb_false_r].
  rewrite andb_true_r.
  destruct (isValid userId && negb (String.eqb token "")); [|reflexivity].
  cbn [negb]. fold (has_token token). rewrite find_existsb, Hfind. reflexivity.
Qed.

Lemma map_update_first {A B} (g : A -> B) (p : A -> bool) (f : A -> A) (l : list A) :
  (forall x, g (f x) = g x) -> map g (update_first p f l) = map g l.
Proof.
  intros H. induction l as [|x l IH]; [reflexivity|]. simpl.
  destruct (p x); simpl; [by rewrite H|by rewrite IH].
Qed.

Lemma find_none_not_in token (l : list DeviceToken) :
  List.find (has_token token) l = None -> token ∉ map fcmToken l.
Proof.
  intros Hfind Hin. apply list_elem_of_fmap in Hin as (d & -> & Hd).
  apply list_elem_of_In in Hd.
  pose proof (find_none _ _ Hfind d Hd) as H. unfold has_token in H.
  by rewrite string_eqb_refl in H.
Qed.

Lemma registerDeviceToken_keeps_unique env userId token platform_ deviceId_ st :
  unique_tokens st ->
  unique_tokens (snd (PushService.registerDeviceToken env userId token platform_
                        deviceId_ st)).
Proof.
  unfold unique_tokens. intros Hu.
  destruct (List.find (has_token token) (deviceTokens st)) as [existing|] eqn:Hfind.
  - rewrite (registerDeviceToken_existing _ _ _ _ _ _ _ Hfind).
    destruct (registration_ok userId platform_); [|exact Hu]. cbn.
    by rewrite map_update_first.
  - rewrite (registerDeviceToken_new _ _ _ _ _ _ Hfind).
    destruct (_ && _); [|exact Hu]. cbn. rewrite map_app. cbn.
    apply NoDup_app. split; [exact Hu|]. split; [|apply NoDup_singleton].
    intros x Hx ->%list_elem_of_singleton. by apply (find_none_not_in _ _ Hfind).
Qed.

Lemma register_all_keeps_unique rs st :
  unique_tokens st -> unique_tokens (register_all rs st).
Proof.
  revert st. induction rs as [|r rs IH]; intros st Hu; [exact Hu|].
  simpl. apply IH. by apply registerDeviceToken_keeps_unique.
Qed.

Lemma update_first_length {A} (p : A -> bool) (f : A -> A) (l : list A) :
  length (update_first p f l) = length l.
Proof.
  induction l as [|x l IH]; [reflexivity|]. simpl. destruct (p x); simpl; by rewrite ?IH.
Qed.

Lemma unique_same_token (l : list DeviceToken) (d1 d2 : DeviceToken) :
  NoDup (map fcmToken l) -> d1 ∈ l -> d2 ∈ l -> fcmToken d1 = fcmToken d2 -> d1 = d2.
Proof.
  induction l as [|x l IH]; intros Hnd H1 H2 Heq; [by apply elem_of_nil in H1|].
  simpl in Hnd. apply NoDup_cons in Hnd as [Hx Hnd].
  apply elem_of_cons in H1 as [->|H1], H2 as [->|H2].
  - reflexivity.
  - exfalso. apply Hx. rewrite Heq. by apply list_elem_of_fmap_2.
  - exfalso. apply Hx. rewrite <- Heq. by apply list_elem_of_fmap_2.
  - by apply IH.
Qed.

(** C8. Registering a token that is already stored writes over the
    stored record instead of inserting one: the number of records stays,
    and the record of that token now carries the new user, platform and
    device id and is active. From a store in which no two records share a
    token, any sequence of registrations leads to such a store again: for
    every token at most one record exists, hence at most one owner. *)
Theorem registerDeviceToken_updates_in_place env userId token platform_ deviceId_ st :
  unique_tokens st ->
  let run := PushService.registerDeviceToken env userId token platform_ deviceId_ st in
  unique_tokens (snd run) /\
  (forall d1 d2,
      d1 ∈ deviceTokens (snd run) -> d2 ∈ deviceTokens (snd run) ->
      fcmToken d1 = fcmToken d2 -> d1 = d2) /\
  (forall rs, unique_tokens (register_all rs st)) /\
  (forall existing,
      List.find (has_token token) (deviceTokens st) = Some existing ->
      length (deviceTokens (snd run)) = length (deviceTokens st) /\
      (registration_ok userId platform_ = true ->
         fst run = Returned true /\
         List.find (has_token token) (deviceTokens (snd run))
           = Some (reassigned env userId platform_ deviceId_ existing) /\
         forall d, d ∈ deviceTokens (snd run) -> fcmToken d = token ->
                   d = reassigned env userId platform_ deviceId_ existing)).
Proof.
  intros Hu run.
  assert (Hu' : unique_tokens (snd run)) by (by apply registerDeviceToken_keeps_unique).
  split; [exact Hu'|]. split; [intros d1 d2; by apply unique_same_token|].
  split; [intros rs; by apply register_all_keeps_unique|].
  intros existing Hfind. subst run.
  rewrite (registerDeviceToken_existing _ _ _ _ _ _ _ Hfind) in *.
  destruct (registration_ok userId platform_); cbn [fst snd] in *.
  - cbn. split; [apply update_first_length|]. intros _. split; [reflexivity|].
    assert (Hnew : List.find (has_token token)
                     (update_first (has_token token)
                        (reassigned env userId platform_ deviceId_) (deviceTokens st))
                   = Some (reassigned env userId platform_ deviceId_ existing)).
    { rewrite find_update_first by (by intros x Hx). by rewrite Hfind. }
    split; [exact Hnew|]. intros d Hd Htok.
    apply find_some in Hnew as [Hin Hhas]. apply String.eqb_eq in Hhas.
    apply (unique_same_token _ _ _ Hu' Hd); [by apply list_elem_of_In|congruence].
  - split; [reflexivity|discriminate].
Qed.

(** alice's registration left one record; bob's registration of the same
    token from another device leaves one record too, now his. *)
Lemma registerDeviceToken_updates_in_place_witness :
  let st' := snd (PushService.registerDeviceToken (at_time 20) bob "tok" (JStr "ios")
                    (Some "device-2") after_alice) in
  map (fun d => (dt_userId d, platform d, deviceId d)) (deviceTokens after_alice)
    = [(alice, Some "android", Some "device-1")] /\
  length (deviceTokens st') = 1%nat /\
  List.find (has_token "tok") (deviceTokens st')
    = Some (mkDeviceToken bob "tok" (Some "ios") (Some "device-2") true 10 20).
Proof.
  intros st'. split; [vm_compute; reflexivity|].
  destruct (registerDeviceToken_updates_in_place (at_time 20) bob "tok" (JStr "ios")
              (Some "device-2") after_alice) as (_ & _ & _ & Hin).
  { vm_compute. repeat constructor; by intros ?%elem_of_nil. }
  destruct (Hin (mkDeviceToken alice "tok" (Some "android") (Some "device-1") true 10 10)
              eq_refl)
    as (Hlen & Hok).
  destruct (Hok eq_refl) as (_ & Hfind & _).
  split; [exact Hlen|exact Hfind].
Defined.

(** * Further properties *)

(** ** [startConversation] *)

Lemma has_all_participants_swap a b c :
  has_all_participants [a; b] c = has_all_participants [b; a] c.
Proof. unfold has_all_participants. simpl. rewrite !andb_true_r. apply andb_comm. Qed.

Lemma find_ext {A} (p q : A -> bool) (l : list A) :
  (forall x, p x = q x) -> List.find p l = List.find q l.
Proof.
  intros H. induction l as [|x l IH]; [reflexivity|]. simpl. by rewrite H, IH.
Qed.

Lemma find_app_none {A} (p : A -> bool) (l : list A) (x : A) :
  List.find p l = None -> p x = true -> List.find p (l ++ [x])%list = Some x.
Proof.
  induction l as [|y l IH]; simpl; intros Hl Hx; [by rewrite Hx|].
  destruct (p y); [discriminate|]. by apply IH.
Qed.

Lemma startConversation_run city_of env req st user other :
  between req user other ->
  startConversation_with city_of env req st =
    let pair := has_all_participants [mkObjectId user; mkObjectId other] in
    let profile := List.find (fun u => oid_eqb (user_id u) (mkObjectId other)) (users st) in
    let other_user := fun photo =>
      (fun u => mkOtherUser (user_id u) (name u) (age u) photo (city_of u)
                            (default false (isOnline u)) (lastSeen u)) <$> profile in
    match List.find pair (conversations st) with
    | Some c =>
        (Json 200 (mkStarted (conv_id c) (other_user (photoUrl_of env profile))), st)
    | None =>
        (Json 200 (mkStarted (newConversationId env)
                             (other_user (photoUrl_of env profile))),
         set_conversations
           (fun l => (l ++ [mkConversation (newConversationId env)
                              [mkObjectId user; mkObjectId other]
                              (mkLastMessage "" None (now env)) ∅ (now env) (now env)])%list)
           st)
    end.
Proof.
  intros (Hu & Hr & Huv & Hrv).
  unfold startConversation_with, handler.
  rewrite Hu, Hr, !valid_not_bad by assumption.
  cbv [js_String default from_option id].
  unfold bind at 1. unfold Conversation_findOne at 1.
  destruct (List.find _ (conversations st)) as [c|]; reflexivity.
Qed.

Lemma has_all_participants_self a b lm uc t1 t2 i :
  has_all_participants [a; b] (mkConversation i [a; b] lm uc t1 t2) = true.
Proof.
  unfold has_all_participants, has_participant, oid_eqb. simpl.
  rewrite !string_eqb_refl. simpl. by rewrite orb_true_r.
Qed.

(** X1. [startConversation] finds or creates: a call by either of the two
    users about the other, after a first call, answers with the same
    conversation id and changes nothing; the first call adds one
    conversation when the pair has none and nothing when it has one; and
    the conversation it names is stored with both users as participants. *)
Theorem startConversation_find_or_create city_of city_of' env env' req req' st user other :
  between req user other ->
  between req' user other \/ between req' other user ->
  let first := startConversation_with city_of env req st in
  let again := startConversation_with city_of' env' req' (snd first) in
  exists s1 s2 c,
    fst first = Json 200 s1 /\
    fst again = Json 200 s2 /\
    st_conversationId s2 = st_conversationId s1 /\
    snd again = snd first /\
    List.find (has_all_participants [mkObjectId user; mkObjectId other])
              (conversations (snd first)) = Some c /\
    conv_id c = st_conversationId s1 /\
    has_participant (mkObjectId user) c = true /\
    has_participant (mkObjectId other) c = true /\
    match List.find (has_all_participants [mkObjectId user; mkObjectId other])
                    (conversations st) with
    | Some _ => snd first = st
    | None => conversations (snd first) = (conversations st ++ [c])%list
    end.
Proof.
  intros Hreq Hreq' first again.
  assert (Hfound : forall c st0,
             List.find (has_all_participants [mkObjectId user; mkObjectId other])
                       (conversations st0) = Some c ->
             exists s2, startConversation_with city_of' env' req' st0 = (Json 200 s2, st0)
                        /\ st_conversationId s2 = conv_id c).
  { intros c st0 Hc. destruct Hreq' as [H|H].
    - rewrite (startConversation_run _ _ _ _ _ _ H). cbv zeta. rewrite Hc.
      by eexists.
    - rewrite (startConversation_run _ _ _ _ _ _ H). cbv zeta.
      rewrite (find_ext _ (has_all_participants [mkObjectId user; mkObjectId other]))
        by (intros; apply has_all_participants_swap).
      rewrite Hc. by eexists. }
  subst first again.
  rewrite (startConversation_run _ _ _ _ _ _ Hreq). cbv zeta.
  destruct (List.find _ (conversations st)) as [c|] eqn:Hc.
  - cbn [fst snd]. destruct (Hfound c st Hc) as (s2 & -> & Hid).
    apply find_some in Hc as Hc'. destruct Hc' as [_ Hall].
    unfold has_all_participants in Hall. simpl in Hall.
    apply andb_true_iff in Hall as [Hu Ho]. rewrite andb_true_r in Ho.
    eexists _, s2, c. cbn [fst snd st_conversationId]. by repeat split.
  - cbn [fst snd].
    set (c := mkConversation _ _ _ _ _ _).
    assert (Hnew : List.find (has_all_participants [mkObjectId user; mkObjectId other])
                             (conversations st ++ [c]) = Some c).
    { apply find_app_none; [exact Hc|apply has_all_participants_self]. }
    destruct (Hfound c (set_conversations (fun l => (l ++ [c])%list) st) Hnew)
      as (s2 & -> & Hid).
    pose proof (has_all_participants_self (mkObjectId user) (mkObjectId other)
                  (mkLastMessage "" None (now env)) ∅ (now env) (now env)
                  (newConversationId env)) as Hall.
    fold c in Hall. unfold has_all_participants in Hall. simpl in Hall.
    apply andb_true_iff in Hall as [Hu Ho]. rewrite andb_true_r in Ho.
    eexists _, s2, c. cbn [fst snd st_conversationId]. by repeat split.
Qed.

Lemma startConversation_find_or_create_witness :
  let first := startConversation (at_time 10) (start_req alice carol) (history 2) in
  let again := startConversation_push (at_time 20) (start_req carol alice) (snd first) in
  snd again = snd first /\
  map conv_id (conversations (snd first)) = [chat_id; "c00000000000000000000002"] /\
  exists s2, fst again = Json 200 s2 /\ st_conversationId s2 = "c00000000000000000000002".
Proof.
  intros first again.
  destruct (startConversation_find_or_create
              (fun u => text_or_null (city u))
              (fun u => text_or_null (or_else (city u) (userLocation u)))
              (at_time 10) (at_time 20) (start_req alice carol) (start_req carol alice)
              (history 2) alice carol)
    as (s1 & s2 & c & H1 & H2 & Hid & Hst & _ & _ & _ & _ & Hnew).
  { by repeat split. }
  { right. by repeat split. }
  split; [exact Hst|]. split; [vm_compute; reflexivity|].
  exists s2. split; [exact H2|]. rewrite Hid.
  change (startConversation_with (fun u => text_or_null (city u)) (at_time 10)
            (start_req alice carol) (history 2)) with first in H1.
  assert (E : Json 200 s1 = fst first) by (by rewrite H1).
  vm_compute in E. by injection E as ->.
Defined.

(** ** Device tokens *)

Lemma filter_all {A} (p : A -> bool) (l : list A) :
  (forall x, x ∈ l -> p x = true) -> List.filter p l = l.
Proof.
  induction l as [|y l IH]; [reflexivity|]. intros H. simpl.
  rewrite (H y) by (by left). rewrite IH; [reflexivity|]. intros x Hx. apply H. by right.
Qed.

Lemma delete_first_unique token (l : list DeviceToken) :
  NoDup (map fcmToken l) ->
  PushService.delete_first (has_token token) l
    = List.filter (fun d => negb (has_token token d)) l.
Proof.
  induction l as [|x l IH]; [reflexivity|]. simpl. intros Hnd.
  apply NoDup_cons in Hnd as [Hx Hnd].
  destruct (has_token token x) eqn:Hxt; simpl; [|by rewrite IH].
  unfold has_token in Hxt. apply String.eqb_eq in Hxt. subst token.
  symmetry. apply filter_all. intros d Hd.
  destruct (has_token (fcmToken x) d) eqn:Hdt; [|reflexivity].
  unfold has_token in Hdt. apply String.eqb_eq in Hdt.
  exfalso. apply Hx. rewrite <- Hdt. by apply list_elem_of_fmap_2.
Qed.

Lemma delete_first_last {A} (p : A -> bool) (l : list A) (x : A) :
  List.find p l = None -> p x = true ->
  PushService.delete_first p (l ++ [x])%list = l.
Proof.
  induction l as [|y l IH]; simpl; intros Hl Hx; [by rewrite Hx|].
  destruct (p y); [discriminate|]. by rewrite IH.
Qed.

Lemma unregisterDeviceToken_run token st :
  PushService.unregisterDeviceToken token st =
    (Returned true,
     set_deviceTokens (PushService.delete_first (has_token token)) st).
Proof. reflexivity. Qed.

(** X2. Unregistering a token removes its record and no other: in a store
    where no two records share a token, what is left is every record with
    another token, in order, so no record with that token remains and
    tokens stay unique. *)
Theorem unregisterDeviceToken_removes token st :
  unique_tokens st ->
  let st' := snd (PushService.unregisterDeviceToken token st) in
  deviceTokens st' = List.filter (fun d => negb (has_token token d)) (deviceTokens st) /\
  (forall d, d ∈ deviceTokens st' -> fcmToken d <> token) /\
  (forall d, d ∈ deviceTokens st -> fcmToken d <> token -> d ∈ deviceTokens st') /\
  unique_tokens st' /\
  conversations st' = conversations st /\ messages st' = messages st.
Proof.
  intros Hu st'. subst st'. rewrite unregisterDeviceToken_run. cbn [snd].
  unfold set_deviceTokens. cbn.
  rewrite (delete_first_unique _ _ Hu).
  split; [reflexivity|]. split; [|split; [|split; [|by split]]].
  - intros d Hd Ht. apply list_elem_of_In, filter_In in Hd as [_ Hd].
    unfold has_token in Hd. subst token. by rewrite string_eqb_refl in Hd.
  - intros d Hd Ht. apply list_elem_of_In, filter_In. split; [by apply list_elem_of_In|].
    unfold has_token. destruct (String.eqb_spec (fcmToken d) token); [done|reflexivity].
  - unfold unique_tokens in *. cbn.
    clear -Hu. induction (deviceTokens st) as [|x l IH]; [constructor|].
    simpl in *. apply NoDup_cons in Hu as [Hx Hu].
    destruct (negb (has_token token x)); simpl; [|by apply IH].
    apply NoDup_cons. split; [|by apply IH].
    intros Hin. apply Hx. apply list_elem_of_fmap in Hin as (d & -> & Hd).
    apply list_elem_of_In, filter_In in Hd as [Hd _].
    apply list_elem_of_fmap_2. by apply list_elem_of_In.
Qed.

Lemma unregisterDeviceToken_removes_witness :
  map fcmToken
      (deviceTokens (snd (PushService.unregisterDeviceToken "tok-2" devices)))
    = ["tok-1"; "tok-a"; "tok-3"].
Proof.
  destruct (unregisterDeviceToken_removes "tok-2" devices) as [H _].
  { unfold unique_tokens. cbn. apply NoDup_ListNoDup.
    repeat (constructor; [cbn; intuition discriminate|]). constructor. }
  rewrite H. vm_compute. reflexivity.
Defined.

(** X3. Registering a token that is not stored and then unregistering it
    gives the store back as it was, whenever the registration is valid.
    The record in between has the platform given, ['android'] when none
    is, and [null] for [null]. *)
Theorem register_unregister_round_trip env userId token platform_ deviceId_ st :
  List.find (has_token token) (deviceTokens st) = None ->
  registration_ok userId platform_ = true ->
  token <> "" ->
  let registered := PushService.registerDeviceToken env userId token platform_ deviceId_ st in
  fst registered = Returned true /\
  List.find (has_token token) (deviceTokens (snd registered))
    = Some (mkDeviceToken (mkObjectId userId) token (stored_platform platform_)
                          deviceId_ true (now env) (now env)) /\
  snd (PushService.unregisterDeviceToken token (snd registered)) = st.
Proof.
  intros Hnone Hok Hne registered. subst registered.
  rewrite (registerDeviceToken_new _ _ _ _ _ _ Hnone), Hok.
  destruct (String.eqb_spec token "") as [|_]; [done|]. cbn [andb negb fst snd].
  split; [reflexivity|]. split.
  - cbn. apply find_app_none; [exact Hnone|]. unfold has_token. cbn. apply string_eqb_refl.
  - rewrite unregisterDeviceToken_run. cbn [snd]. unfold set_deviceTokens. cbn.
    rewrite delete_first_last; [by destruct st|exact Hnone|].
    unfold has_token. cbn. apply string_eqb_refl.
Qed.

Lemma register_unregister_round_trip_witness :
  snd (PushService.unregisterDeviceToken "tok-9"
         (snd (PushService.registerDeviceToken (at_time 5) carol "tok-9" (JStr "ios")
                 None devices)))
    = devices.
Proof.
  apply (register_unregister_round_trip (at_time 5) carol "tok-9" (JStr "ios") None devices);
    [reflexivity|reflexivity|discriminate].
Defined.

Lemma active_tokens_elem st userId token :
  token ∈ active_tokens st userId <->
  exists d, d ∈ deviceTokens st /\ fcmToken d = token /\
            dt_userId d = mkObjectId userId /\ isActive d = true.
Proof.
  unfold active_tokens. rewrite list_elem_of_fmap. split.
  - intros (d & -> & Hd). apply list_elem_of_In, filter_In in Hd as [Hd Hp].
    apply andb_true_iff in Hp as [Hu Ha]. apply String.eqb_eq in Hu.
    exists d. repeat split; [by apply list_elem_of_In|done|done].
  - intros (d & Hd & <- & Hu & Ha). exists d. split; [reflexivity|].
    apply list_elem_of_In, filter_In. split; [by apply list_elem_of_In|].
    unfold oid_eqb. by rewrite Hu, string_eqb_refl, Ha.
Qed.

(** X4. After a valid registration of a token by a user, a push to that
    user goes to the token, and a push to any other user does not: a
    token that belonged to someone else has changed hands. *)
Theorem registerDeviceToken_changes_hands env userId token platform_ deviceId_ st :
  unique_tokens st ->
  registration_ok userId platform_ = true ->
  token <> "" ->
  let st' := snd (PushService.registerDeviceToken env userId token platform_ deviceId_ st) in
  token ∈ active_tokens st' userId /\
  forall other, mkObjectId other <> mkObjectId userId -> token ∉ active_tokens st' other.
Proof.
  intros Hu Hok Hne st'.
  assert (Hu' : unique_tokens st') by (by apply registerDeviceToken_keeps_unique).
  assert (Hrec : exists d0, d0 ∈ deviceTokens st' /\ fcmToken d0 = token /\
                            dt_userId d0 = mkObjectId userId /\ isActive d0 = true).
  { subst st'.
    destruct (List.find (has_token token) (deviceTokens st)) as [existing|] eqn:Hfind.
    - rewrite (registerDeviceToken_existing _ _ _ _ _ _ _ Hfind), Hok. cbn.
      assert (Hnew : List.find (has_token token)
                       (update_first (has_token token)
                          (reassigned env userId platform_ deviceId_) (deviceTokens st))
                     = Some (reassigned env userId platform_ deviceId_ existing)).
      { rewrite find_update_first by (by intros x Hx). by rewrite Hfind. }
      apply find_some in Hnew as [Hin Hhas]. apply String.eqb_eq in Hhas.
      eexists. split; [by apply list_elem_of_In|]. by repeat split.
    - rewrite (registerDeviceToken_new _ _ _ _ _ _ Hfind), Hok.
      destruct (String.eqb_spec token "") as [|_]; [done|]. cbn.
      eexists. split; [apply elem_of_app; right; by left|]. by repeat split. }
  destruct Hrec as (d0 & Hd0 & Ht0 & Hu0 & Ha0).
  split.
  - apply active_tokens_elem. by exists d0.
  - intros other Hother (d & Hd & Ht & Hud & _)%active_tokens_elem.
    assert (d = d0) by (apply (unique_same_token _ _ _ Hu' Hd Hd0); congruence).
    subst d. congruence.
Qed.

Lemma registerDeviceToken_changes_hands_witness :
  let st' := snd (PushService.registerDeviceToken (at_time 20) bob "tok-a" JUndefined None devices) in
  active_tokens devices alice = ["tok-a"] /\
  "tok-a" ∈ active_tokens st' bob /\ "tok-a" ∉ active_tokens st' alice.
Proof.
  intros st'. split; [reflexivity|].
  destruct (registerDeviceToken_changes_hands (at_time 20) bob "tok-a" JUndefined None devices)
    as [Hin Hout].
  { unfold unique_tokens. cbn. apply NoDup_ListNoDup.
    repeat (constructor; [cbn; intuition discriminate|]). constructor. }
  { reflexivity. }
  { discriminate. }
  split; [exact Hin|]. apply Hout. discriminate.
Defined.

Lemma update_many_Forall2 {A} (R : A -> A -> Prop) (p : A -> bool) (f : A -> A) (l : list A) :
  (forall x, R x x) -> (forall x, p x = true -> R x (f x)) ->
  Forall2 R l (update_many p f l).
Proof.
  intros Hrefl Hf. induction l as [|x l IH]; [constructor|].
  simpl. constructor; [|exact IH]. destruct (p x) eqn:Hx; [by apply Hf|apply Hrefl].
Qed.

Lemma Forall2_refl {A} (R : A -> A -> Prop) (l : list A) :
  (forall x, R x x) -> Forall2 R l l.
Proof. intros H. induction l; constructor; auto. Qed.

(** X5. Whatever the provider does, a push changes nothing but device
    tokens, and of those it keeps every record, in order, with its token,
    owner, platform and device: the one thing it can do to a record is
    deactivate it. It never activates a token and never adds or removes
    one. *)
Theorem sendPushToUser_only_deactivates env userId notification st :
  let st' := snd (PushService.sendPushToUser env userId notification st) in
  Forall2 at_most_deactivated (deviceTokens st) (deviceTokens st') /\
  same_but_tokens st' st /\
  (unique_tokens st -> unique_tokens st').
Proof.
  intros st'.
  assert (Hrefl : forall d, at_most_deactivated d d) by (by repeat split).
  assert (HF : Forall2 at_most_deactivated (deviceTokens st) (deviceTokens st')).
  { subst st'. unfold PushService.sendPushToUser.
    destruct (firebaseInitialized st); [|by apply Forall2_refl]. cbn [negb].
    unfold try_catch, PushService.sendPushToUser_try, bind,
      PushService.DeviceToken_find_active.
    destruct (isValid userId); [|by apply Forall2_refl].
    destruct (length _ =? 0)%nat; [by apply Forall2_refl|].
    unfold PushService.call_provider.
    destruct (sendEachForMulticast env _) as [r|e]; [|by apply Forall2_refl].
    unfold ret. destruct (failureCount r >? 0); [|by apply Forall2_refl].
    destruct (0 <? length _)%nat; [|by apply Forall2_refl].
    cbn. apply update_many_Forall2; [exact Hrefl|].
    intros d _. unfold at_most_deactivated. cbn. by repeat split. }
  split; [exact HF|]. split; [apply sendPushToUser_same_but_tokens|].
  unfold unique_tokens. intros Hu.
  assert (Heq : map fcmToken (deviceTokens st') = map fcmToken (deviceTokens st)).
  { clear -HF. induction HF as [|d d' l l' Hd HF IH]; [reflexivity|]. simpl.
    destruct Hd as [-> _]. by rewrite IH. }
  by rewrite Heq.
Qed.

Lemma sendPushToUser_only_deactivates_witness :
  Forall2 at_most_deactivated (deviceTokens devices)
          (deviceTokens (snd (PushService.sendPushToUser (partly_failing 10) bob hello devices))) /\
  unique_tokens (snd (PushService.sendPushToUser (partly_failing 10) bob hello devices)).
Proof.
  destruct (sendPushToUser_only_deactivates (partly_failing 10) bob hello devices)
    as (HF & _ & Hu).
  split; [exact HF|]. apply Hu.
  unfold unique_tokens. cbn. apply NoDup_ListNoDup.
  repeat (constructor; [cbn; intuition discriminate|]). constructor.
Defined.

(** X6. After the provider's answer with failures, the tokens a next push
    would go to, for this user or any other, are the tokens it would have
    gone to before, without those the answer reported as permanently
    invalid. *)
Theorem sendPushToUser_drops_invalid env userId notification st r :
  firebaseInitialized st = true ->
  isValid userId = true ->
  active_tokens st userId <> [] ->
  sendEachForMulticast env (active_tokens st userId) = Answered r ->
  0 < failureCount r ->
  let st' := snd (PushService.sendPushToUser env userId notification st) in
  forall other token,
    token ∈ active_tokens st' other <->
    token ∈ active_tokens st other /\
    ~ reported_invalid (active_tokens st userId) (responses r) token.
Proof.
  intros Hfb Hv Hne Hr Hfail st' other token. subst st'.
  rewrite (sendPushToUser_answered env userId notification st r) by assumption.
  destruct (Z.gtb_spec (failureCount r) 0) as [_|]; [|lia]. cbn [snd].
  set (failed := PushService.collect_failed _ 0 (responses r)).
  assert (Hfailed : forall t, PushService.string_in failed t = true <->
                              reported_invalid (active_tokens st userId) (responses r) t).
  { intros t. unfold failed. by rewrite string_in_iff, collect_failed_reported. }
  rewrite !active_tokens_elem. cbn. unfold update_many. split.
  - intros (d' & Hd' & Ht & Hu & Ha).
    apply list_elem_of_fmap in Hd' as (d & -> & Hd).
    destruct (PushService.string_in failed (fcmToken d)) eqn:Hin; [discriminate|].
    split; [by exists d|]. intros Hrep. apply Hfailed in Hrep. congruence.
  - intros [(d & Hd & Ht & Hu & Ha) Hnot].
    exists d. split; [|done].
    apply list_elem_of_fmap. exists d. split; [|exact Hd].
    destruct (PushService.string_in failed (fcmToken d)) eqn:Hin; [|reflexivity].
    exfalso. apply Hnot, Hfailed. by rewrite <- Ht.
Qed.

Lemma sendPushToUser_drops_invalid_witness :
  active_tokens devices bob = ["tok-1"; "tok-2"; "tok-3"] /\
  ("tok-2" ∉ active_tokens
               (snd (PushService.sendPushToUser (partly_failing 10) bob hello devices)) bob) /\
  "tok-3" ∈ active_tokens
              (snd (PushService.sendPushToUser (partly_failing 10) bob hello devices)) bob.
Proof.
  split; [reflexivity|].
  assert (Hne : active_tokens devices bob <> []) by discriminate.
  assert (Hfail : 0 < 2) by reflexivity.
  pose proof (sendPushToUser_drops_invalid (partly_failing 10) bob hello devices _
                eq_refl eq_refl Hne eq_refl Hfail) as H.
  cbv zeta in H. split.
  - intros Hin. apply H in Hin as [_ Hnot]. apply Hnot.
    exists 1%nat, (mkSendResponse false (Some "messaging/registration-token-not-registered")).
    repeat split. by right.
  - apply H. split.
    + apply list_elem_of_In. vm_compute. tauto.
    + intros (idx & resp & Hi & Hr & Hs & Hc).
      destruct idx as [|[|[|idx]]]; cbn in Hi, Hr; try discriminate.
      injection Hr as <-. cbn in Hc. destruct Hc; discriminate.
Defined.

(** ** Paging through the history *)

Lemma asks_page_run req st c p l :
  asks_page req st c p l ->
  (1 <= p)%nat /\ (1 <= l <= 50)%nat /\
  getMessages req st =
    (Json 200
       (mkMessagesPage (reverse (take l (drop ((p - 1) * l) (newest_of c st))))
                       (Some (conv_id c)) (Z.of_nat p)
                       (bool_decide (p * l < length (newest_of c st))%nat)),
     st).
Proof.
  intros (Hu & Hr & Hc & Hp & Hl & _).
  pose proof (page_of_range req _ Hp). pose proof (limit_of_range req).
  assert (Hp1 : (1 <= p)%nat) by lia. assert (Hl1 : (1 <= l <= 50)%nat) by lia.
  split; [exact Hp1|]. split; [exact Hl1|].
  rewrite (getMessages_found req st c Hu Hr Hc). cbv zeta. fold (newest_of c st).
  rewrite Hp, Hl. cbn [skip_of skipped].
  replace (Z.to_nat ((Z.of_nat p - 1) * Z.of_nat l)) with ((p - 1) * l)%nat by nia.
  rewrite Nat2Z.id. rewrite take_take. replace (l `min` S l)%nat with l by lia.
  do 3 f_equal. apply bool_decide_ext. rewrite length_drop. nia.
Qed.

(** X7. A page of [getMessages]: page [p] with limit [l] holds the
    messages at ranks [(p - 1) * l] to [p * l - 1] of the conversation's
    newest-first order, oldest first, and [hasMore] says exactly that more
    than [p * l] messages are stored: when it is [false] the page ends
    with the oldest message, and a page past the end is empty. *)
Theorem getMessages_page req st c p l :
  asks_page req st c p l ->
  exists page,
    getMessages req st = (Json 200 page, st) /\
    mp_messages page = reverse (take l (drop ((p - 1) * l) (newest_of c st))) /\
    (mp_hasMore page = true <-> (p * l < length (newest_of c st))%nat) /\
    length (mp_messages page)
      = (l `min` (length (newest_of c st) - (p - 1) * l))%nat /\
    (mp_hasMore page = false ->
       reverse (mp_messages page) = drop ((p - 1) * l) (newest_of c st)) /\
    newest_of c st ≡ₚ
      List.filter (fun m => oid_eqb (conversationId m) (conv_id c)) (messages st).
Proof.
  intros H. destruct (asks_page_run req st c p l H) as (Hp & Hl & Hrun).
  eexists. split; [exact Hrun|]. cbn [mp_messages mp_hasMore].
  split; [reflexivity|]. split; [apply bool_decide_eq_true|].
  split; [by rewrite length_reverse, length_take, length_drop|].
  split; [|apply merge_sort_Permutation].
  intros Hmore. apply bool_decide_eq_false in Hmore.
  rewrite reverse_involutive. apply take_ge. rewrite length_drop. nia.
Qed.

Lemma getMessages_page_witness :
  exists page,
    getMessages (get_messages alice bob (Some "2") (Some "10")) (history 25)
      = (Json 200 page, history 25) /\
    map createdAt (mp_messages page) = map Z.of_nat (seq 5 10) /\
    mp_hasMore page = true.
Proof.
  destruct (getMessages_page (get_messages alice bob (Some "2") (Some "10")) (history 25)
              (chat_ab ∅) 2 10) as (page & Hrun & Hm & Hmore & _).
  { by repeat split. }
  exists page. split; [exact Hrun|]. split.
  - rewrite Hm. vm_compute. reflexivity.
  - apply Hmore. vm_compute. lia.
Defined.

Lemma take_then_take {A} (l : list A) (a b : nat) :
  (take a l ++ take b (drop a l))%list = take (a + b) l.
Proof.
  revert l. induction a as [|a IH]; intros l; [by rewrite drop_0|].
  destruct l as [|x l]; [by rewrite drop_nil, !take_nil|]. simpl. by rewrite IH.
Qed.

Lemma take_pages {A} (l : list A) (n k : nat) :
  concat (map (fun i => take k (drop (i * k) l)) (seq 0 n)) = take (n * k) l.
Proof.
  induction n as [|n IH]; [reflexivity|].
  rewrite seq_S, map_app, concat_app, IH. simpl. rewrite app_nil_r.
  rewrite take_then_take. f_equal. lia.
Qed.

(** X8. Walking the pages 1, 2, ..., [n] of a conversation with one limit
    returns its [n * limit] newest messages, each once and in order: no
    message is skipped between two pages and none is returned twice. *)
Theorem getMessages_pages_cover (reqs : list Request) st c l :
  (forall i req, reqs !! i = Some req -> asks_page req st c (S i) l) ->
  concat (map (fun req => page_items req st) reqs)
    = take (length reqs * l) (newest_of c st).
Proof.
  intros H. rewrite <- take_pages.
  assert (Hitems : forall i req, reqs !! i = Some req ->
             page_items req st = take l (drop (i * l) (newest_of c st))).
  { intros i req Hi. destruct (asks_page_run req st c (S i) l (H i req Hi)) as (_ & _ & Hrun).
    unfold page_items. rewrite Hrun. cbn [fst mp_messages]. rewrite reverse_involutive.
    by replace (S i - 1)%nat with i by lia. }
  clear H. revert Hitems. generalize (newest_of c st) as sorted. intros sorted.
  induction reqs as [|req reqs IH] using rev_ind; intros Hitems; [reflexivity|].
  rewrite length_app. simpl. rewrite Nat.add_1_r, seq_S, !map_app, !concat_app. simpl.
  rewrite !app_nil_r. f_equal.
  - apply IH. intros i r Hi. apply Hitems. by apply lookup_app_l_Some.
  - apply Hitems. rewrite lookup_app_r by lia. by rewrite Nat.sub_diag.
Qed.

Lemma getMessages_pages_cover_witness :
  map createdAt
      (page_items (get_messages alice bob (Some "1") (Some "10")) (history 25)
       ++ page_items (get_messages alice bob (Some "2") (Some "10")) (history 25)
       ++ page_items (get_messages alice bob (Some "3") (Some "10")) (history 25))
    = map Z.of_nat (reverse (seq 0 25)).
Proof.
  pose proof (getMessages_pages_cover
                [get_messages alice bob (Some "1") (Some "10");
                 get_messages alice bob (Some "2") (Some "10");
                 get_messages alice bob (Some "3") (Some "10")]
                (history 25) (chat_ab ∅) 10) as H.
  cbn [map concat length] in H. rewrite app_nil_r in H.
  rewrite H.
  - vm_compute. reflexivity.
  - intros [|[|[|i]]] req Hi; cbn in Hi; try discriminate; injection Hi as <-;
      by repeat split.
Defined.

(** ** [sendMessage] in two halves *)

Lemma sendMessage_stores env req st :
  passes_checks req ->
  ChatController.sendMessage env req st =
    match store_message {[ js_String (param_recipientId req) := 1 ]} env req st with
    | (Returned (c, m, _), st') => (Json 201 (mkSent true (payload_of c m)), st')
    | (Thrown _, st') => (Fail 500 "Server error", st')
    end.
Proof.
  intros (Hu & Hr & Hc).
  unfold ChatController.sendMessage, store_message, handler. rewrite Hu, Hr, Hc.
  cbv zeta. unfold bind.
  destruct (messageText_of _ st) as [[messageText|e] st1]; [|reflexivity].
  destruct (replyToData_of _ st1) as [[replyToData|e] st2]; [|reflexivity].
  destruct (Conversation_findOne _ st2) as [[found|e] st3]; [|reflexivity].
  destruct (match found with Some c => ret c | None => _ end st3)
    as [[conversation|e] st4]; [|reflexivity].
  destruct (Message_create _ _ st4) as [[message|e] st5]; [|reflexivity].
  destruct (Conversation_findByIdAndUpdate _ _ st5) as [[[]|e] st6]; reflexivity.
Qed.

Lemma sendMessage_stores_delivers env req st :
  passes_checks req ->
  ChatControllerPush.sendMessage env req st =
    match store_message ∅ env req st with
    | (Returned (c, m, pv), st') =>
        (Json 201 (mkSent true (payload_of c m)), snd (deliver env req c m pv st'))
    | (Thrown _, st') => (Fail 500 "Server error", st')
    end.
Proof.
  intros (Hu & Hr & Hc).
  unfold ChatControllerPush.sendMessage, store_message, deliver, handler.
  rewrite Hu, Hr, Hc. cbv zeta. unfold bind.
  destruct (messageText_of _ st) as [[messageText|e] st1]; [|reflexivity].
  destruct (replyToData_of _ st1) as [[replyToData|e] st2]; [|reflexivity].
  destruct (Conversation_findOne _ st2) as [[found|e] st3]; [|reflexivity].
  destruct (match found with Some c => ret c | None => _ end st3)
    as [[conversation|e] st4]; [|reflexivity].
  destruct (Message_create _ _ st4) as [[message|e] st5]; [|reflexivity].
  destruct (Conversation_findByIdAndUpdate _ _ st5) as [[[]|e] st6]; [|reflexivity].
  unfold User_findById, ChatControllerPush.detached, ChatControllerPush.emitToUser, ret.
  cbn [fst snd]. destruct (io _); reflexivity.
Qed.

Lemma sendMessage_rejects env req st :
  ~ passes_checks req ->
  snd (ChatController.sendMessage env req st) = st /\
  snd (ChatControllerPush.sendMessage env req st) = st /\
  status_of (fst (ChatController.sendMessage env req st)) <> 201 /\
  status_of (fst (ChatControllerPush.sendMessage env req st)) <> 201.
Proof.
  intros H. unfold ChatController.sendMessage, ChatControllerPush.sendMessage, handler.
  unfold passes_checks in H.
  destruct (bad_id (getReqUserId req)); [by repeat split|].
  destruct (bad_id (param_recipientId req)); [by repeat split|].
  destruct (check_content req); [by repeat split|]. by destruct H.
Qed.

Lemma messageText_of_cases text st :
  (exists e, messageText_of text st = (Thrown e, st)) \/
  (messageText_of text st = (Returned (match text with JStr s => trim s | _ => "" end), st)
   /\ trim (match text with JStr s => trim s | _ => "" end)
      = match text with JStr s => trim s | _ => "" end).
Proof.
  unfold messageText_of. destruct text as [| |b|n|s|]; simpl.
  - right. by split.
  - right. by split.
  - destruct b; [left; by eexists|right; by split].
  - destruct (n =? 0); simpl; [right; by split|left; by eexists].
  - destruct (String.eqb_spec s "") as [->|]; simpl; right; (split; [reflexivity|]).
    + reflexivity.
    + apply trim_idem.
  - left. by eexists.
Qed.

Lemma replyToData_of_cases replyTo st :
  (exists e, replyToData_of replyTo st = (Thrown e, st)) \/
  (exists x, replyToData_of replyTo st = (Returned x, st)).
Proof.
  unfold replyToData_of. destruct replyTo as [r|]; [|right; by eexists].
  destruct (present (rti_id r) && truthy (rti_text r)); [|right; by eexists].
  unfold bind, new_ObjectId.
  destruct (isValid (js_String (rti_id r))); [|left; by eexists].
  unfold ret. destruct (present (rti_senderId r)); [|right; by eexists].
  destruct (isValid (js_String (rti_senderId r))); [right|left]; by eexists.
Qed.

Lemma Message_create_cases env d st :
  (exists e, Message_create env d st = (Thrown e, st)) \/
  (exists t url reply,
      cast_messageType (md_messageType d) = Some t /\
      Message_create env d st =
        (Returned (mkMessage (newMessageId env) (md_conversationId d) (md_senderId d)
                             (md_receiverId d) t (trim (md_text d)) url
                             (md_voiceDuration d) reply false None (now env)),
         add_message (mkMessage (newMessageId env) (md_conversationId d) (md_senderId d)
                                (md_receiverId d) t (trim (md_text d)) url
                                (md_voiceDuration d) reply false None (now env))
                     st)).
Proof.
  unfold Message_create.
  destruct (cast_messageType (md_messageType d)) as [t|]; [|left; by eexists].
  destruct (cast_String (md_voiceUrl d)) as [url|]; [|left; by eexists].
  destruct (cast_replyTo (md_replyTo d)) as [reply|]; [|left; by eexists].
  right. by exists t, url, reply.
Qed.

(** [store_message] ends in one of the four ways. *)
Lemma store_message_stored unread0 env req st :
  stored unread0 env req st (store_message unread0 env req st).
Proof.
  unfold store_message. cbv zeta. unfold bind at 1.
  destruct (messageText_of_cases (body_text req) st) as [[e ->]|[-> Htrim]];
    [constructor|].
  fold (stored_text req) in *.
  unfold bind at 1.
  destruct (replyToData_of_cases (body_replyTo req) st) as [[e ->]|[reply ->]];
    [constructor|].
  unfold bind at 1. unfold Conversation_findOne at 1.
  destruct (List.find _ (conversations st)) as [c|] eqn:Hfind.
  - unfold bind at 1. unfold ret at 1. unfold bind at 1.
    destruct (Message_create_cases env
                (messageData_of req c (mkObjectId (js_String (getReqUserId req)))
                   (mkObjectId (js_String (param_recipientId req)))
                   (stored_text req) reply) st) as [[e ->]|(t & url & rp & Ht & ->)];
      [constructor|].
    cbn [messageData_of md_conversationId md_senderId md_receiverId md_text
         md_voiceDuration md_replyTo md_messageType] in *.
    unfold bind, Conversation_findByIdAndUpdate, modify, ret.
    apply (stored_in_found unread0 env req st c); [exact Hfind|].
    unfold message_for. cbn. by repeat split.
  - unfold bind at 1. unfold Conversation_create at 1. unfold bind at 1.
    unfold modify at 1. unfold ret at 1. unfold bind at 1.
    fold (new_conversation unread0 env req).
    fold (add_conversation (new_conversation unread0 env req) st).
    destruct (Message_create_cases env
                (messageData_of req (new_conversation unread0 env req)
                   (mkObjectId (js_String (getReqUserId req)))
                   (mkObjectId (js_String (param_recipientId req)))
                   (stored_text req) reply)
                (add_conversation (new_conversation unread0 env req) st))
      as [[e ->]|(t & url & rp & Ht & ->)];
      [by apply stored_conversation_only|].
    cbn [messageData_of md_conversationId md_senderId md_receiverId md_text
         md_voiceDuration md_replyTo md_messageType] in *.
    unfold bind, Conversation_findByIdAndUpdate, modify, ret.
    apply (stored_in_new unread0 env req st); [exact Hfind|].
    unfold message_for. cbn. by repeat split.
Qed.

Lemma deliver_same_chats env req c m pv st :
  same_chats (snd (deliver env req c m pv st)) st.
Proof.
  destruct (delivery_same_chats (mkObjectId (js_String (getReqUserId req)))
              (fun sender =>
                 PushService.sendNewMessageNotification env
                   (js_String (param_recipientId req))
                   (mkObjectId (js_String (getReqUserId req)))
                   (sender ≫= name) pv (conv_id c))
              (js_String (param_recipientId req)) "new_message" (payload_of c m)
              (js_String (getReqUserId req)) tt st) as (st' & Hrun & Hsame).
  { intros sender st0. apply sendPushToUser_same_chats. }
  assert (E : snd (deliver env req c m pv st) = st'); [|by rewrite E].
  unfold deliver, bind in *. unfold bind in Hrun.
  destruct (User_findById _ st) as [[sender|e] s1]; [|discriminate].
  destruct (ChatControllerPush.detached _ s1) as [[[]|e] s2]; [|discriminate].
  destruct (ChatControllerPush.emitToUser _ _ _ _ s2) as [[[]|e] s3]; [|discriminate].
  by injection Hrun.
Qed.

(** The chats that an accepted [sendMessage] leaves, in either revision. *)
Lemma sendMessage_accepted env req st :
  (status_of (fst (ChatController.sendMessage env req st)) = 201 ->
   exists c m pv st',
     passes_checks req /\
     store_message {[ js_String (param_recipientId req) := 1 ]} env req st
       = (Returned (c, m, pv), st') /\
     ChatController.sendMessage env req st
       = (Json 201 (mkSent true (payload_of c m)), st')) /\
  (status_of (fst (ChatControllerPush.sendMessage env req st)) = 201 ->
   exists c m pv st',
     passes_checks req /\
     store_message ∅ env req st = (Returned (c, m, pv), st') /\
     ChatControllerPush.sendMessage env req st
       = (Json 201 (mkSent true (payload_of c m)), snd (deliver env req c m pv st'))).
Proof.
  assert (Hdec : passes_checks req \/ ~ passes_checks req).
  { unfold passes_checks.
    destruct (bad_id (getReqUserId req)); [right; by intros (? & _)|].
    destruct (bad_id (param_recipientId req)); [right; by intros (_ & ? & _)|].
    destruct (check_content req); [right; by intros (_ & _ & ?)|by left]. }
  destruct Hdec as [Hp|Hn].
  - split; intros H201.
    + rewrite (sendMessage_stores env req st Hp) in *.
      destruct (store_message _ env req st) as [[[[c m] pv]|e] st']; [|discriminate].
      by exists c, m, pv, st'.
    + rewrite (sendMessage_stores_delivers env req st Hp) in *.
      destruct (store_message _ env req st) as [[[[c m] pv]|e] st']; [|discriminate].
      by exists c, m, pv, st'.
  - destruct (sendMessage_rejects env req st Hn) as (_ & _ & H1 & H2).
    split; intros H; congruence.
Qed.

(** X9. An accepted message to a pair that has a conversation raises the
    recipient's unread counter by exactly one, in both revisions of the
    controller: the conversation gets the new preview, sender and time,
    its other counters and its participants stay, and no other
    conversation changes. *)
Theorem sendMessage_counts_one env req st c :
  List.find (has_all_participants
               [mkObjectId (js_String (getReqUserId req));
                mkObjectId (js_String (param_recipientId req))])
            (conversations st) = Some c ->
  List.find (fun x => oid_eqb (conv_id x) (conv_id c)) (conversations st) = Some c ->
  let recipient := js_String (param_recipientId req) in
  let counted := fun st' =>
    exists c',
      List.find (fun x => oid_eqb (conv_id x) (conv_id c)) (conversations st') = Some c' /\
      unreadCount c' = <[recipient := num_or (unreadCount c !! recipient) 0 + 1]>
                         (unreadCount c) /\
      lm_text (lastMessage c')
        = previewText_of (messageType_of req) (stored_text req) /\
      lm_senderId (lastMessage c') = Some (mkObjectId (js_String (getReqUserId req))) /\
      updatedAt c' = now env /\
      participants c' = participants c /\
      conversations st'
        = update_first (fun x => oid_eqb (conv_id x) (conv_id c)) (fun _ => c')
                       (conversations st) in
  (status_of (fst (ChatController.sendMessage env req st)) = 201 ->
   counted (snd (ChatController.sendMessage env req st))) /\
  (status_of (fst (ChatControllerPush.sendMessage env req st)) = 201 ->
   counted (snd (ChatControllerPush.sendMessage env req st))).
Proof.
  intros Hpair Hid recipient counted.
  assert (Hstored : forall unread0 c0 m pv st',
             store_message unread0 env req st = (Returned (c0, m, pv), st') ->
             forall st'', same_chats st'' st' -> counted st'').
  { intros unread0 c0 m pv st' Hrun st'' (Hcs & _ & _).
    pose proof (store_message_stored unread0 env req st) as Hs. rewrite Hrun in Hs.
    inversion Hs as [| |c1 m1 Hf Hm|m1 Hf Hm]; subst; [|congruence].
    assert (c0 = c) by congruence. subst c0.
    unfold counted. exists (bump env req c m c).
    rewrite Hcs. unfold bump_conversation, add_message. cbn.
    rewrite find_update_first by (by intros x Hx). rewrite Hid.
    split; [reflexivity|]. split; [reflexivity|]. split; [reflexivity|].
    split; [reflexivity|]. split; [reflexivity|]. split; [reflexivity|].
    clear -Hid. induction (conversations st) as [|x l IH]; [reflexivity|].
    simpl in *. destruct (oid_eqb (conv_id x) (conv_id c)); [congruence|].
    by rewrite IH. }
  destruct (sendMessage_accepted env req st) as [Hold Hnew]. split; intros H201.
  - destruct (Hold H201) as (c0 & m & pv & st' & _ & Hrun & ->). cbn [snd].
    apply (Hstored _ _ _ _ _ Hrun). by repeat split.
  - destruct (Hnew H201) as (c0 & m & pv & st' & _ & Hrun & ->). cbn [snd].
    apply (Hstored _ _ _ _ _ Hrun). apply deliver_same_chats.
Qed.

Lemma sendMessage_counts_one_witness :
  let req := post_message alice bob (JStr ("again " ++ nbsp)) JUndefined JUndefined in
  let old := snd (ChatController.sendMessage (at_time 50) req busy_chat) in
  let new := snd (ChatControllerPush.sendMessage (at_time 50) req busy_chat) in
  map (fun c => (unreadCount c !! bob, unreadCount c !! alice, lm_text (lastMessage c)))
      (conversations old) = [(Some 4, Some 1, "again")] /\
  map (fun c => (unreadCount c !! bob, unreadCount c !! alice, lm_text (lastMessage c)))
      (conversations new) = [(Some 4, Some 1, "again")].
Proof.
  intros req old new.
  destruct (sendMessage_counts_one (at_time 50) req busy_chat
              (chat_ab {[ bob := 3; alice := 1 ]}) eq_refl eq_refl) as [Hold Hnew].
  destruct (Hold eq_refl) as (c1 & _ & Hu1 & Ht1 & _ & _ & _ & Hc1).
  destruct (Hnew eq_refl) as (c2 & _ & Hu2 & Ht2 & _ & _ & _ & Hc2).
  subst old new. rewrite Hc1, Hc2. cbn [update_first busy_chat store_of conversations].
  cbn [conv_id chat_ab oid_eqb]. rewrite string_eqb_refl. cbn [map].
  rewrite Hu1, Ht1, Hu2, Ht2. split; vm_compute; reflexivity.
Defined.

Lemma has_all_participants_twice a c :
  has_all_participants [a; a] c = has_participant a c.
Proof. unfold has_all_participants. simpl. by rewrite andb_true_r, andb_diag. Qed.

(** The chats after [store_message] has returned. *)
Lemma store_message_returned unread0 env req st c m pv st' :
  store_message unread0 env req st = (Returned (c, m, pv), st') ->
  let pair := has_all_participants
                [mkObjectId (js_String (getReqUserId req));
                 mkObjectId (js_String (param_recipientId req))] in
  message_for env req c m /\
  messages st' = (messages st ++ [m])%list /\
  pv = previewText_of (messageType_of req) (stored_text req) /\
  (List.find pair (conversations st) = Some c /\
   conversations st'
     = update_first (fun x => oid_eqb (conv_id x) (conv_id c)) (bump env req c m)
                    (conversations st)
   \/
   List.find pair (conversations st) = None /\ c = new_conversation unread0 env req /\
   conversations st'
     = update_first (fun x => oid_eqb (conv_id x) (conv_id c)) (bump env req c m)
                    (conversations st ++ [c])).
Proof.
  intros Hrun pair.
  pose proof (store_message_stored unread0 env req st) as Hs. rewrite Hrun in Hs.
  inversion Hs as [| |c1 m1 Hf Hm|m1 Hf Hm]; subst.
  - split; [exact Hm|]. split; [reflexivity|]. split; [reflexivity|]. left. by split.
  - split; [exact Hm|]. split; [reflexivity|]. split; [reflexivity|]. right. by repeat split.
Qed.

(** X10. A message to oneself does not get a conversation of its own when
    the sender has any conversation: it is stored, with the sender as
    receiver, in the first conversation the sender takes part in, whoever
    that conversation is with, and no conversation is created. Both
    revisions of the controller do so. *)
Theorem sendMessage_to_oneself env req st c :
  mkObjectId (js_String (param_recipientId req))
    = mkObjectId (js_String (getReqUserId req)) ->
  List.find (has_participant (mkObjectId (js_String (getReqUserId req))))
            (conversations st) = Some c ->
  let lands := fun st' =>
    exists m,
      messages st' = (messages st ++ [m])%list /\
      conversationId m = conv_id c /\
      senderId m = receiverId m /\
      length (conversations st') = length (conversations st) in
  (status_of (fst (ChatController.sendMessage env req st)) = 201 ->
   lands (snd (ChatController.sendMessage env req st))) /\
  (status_of (fst (ChatControllerPush.sendMessage env req st)) = 201 ->
   lands (snd (ChatControllerPush.sendMessage env req st))).
Proof.
  intros Hself Hfirst lands.
  assert (Hstored : forall unread0 c0 m pv st',
             store_message unread0 env req st = (Returned (c0, m, pv), st') ->
             forall st'', same_chats st'' st' -> lands st'').
  { intros unread0 c0 m pv st' Hrun st'' (Hcs & Hms & _).
    destruct (store_message_returned _ _ _ _ _ _ _ _ Hrun) as (Hm & Hmsgs & _ & Hcase).
    rewrite Hself in Hcase.
    rewrite (find_ext _ (has_participant (mkObjectId (js_String (getReqUserId req)))))
      in Hcase by (intros; apply has_all_participants_twice).
    rewrite Hfirst in Hcase.
    destruct Hcase as [[Hc Hconvs]|[Hc _]]; [|discriminate].
    injection Hc as <-. destruct Hm as (_ & Hcid & Hs & Hr & _).
    exists m. rewrite Hms, Hcs, Hmsgs, Hconvs, update_first_length.
    repeat split; [exact Hcid|]. by rewrite Hs, Hr, Hself. }
  destruct (sendMessage_accepted env req st) as [Hold Hnew]. split; intros H201.
  - destruct (Hold H201) as (c0 & m & pv & st' & _ & Hrun & ->). cbn [snd].
    apply (Hstored _ _ _ _ _ Hrun). by repeat split.
  - destruct (Hnew H201) as (c0 & m & pv & st' & _ & Hrun & ->). cbn [snd].
    apply (Hstored _ _ _ _ _ Hrun). apply deliver_same_chats.
Qed.

(** alice's note to herself ends up in her conversation with bob. *)
Lemma sendMessage_to_oneself_witness :
  exists m,
    messages (snd (ChatControllerPush.sendMessage (at_time 50) to_herself (history 1)))
      = (messages (history 1) ++ [m])%list /\
    conversationId m = chat_id /\ participants (chat_ab ∅) = [alice; bob].
Proof.
  destruct (sendMessage_to_oneself (at_time 50) to_herself (history 1) (chat_ab ∅)
              eq_refl eq_refl) as [_ Hnew].
  destruct (Hnew eq_refl) as (m & Hm & Hc & _).
  exists m. by repeat split.
Defined.

(** ** [sendMessage], then [getMessages] *)

Lemma find_update_first_same {A B} (q p : A -> bool) (f : A -> A) (g : A -> B) (l : list A) :
  (forall x, q (f x) = q x) -> (forall x, g (f x) = g x) ->
  g <$> List.find q (update_first p f l) = g <$> List.find q l.
Proof.
  intros Hq Hg. induction l as [|x l IH]; [reflexivity|]. simpl.
  destruct (p x); simpl.
  - rewrite Hq. destruct (q x); simpl; [by rewrite Hg|reflexivity].
  - destruct (q x); [reflexivity|exact IH].
Qed.

Lemma newest_is_first (old : list Message) (m : Message) :
  (forall x, x ∈ old -> createdAt x < createdAt m) ->
  exists rest, merge_sort newest_first (old ++ [m])%list = m :: rest.
Proof.
  intros Hold.
  pose proof (newest_sorted (old ++ [m])) as Hs.
  pose proof (merge_sort_Permutation newest_first (old ++ [m])) as Hp.
  destruct (merge_sort newest_first (old ++ [m])%list) as [|h rest] eqn:E.
  { apply Permutation_length in Hp. rewrite length_app in Hp. simpl in Hp. lia. }
  assert (Hh : h ∈ (old ++ [m])%list) by (rewrite <- Hp; by left).
  assert (Hm : m ∈ h :: rest) by (rewrite Hp; apply elem_of_app; right; by left).
  apply elem_of_app in Hh as [Hh|Hh%list_elem_of_singleton]; [|subst; by eexists].
  apply elem_of_cons in Hm as [->|Hm]; [by eexists|].
  apply StronglySorted_inv in Hs as [_ Hall]. rewrite Forall_forall in Hall.
  specialize (Hall m Hm). unfold newest_first in Hall.
  specialize (Hold h Hh). lia.
Qed.

Lemma filter_app_last (p : Message -> bool) (l : list Message) (m : Message) :
  p m = true -> List.filter p (l ++ [m])%list = (List.filter p l ++ [m])%list.
Proof. intros H. rewrite List.filter_app. simpl. by rewrite H. Qed.

(** The first page of a conversation whose newest message is [m] ends
    with [m]. *)
Lemma getMessages_ends_with req st c m :
  bad_id (getReqUserId req) = false ->
  bad_id (param_recipientId req) = false ->
  List.find (has_all_participants
               [mkObjectId (js_String (getReqUserId req));
                mkObjectId (js_String (param_recipientId req))])
            (conversations st) = Some c ->
  page_of req = 1 ->
  (exists rest, newest_of c st = m :: rest) ->
  exists page,
    getMessages req st = (Json 200 page, st) /\
    last (mp_messages page) = Some m /\
    mp_conversationId page = Some (conv_id c).
Proof.
  intros Hu Hr Hc Hp (rest & Hsorted).
  rewrite (getMessages_found req st c Hu Hr Hc). cbv zeta.
  fold (newest_of c st). rewrite Hsorted, Hp.
  pose proof (limit_of_range req) as Hl.
  destruct (Z.to_nat (limit_of req)) as [|l] eqn:El; [lia|].
  cbn [skip_of skipped].
  change (Z.to_nat ((1 - 1) * limit_of req)) with (Z.to_nat (0 * limit_of req)).
  rewrite Z.mul_0_l. cbn [Z.to_nat drop take].
  eexists. split; [reflexivity|]. cbn [mp_messages mp_conversationId].
  split; [|reflexivity]. change (Z.to_nat 0) with 0%nat. simpl take.
  rewrite reverse_cons. apply last_snoc.
Qed.

(** X11. Sending, then reading: once [sendMessage] has accepted a message
    at a time later than every stored message, the first page that either
    of the two users gets from [getMessages] ends with that message,
    unread, with the sender, the receiver and the trimmed text of the
    request. Both revisions of the controller do so. *)
Theorem sendMessage_then_getMessages env req st req' user other :
  between req user other ->
  between req' user other \/ between req' other user ->
  page_of req' = 1 ->
  (forall x, x ∈ messages st -> createdAt x < now env) ->
  let reads := fun st' =>
    exists page m,
      getMessages req' st' = (Json 200 page, st') /\
      last (mp_messages page) = Some m /\
      mp_conversationId page = Some (conversationId m) /\
      senderId m = mkObjectId user /\ receiverId m = mkObjectId other /\
      text m = stored_text req /\ isRead m = false /\ createdAt m = now env in
  (status_of (fst (ChatController.sendMessage env req st)) = 201 ->
   reads (snd (ChatController.sendMessage env req st))) /\
  (status_of (fst (ChatControllerPush.sendMessage env req st)) = 201 ->
   reads (snd (ChatControllerPush.sendMessage env req st))).
Proof.
  intros (Hu & Hr & Huv & Hrv) Hreq' Hpage Holder reads.
  assert (Hstored : forall unread0 c0 m pv st',
             store_message unread0 env req st = (Returned (c0, m, pv), st') ->
             forall st'', same_chats st'' st' -> reads st'').
  { intros unread0 c0 m pv st' Hrun st'' (Hcs & Hms & _).
    destruct (store_message_returned _ _ _ _ _ _ _ _ Hrun) as (Hm & Hmsgs & _ & Hcase).
    unfold message_for in Hm.
    rewrite Hu, Hr in Hcase, Hm. cbv [js_String default from_option id] in Hcase, Hm.
    destruct Hm as (_ & Hcid & Hs & Hrc & _ & Htext & Hread & _ & Htime).
    set (pair := has_all_participants [mkObjectId user; mkObjectId other]) in *.
    assert (Hfind : conv_id <$> List.find pair (conversations st') = Some (conv_id c0)).
    { destruct Hcase as [[Hf ->]|(Hf & Hc0 & ->)].
      - rewrite (find_update_first_same pair _ _ conv_id); [by rewrite Hf| |];
          by intros x.
      - rewrite (find_update_first_same pair _ _ conv_id); [| |]; try (by intros x).
        rewrite (find_app_none _ _ _ Hf); [reflexivity|].
        subst c0. unfold new_conversation. rewrite Hu, Hr.
        apply has_all_participants_self. }
    destruct (List.find pair (conversations st')) as [c1|] eqn:Hc1; [|discriminate].
    injection Hfind as Hid.
    assert (Hfound : List.find
                       (has_all_participants
                          [mkObjectId (js_String (getReqUserId req'));
                           mkObjectId (js_String (param_recipientId req'))])
                       (conversations st'') = Some c1).
    { rewrite Hcs. destruct Hreq' as [(-> & -> & _)|(-> & -> & _)];
        cbv [js_String default from_option id]; [exact Hc1|].
      rewrite (find_ext _ pair) by (intros; apply has_all_participants_swap).
      exact Hc1. }
    assert (Hbad : bad_id (getReqUserId req') = false /\
                   bad_id (param_recipientId req') = false).
    { destruct Hreq' as [(-> & -> & ? & ?)|(-> & -> & ? & ?)];
        split; by apply valid_not_bad. }
    destruct Hbad as [Hb1 Hb2].
    destruct (getMessages_ends_with req' st'' c1 m Hb1 Hb2 Hfound Hpage)
      as (page & Hget & Hlast & Hcid').
    { unfold newest_of. rewrite Hms, Hmsgs, Hid.
      rewrite filter_app_last by (rewrite Hcid; apply string_eqb_refl).
      apply newest_is_first. intros x Hx. rewrite Htime. apply Holder.
      apply list_elem_of_In, filter_In in Hx as [Hx _]. by apply list_elem_of_In. }
    exists page, m. rewrite Hcid, <- Hid. by repeat split. }
  destruct (sendMessage_accepted env req st) as [Hold Hnew]. split; intros H201.
  - destruct (Hold H201) as (c0 & m & pv & st' & _ & Hrun & ->). cbn [snd].
    apply (Hstored _ _ _ _ _ Hrun). by repeat split.
  - destruct (Hnew H201) as (c0 & m & pv & st' & _ & Hrun & ->). cbn [snd].
    apply (Hstored _ _ _ _ _ Hrun). apply deliver_same_chats.
Qed.

(** alice writes to carol for the first time at time 50, a text with a
    no-break space before it; carol opens the chat and finds the message,
    trimmed. *)
Lemma sendMessage_then_getMessages_witness :
  exists page m,
    getMessages (get_messages carol alice None None)
                (snd (ChatControllerPush.sendMessage (at_time 50)
                        (post_message alice carol (JStr (nbsp ++ " hello ")) JUndefined JUndefined)
                        (history 3)))
      = (Json 200 page,
         snd (ChatControllerPush.sendMessage (at_time 50)
                (post_message alice carol (JStr (nbsp ++ " hello ")) JUndefined JUndefined)
                (history 3))) /\
    last (mp_messages page) = Some m /\ text m = "hello" /\ isRead m = false.
Proof.
  destruct (sendMessage_then_getMessages (at_time 50)
              (post_message alice carol (JStr (nbsp ++ " hello ")) JUndefined JUndefined)
              (history 3) (get_messages carol alice None None) alice carol)
    as [_ Hnew].
  { by repeat split. }
  { right. by repeat split. }
  { reflexivity. }
  { intros x Hx. apply list_elem_of_In in Hx. cbn in Hx.
    destruct Hx as [<-|[<-|[<-|[]]]]; reflexivity. }
  destruct (Hnew eq_refl) as (page & m & Hget & Hlast & _ & _ & _ & Htext & Hread & _).
  exists page, m. by repeat split.
Defined.

(** ** Realtime delivery *)

Lemma store_message_frame unread0 env req st :
  let st' := snd (store_message unread0 env req st) in
  emitted st' = emitted st /\ io st' = io st /\ deviceTokens st' = deviceTokens st /\
  users st' = users st /\ firebaseInitialized st' = firebaseInitialized st.
Proof.
  pose proof (store_message_stored unread0 env req st) as Hs.
  destruct (store_message unread0 env req st) as [o st']. cbn.
  inversion Hs; subst; by repeat split.
Qed.

Lemma sendNewMessageNotification_same_but_tokens env recipientId sender sender_name
    messageText conversationId st :
  same_but_tokens
    (snd (PushService.sendNewMessageNotification env recipientId sender sender_name
            messageText conversationId st)) st.
Proof.
  unfold PushService.sendNewMessageNotification. apply sendPushToUser_same_but_tokens.
Qed.

Lemma deliver_emits env req c m pv st :
  emitted (snd (deliver env req c m pv st))
    = (emitted st
       ++ if io st
          then [mkEmit ("user:" ++ js_String (param_recipientId req)) "new_message"
                       (payload_of c m) (js_String (getReqUserId req))]
          else [])%list /\
  io (snd (deliver env req c m pv st)) = io st.
Proof.
  unfold deliver, bind, User_findById, ChatControllerPush.detached.
  set (push := PushService.sendNewMessageNotification _ _ _ _ _ _).
  destruct (sendNewMessageNotification_same_but_tokens env
              (js_String (param_recipientId req))
              (mkObjectId (js_String (getReqUserId req)))
              (List.find (fun u => oid_eqb (user_id u)
                                     (mkObjectId (js_String (getReqUserId req))))
                         (users st) ≫= name) pv (conv_id c) st)
    as (_ & _ & _ & _ & Hio & Hem).
  fold push in Hio, Hem. cbn [fst snd].
  unfold ChatControllerPush.emitToUser. rewrite Hio.
  destruct (io st); cbn; [by rewrite Hem|by rewrite app_nil_r, Hem].
Qed.

(** X12. The revision with push delivery emits [new_message] exactly when
    it answers 201, and then once: the event goes to the room
    [user:<recipientId>], which is the room that a socket joins whose
    token names the recipient, and it carries the message of the answer
    and the sender's id. When the socket server is not running, or the
    request is refused or fails, nothing is emitted. *)
Theorem sendMessage_emits_once env req st :
  let run := ChatControllerPush.sendMessage env req st in
  let recipient := js_String (param_recipientId req) in
  io (snd run) = io st /\
  match fst run with
  | Json _ sent =>
      status_of (fst run) = 201 /\
      emitted (snd run)
        = (emitted st
           ++ if io st
              then [mkEmit ("user:" ++ recipient) "new_message" (sent_message sent)
                           (js_String (getReqUserId req))]
              else [])%list /\
      p_receiverId (sent_message sent) = mkObjectId recipient /\
      forall verify token payload,
        verify token = Some payload -> token <> "" ->
        token_user payload = Some recipient ->
        socket_room verify (Some token) = inr ("user:" ++ recipient)
  | Fail _ _ => emitted (snd run) = emitted st
  end.
Proof.
  intros run recipient. subst run.
  assert (Hdec : passes_checks req \/ ~ passes_checks req).
  { unfold passes_checks.
    destruct (bad_id (getReqUserId req)); [right; by intros (? & _)|].
    destruct (bad_id (param_recipientId req)) eqn:Hr; [right; by intros (_ & ? & _)|].
    destruct (check_content req); [right; by intros (_ & _ & ?)|by left]. }
  destruct Hdec as [Hp|Hn].
  - rewrite (sendMessage_stores_delivers env req st Hp).
    destruct (store_message_frame ∅ env req st) as (Hem & Hio & _).
    destruct (store_message ∅ env req st) as [[[[c m] pv]|e] st'] eqn:Hrun;
      cbn [fst snd] in *; [|by split].
    destruct (deliver_emits env req c m pv st') as [Hemit Hio'].
    split; [by rewrite Hio'|]. split; [reflexivity|].
    split; [by rewrite Hemit, Hem, Hio|]. split.
    + destruct (store_message_returned _ _ _ _ _ _ _ _ Hrun)
        as ((_ & _ & _ & Hrc & _) & _).
      exact Hrc.
    + intros verify token payload Hv Hne Hu. unfold socket_room.
      destruct Hp as (_ & Hbad & _). unfold bad_id in Hbad.
      destruct (param_recipientId req) as [r|] eqn:Hr; [|discriminate].
      apply orb_false_iff in Hbad as [Hr0 _].
      unfold present. cbn. destruct (String.eqb_spec token ""); [done|]. cbn.
      rewrite Hv, Hu. subst recipient. cbn in *. by rewrite Hr0.
  - destruct (sendMessage_rejects env req st Hn) as (_ & Hst & _ & H201).
    rewrite Hst. split; [reflexivity|].
    destruct (fst (ChatControllerPush.sendMessage env req st)) as [s sent|s msg] eqn:E;
      [|reflexivity].
    exfalso. unfold ChatControllerPush.sendMessage, handler in E.
    unfold passes_checks in Hn.
    destruct (bad_id (getReqUserId req)); [discriminate|].
    destruct (bad_id (param_recipientId req)); [discriminate|].
    destruct (check_content req); [discriminate|]. by apply Hn.
Qed.

Lemma sendMessage_emits_once_witness :
  map (fun e => (em_room e, em_event e, p_text (em_message e), em_senderId e))
      (emitted (snd (ChatControllerPush.sendMessage (at_time 50)
                       (post_message bob alice (JStr "hi") JUndefined JUndefined) online)))
    = [("user:" ++ alice, "new_message", "hi", bob)] /\
  socket_room knows_alice (Some "alice-token") = inr ("user:" ++ alice).
Proof.
  pose proof (sendMessage_emits_once (at_time 50)
                (post_message bob alice (JStr "hi") JUndefined JUndefined) online) as H.
  cbv zeta in H. destruct H as [_ H].
  destruct (fst (ChatControllerPush.sendMessage (at_time 50)
                   (post_message bob alice (JStr "hi") JUndefined JUndefined) online))
    as [s sent|s msg] eqn:E; [|discriminate].
  destruct H as (_ & Hem & _ & Hroom). split.
  - rewrite Hem. cbn [io online emitted app map em_room em_event em_message em_senderId].
    assert (Hsent : p_text (sent_message sent) = "hi").
    { vm_compute in E. by injection E as _ <-. }
    by rewrite Hsent.
  - apply (Hroom knows_alice "alice-token" (mkPayload (Some alice) None None None));
      [reflexivity|discriminate|reflexivity].
Defined.

(** ** Identity *)

Lemma strip_prefix_spec p s r : strip_prefix p s = Some r <-> s = p ++ r.
Proof.
  revert s. induction p as [|a p IH]; intros s; simpl.
  - split; [by intros [= ->]|by intros ->].
  - destruct s as [|b s]; [split; discriminate|].
    destruct (Ascii.eqb_spec a b) as [->|Hne].
    + rewrite IH. split; [by intros ->|by intros [= ->]].
    + split; [discriminate|]. intros [= -> _]. done.
Qed.

Lemma present_iff x : present x = true <-> exists s, x = Some s /\ s <> "".
Proof.
  unfold present. destruct x as [s|]; [|split; [discriminate|by intros (? & ? & _)]].
  destruct (String.eqb_spec s ""); simpl; split; try discriminate.
  - intros (? & [= <-] & ?). done.
  - intros _. by exists s.
  - done.
Qed.

Lemma getReqUserId_set_req_user userId req :
  userId <> "" -> getReqUserId (set_req_user userId req) = Some userId.
Proof.
  intros H. unfold getReqUserId, set_req_user, or_else. cbn.
  by destruct (String.eqb_spec userId "").
Qed.

Lemma bad_id_user userId : userId <> "" -> bad_id (Some userId) = negb (isValid userId).
Proof. intros H. unfold bad_id. cbn. by destruct (String.eqb_spec userId ""). Qed.

Ltac not_401 :=
  apply (handler_answers (fun r => status_of r <> 401)); [|discriminate];
  cbv beta iota zeta; repeat answers_step; discriminate.

(** The handlers answer 401 to a caller whose id is not an object id, and
    to no other caller. *)
Lemma chat_statuses_401 env req file body st userId :
  getReqUserId req = Some userId -> userId <> "" ->
  if isValid userId
  then Forall (fun s => s <> 401) (chat_statuses env req file body st)
  else Forall (fun s => s = 401) (chat_statuses env req file body st).
Proof.
  intros Hu Hne. pose proof (bad_id_user userId Hne) as Hbad. rewrite <- Hu in Hbad.
  unfold chat_statuses, ChatController.getConversations, ChatControllerPush.getConversations,
    getMessages, ChatController.sendMessage, ChatControllerPush.sendMessage, markAsRead,
    startConversation, startConversation_push, startConversation_with, deleteConversations,
    uploadVoice, registerPushToken, unregisterPushToken.
  rewrite Hbad. destruct (isValid userId); cbn [negb].
  - repeat apply Forall_cons_2; try apply Forall_nil_2; not_401.
  - repeat apply Forall_cons_2; try apply Forall_nil_2; reflexivity.
Qed.

Lemma append_same_prefix (p a b : string) : p ++ a = p ++ b -> a = b.
Proof. induction p as [|c p IH]; simpl; [done|]. intros [= H]. by apply IH. Qed.

(** X13. [authRequired] passes a request on exactly when its
    [Authorization] header is [Bearer <token>] with a token that verifies
    and names a user, and answers 401 otherwise. The request it passes on
    differs from the one it got in the caller's identity only, which is
    the user of the token whatever identity fields the request carried,
    and a socket that presents the same token joins that user's room.
    Behind it, every chat handler, [uploadVoice] and the two push-token
    endpoints included, answers 401 when that user id is not an object id,
    and none of them answers 401 when it is. *)
Theorem authRequired_identity verify authorization req :
  match authRequired verify authorization req with
  | inl answer =>
      status_of answer = 401 /\
      ~ exists token payload userId,
          authorization = Some ("Bearer " ++ token) /\ token <> "" /\
          verify token = Some payload /\ token_user payload = Some userId /\
          userId <> ""
  | inr req' =>
      exists token payload userId,
        authorization = Some ("Bearer " ++ token) /\ token <> "" /\
        verify token = Some payload /\ token_user payload = Some userId /\
        userId <> "" /\
        req' = set_req_user userId req /\
        getReqUserId req' = Some userId /\
        socket_room verify (Some token) = inr ("user:" ++ userId) /\
        forall env file body st,
          if isValid userId
          then Forall (fun s => s <> 401) (chat_statuses env req' file body st)
          else Forall (fun s => s = 401) (chat_statuses env req' file body st)
  end.
Proof.
  unfold authRequired. cbv zeta.
  destruct (present (strip_prefix "Bearer " (PushService.text_or authorization "")))
    eqn:Htok; cbn [negb].
  - apply present_iff in Htok as (token & Hstrip & Hne).
    apply strip_prefix_spec in Hstrip.
    assert (Hauth : authorization = Some ("Bearer " ++ token)).
    { unfold PushService.text_or in Hstrip. destruct authorization as [a|]; [|discriminate].
      destruct (String.eqb a ""); [discriminate|by subst]. }
    assert (Hsp : strip_prefix "Bearer " (PushService.text_or authorization "") = Some token).
    { apply strip_prefix_spec. rewrite Hauth. reflexivity. }
    rewrite Hsp. cbn [js_String default from_option id].
    change (default "undefined" (Some token)) with token.
    destruct (verify token) as [payload|] eqn:Hv.
    + destruct (present (token_user payload)) eqn:Hp; cbn [negb].
      * apply present_iff in Hp as (userId & Hu & Hune). rewrite Hu.
        change (js_String (Some userId)) with userId.
        exists token, payload, userId.
        pose proof (getReqUserId_set_req_user userId req Hune) as Hid.
        repeat split; try assumption.
        -- unfold socket_room.
           assert (Hpt : present (Some token) = true)
             by (apply present_iff; by exists token).
           rewrite Hpt. cbn [negb]. change (js_String (Some token)) with token.
           rewrite Hv, Hu.
           assert (Hpu : present (Some userId) = true)
             by (apply present_iff; by exists userId).
           by rewrite Hpu.
        -- intros env file body st. by apply chat_statuses_401.
      * split; [reflexivity|]. intros (t & p & u & Ha & _ & Hv' & Hu & Hune).
        rewrite Hauth in Ha. injection Ha as Ha. apply append_same_prefix in Ha.
        subst t. rewrite Hv in Hv'. injection Hv' as <-.
        assert (present (token_user payload) = true)
          by (apply present_iff; by exists u).
        congruence.
    + split; [reflexivity|]. intros (t & p & u & Ha & _ & Hv' & _).
      rewrite Hauth in Ha. injection Ha as Ha. apply append_same_prefix in Ha.
      subst t. congruence.
  - split; [reflexivity|]. intros (t & p & u & Ha & Hne & _).
    assert (present (strip_prefix "Bearer " (PushService.text_or authorization "")) = true);
      [|congruence].
    apply present_iff. exists t. split; [|exact Hne].
    apply strip_prefix_spec. by rewrite Ha.
Qed.

Lemma authRequired_identity_witness :
  (exists req',
      authRequired knows_alice (Some "Bearer alice-token")
                   (mkRequest None None None None (Some bob) None None None None
                              JUndefined None JUndefined JUndefined None None) = inr req' /\
      getReqUserId req' = Some alice) /\
  authRequired knows_alice (Some "alice-token") (request_of bob)
    = inl (Fail 401 "Unauthorized") /\
  (exists req',
      authRequired knows_uuid (Some "Bearer t") (mark_read_req bob chat_id) = inr req' /\
      status_of (fst (markAsRead (at_time 1) req' three_unread)) = 401 /\
      status_of (fst (uploadVoice (at_time 1) req' (Some (Some "voice/1.m4a")) three_unread))
        = 401 /\
      status_of (fst (registerPushToken (at_time 1) req'
                        (mkTokenBody (Some "tok-9") JUndefined None) three_unread)) = 401).
Proof.
  split; [|split; [reflexivity|]].
  - pose proof (authRequired_identity knows_alice (Some "Bearer alice-token")
                  (mkRequest None None None None (Some bob) None None None None
                             JUndefined None JUndefined JUndefined None None)) as H.
    destruct (authRequired _ _ _) as [r|req'] eqn:E; [discriminate|].
    destruct H as (t & p & u & _ & _ & _ & _ & _ & _ & Hid & _).
    exists req'. split; [reflexivity|]. rewrite Hid. f_equal.
    vm_compute in E. injection E as <-. vm_compute in Hid. by injection Hid.
  - pose proof (authRequired_identity knows_uuid (Some "Bearer t")
                  (mark_read_req bob chat_id)) as H.
    destruct (authRequired _ _ _) as [r|req'] eqn:E; [discriminate|].
    exists req'. split; [reflexivity|].
    vm_compute in E. injection E as <-. repeat split.
Defined.

(** ** The push-token endpoints *)

Lemma registerDeviceToken_run env userId token platform_ deviceId_ st :
  isValid userId = true -> token <> "" ->
  PushService.registerDeviceToken env userId token platform_ deviceId_ st =
    if platform_known platform_ then
      (Returned true,
       match List.find (has_token token) (deviceTokens st) with
       | Some _ =>
           set_deviceTokens
             (update_first (has_token token) (reassigned env userId platform_ deviceId_)) st
       | None =>
           set_deviceTokens
             (fun l => (l ++ [mkDeviceToken (mkObjectId userId) token
                                (stored_platform platform_) deviceId_ true
                                (now env) (now env)])%list) st
       end)
    else (Returned false, st).
Proof.
  intros Hv Hne.
  destruct (List.find (has_token token) (deviceTokens st)) as [existing|] eqn:Hfind.
  - rewrite (registerDeviceToken_existing _ _ _ _ _ _ _ Hfind).
    unfold registration_ok, platform_known. by rewrite Hv.
  - rewrite (registerDeviceToken_new _ _ _ _ _ _ Hfind).
    unfold registration_ok, platform_known. rewrite Hv.
    destruct (String.eqb_spec token ""); [done|]. cbn [andb negb].
    by rewrite andb_true_r.
Qed.

Lemma pretty_N_go_head (x : N) (s : string) :
  pretty_N_go x s = s \/ exists k r, pretty_N_go x s = String (pretty_N_char k) r.
Proof.
  revert s. induction (N.lt_wf_0 x) as [x _ IH]. intros s.
  destruct (N.eq_dec x 0%N) as [->|Hx]; [left; apply pretty_N_go_0|].
  right. rewrite pretty_N_go_step by lia.
  destruct (IH (x `div` 10)%N ltac:(apply N.div_lt; lia)
              (String (pretty_N_char (x `mod` 10)) s)) as [->|(k & r & ->)]; eauto.
Qed.

Lemma pretty_N_char_digit (k : N) (c : ascii) :
  pretty_N_char k = c -> (48 <=? nat_of_ascii c)%nat && (nat_of_ascii c <=? 57)%nat = true.
Proof.
  intros <-. unfold pretty_N_char.
  repeat (match goal with |- context [match ?x with _ => _ end] => destruct x end;
          try reflexivity).
Qed.

(** The text of a number is no platform of the [enum]. *)
Lemma platform_ok_number (n : Z) : PushService.platform_ok (pretty n) = false.
Proof.
  assert (HN : forall x : N, PushService.platform_ok (pretty x) = false).
  { intros x. unfold pretty, pretty_N. destruct (decide _); [reflexivity|].
    destruct (pretty_N_go_head x "") as [->|(k & r & ->)]; [reflexivity|].
    pose proof (pretty_N_char_digit k _ eq_refl) as Hd.
    unfold PushService.platform_ok. cbn.
    destruct (pretty_N_char k) as [[] [] [] [] [] [] [] []]; try reflexivity; discriminate. }
  unfold pretty, pretty_Z. destruct n as [|p|p]; [reflexivity|apply (HN (Npos p))|reflexivity].
Qed.

Lemma platform_known_iff platform_ :
  platform_known platform_ = true <->
  platform_ = JUndefined \/ platform_ = JNull \/
  platform_ = JStr "android" \/ platform_ = JStr "ios".
Proof.
  unfold platform_known, PushService.cast_platform, PushService.platform_ok, cast_String.
  split.
  - destruct platform_ as [| |b|n|p|]; try (by auto); try discriminate.
    + by destruct b.
    + fold (PushService.platform_ok (pretty n)). by rewrite platform_ok_number.
    + destruct (String.eqb_spec p "android") as [Hp|]; [subst p; by auto|].
      destruct (String.eqb_spec p "ios") as [Hp|]; [subst p; by auto 6|]. discriminate.
  - by intros [->|[->|[->| ->]]].
Qed.

Lemma stored_platform_known platform_ :
  platform_known platform_ = true ->
  stored_platform platform_ = match platform_ with
                              | JUndefined => Some "android"
                              | JStr p => Some p
                              | _ => None
                              end.
Proof. intros H. by apply platform_known_iff in H as [->|[->|[->| ->]]]. Qed.

(** X14. [registerPushToken] for an identified caller, a token that is a
    text and not empty, and a device id that is a text, absent or [null],
    answers 200 exactly when the platform is absent, [null], ['android'] or
    ['ios'], and then the token's record is active and the caller's; its
    platform is ['android'] for an absent one, [null] for [null], and the
    given one otherwise. Any other platform is answered with 500, not 400,
    and leaves the store untouched. *)
Theorem registerPushToken_platform env req body st userId token :
  getReqUserId req = Some userId -> isValid userId = true ->
  tb_fcmToken body = Some token -> token <> "" ->
  let run := registerPushToken env req body st in
  (platform_known (tb_platform body) = true <->
   tb_platform body = JUndefined \/ tb_platform body = JNull \/
   tb_platform body = JStr "android" \/ tb_platform body = JStr "ios") /\
  if platform_known (tb_platform body) then
    fst run = Json 200 true /\
    exists d,
      List.find (has_token token) (deviceTokens (snd run)) = Some d /\
      dt_userId d = mkObjectId userId /\ isActive d = true /\
      platform d = match tb_platform body with
                   | JUndefined => Some "android"
                   | JStr p => Some p
                   | _ => None
                   end /\
      deviceId d = tb_deviceId body
  else
    run = (Fail 500 "Failed to register token", st).
Proof.
  intros Hu Hv Ht Hne run. subst run. split; [apply platform_known_iff|].
  unfold registerPushToken, handler. rewrite Hu, valid_not_bad by done. rewrite Ht.
  assert (Hp : present (Some token) = true) by (apply present_iff; by exists token).
  rewrite Hp. cbn [negb]. unfold bind.
  change (js_String (Some userId)) with userId.
  change (js_String (Some token)) with token.
  rewrite (registerDeviceToken_run env userId token _ _ st Hv Hne).
  destruct (platform_known (tb_platform body)) eqn:Hk; [|reflexivity].
  cbn [fst snd ret]. split; [reflexivity|].
  pose proof (stored_platform_known _ Hk) as Hs.
  destruct (List.find (has_token token) (deviceTokens st)) as [existing|] eqn:Hfind.
  - cbn. rewrite find_update_first by (by intros x Hx). rewrite Hfind.
    eexists. split; [reflexivity|]. by repeat split.
  - cbn. rewrite (find_app_none _ _ _ Hfind);
      [|unfold has_token; cbn; apply string_eqb_refl].
    eexists. split; [reflexivity|]. by repeat split.
Qed.

Lemma registerPushToken_platform_witness :
  registerPushToken (at_time 9) (request_of carol)
                    (mkTokenBody (Some "tok-9") (JStr "web") None) devices
    = (Fail 500 "Failed to register token", devices) /\
  fst (registerPushToken (at_time 9) (request_of carol)
                         (mkTokenBody (Some "tok-a") JUndefined (Some "phone")) devices)
    = Json 200 true /\
  (let run := registerPushToken (at_time 9) (request_of carol)
                                (mkTokenBody (Some "tok-9") JNull None) devices in
   fst run = Json 200 true /\
   platform <$> List.find (has_token "tok-9") (deviceTokens (snd run)) = Some None).
Proof.
  split; [|split].
  - exact (proj2 (registerPushToken_platform (at_time 9) (request_of carol)
             (mkTokenBody (Some "tok-9") (JStr "web") None) devices carol "tok-9"
             eq_refl eq_refl eq_refl ltac:(discriminate))).
  - pose proof (proj2 (registerPushToken_platform (at_time 9) (request_of carol)
                  (mkTokenBody (Some "tok-a") JUndefined (Some "phone")) devices carol "tok-a"
                  eq_refl eq_refl eq_refl ltac:(discriminate))) as H.
    change (platform_known _) with true in H. cbv iota in H.
    exact (proj1 H).
  - pose proof (proj2 (registerPushToken_platform (at_time 9) (request_of carol)
                  (mkTokenBody (Some "tok-9") JNull None) devices carol "tok-9"
                  eq_refl eq_refl eq_refl ltac:(discriminate))) as H.
    change (platform_known _) with true in H. cbv iota in H.
    destruct H as (H200 & d & Hd & _ & _ & Hp & _).
    split; [exact H200|]. rewrite Hd. cbn. by rewrite Hp.
Defined.

(** X15. [unregisterPushToken] does not ask whose token it removes: for
    every identified caller and every token that is not empty it answers
    200, and in a store where no two records share a token no record of
    that token is left, whoever owned it; the other records stay. *)
Theorem unregisterPushToken_any_owner req body st userId token :
  getReqUserId req = Some userId -> isValid userId = true ->
  tb_fcmToken body = Some token -> token <> "" ->
  unique_tokens st ->
  let run := unregisterPushToken req body st in
  fst run = Json 200 true /\
  deviceTokens (snd run)
    = List.filter (fun d => negb (has_token token d)) (deviceTokens st) /\
  (forall d, d ∈ deviceTokens st -> fcmToken d = token -> d ∉ deviceTokens (snd run)).
Proof.
  intros Hu Hv Ht Hne Huniq run. subst run.
  unfold unregisterPushToken, handler. rewrite Hu, valid_not_bad by done. rewrite Ht.
  assert (Hp : present (Some token) = true) by (apply present_iff; by exists token).
  rewrite Hp. cbn [negb]. unfold bind.
  change (js_String (Some token)) with token.
  rewrite unregisterDeviceToken_run. cbn [fst snd ret].
  split; [reflexivity|]. unfold set_deviceTokens. cbn.
  rewrite (delete_first_unique _ _ Huniq). split; [reflexivity|].
  intros d _ Hd Hin. apply list_elem_of_In, filter_In in Hin as [_ Hin].
  unfold has_token in Hin. rewrite Hd, string_eqb_refl in Hin. discriminate.
Qed.

(** carol removes alice's token. *)
Lemma unregisterPushToken_any_owner_witness :
  map (fun d => (dt_userId d, fcmToken d)) (deviceTokens devices)
    = [(bob, "tok-1"); (alice, "tok-a"); (bob, "tok-2"); (bob, "tok-3")] /\
  map fcmToken
      (deviceTokens (snd (unregisterPushToken (request_of carol)
                            (mkTokenBody (Some "tok-a") JUndefined None) devices)))
    = ["tok-1"; "tok-2"; "tok-3"].
Proof.
  split; [reflexivity|].
  destruct (unregisterPushToken_any_owner (request_of carol)
              (mkTokenBody (Some "tok-a") JUndefined None) devices carol "tok-a"
              eq_refl eq_refl eq_refl) as (_ & Hd & _).
  { discriminate. }
  { unfold unique_tokens. cbn. apply NoDup_ListNoDup.
    repeat (constructor; [cbn; intuition discriminate|]). constructor. }
  rewrite Hd. vm_compute. reflexivity.
Defined.

(** ** Invariants of the store *)

Lemma reads_ret {A} (a : A) : reads (ret a).
Proof. by intros st. Qed.

Lemma reads_throw {A} e : reads (@throw A e).
Proof. by intros st. Qed.

Lemma reads_bind {A B} (m : M A) (k : A -> M B) :
  reads m -> (forall a, reads (k a)) -> reads (bind m k).
Proof.
  intros Hm Hk st. unfold bind. specialize (Hm st).
  destruct (m st) as [[a|e] st']; simpl in Hm; subst st'; [apply Hk|reflexivity].
Qed.

Lemma reads_mapM {A B} (f : A -> M B) (l : list A) :
  (forall a, reads (f a)) -> reads (mapM f l).
Proof.
  intros Hf. induction l as [|x l IH]; [apply reads_ret|].
  simpl. apply reads_bind; [apply Hf|]. intros y.
  apply reads_bind; [apply IH|]. intros ys. apply reads_ret.
Qed.

Lemma reads_handler {A} (m : M (Response A)) st : reads m -> snd (handler m st) = st.
Proof.
  intros Hm. unfold handler. specialize (Hm st).
  by destruct (m st) as [[r|e] st'].
Qed.

Lemma reads_lookup_other env userId conv : reads (lookup_other env userId conv).
Proof.
  unfold lookup_other. destruct (List.find _ _); [|apply reads_ret].
  apply reads_bind; [by intros st|]. intros u. apply reads_ret.
Qed.

Lemma getConversations_reads env req st :
  snd (ChatController.getConversations env req st) = st /\
  snd (ChatControllerPush.getConversations env req st) = st.
Proof.
  split; apply reads_handler; cbv zeta.
  - destruct (bad_id (getReqUserId req)); [apply reads_ret|].
    apply reads_bind; [by intros s|]. intros cs.
    apply reads_bind; [|intros items; apply reads_ret].
    apply reads_mapM. intros conv. unfold ChatController.enrich.
    apply reads_bind; [apply reads_lookup_other|]. intros other.
    apply reads_bind; [|intros n; apply reads_ret].
    unfold ChatController.unread_of.
    destruct (_ !! _); [apply reads_throw|apply reads_ret].
  - destruct (bad_id (getReqUserId req)); [apply reads_ret|].
    apply reads_bind; [by intros s|]. intros cs.
    apply reads_bind; [|intros items; apply reads_ret].
    apply reads_mapM. intros conv. unfold ChatControllerPush.enrich.
    apply reads_bind; [apply reads_lookup_other|]. intros other. apply reads_ret.
Qed.

Lemma getMessages_reads req st : snd (getMessages req st) = st.
Proof.
  apply reads_handler. cbv zeta.
  destruct (bad_id (getReqUserId req)); [apply reads_ret|].
  destruct (bad_id (param_recipientId req)); [apply reads_ret|].
  apply reads_bind; [by intros s|]. intros [c|]; [|apply reads_ret].
  apply reads_bind; [by intros s|]. intros ms. apply reads_ret.
Qed.

Lemma uploadVoice_reads env req file st : snd (uploadVoice env req file st) = st.
Proof.
  apply reads_handler. cbv zeta.
  destruct (bad_id (getReqUserId req)); [apply reads_ret|].
  destruct file; apply reads_ret.
Qed.

(** *** What a write keeps *)

Lemma Forall_update_first {A} (P : A -> Prop) (p : A -> bool) (f : A -> A) (l : list A) :
  (forall x, P x -> P (f x)) -> Forall P l -> Forall P (update_first p f l).
Proof.
  intros Hf. induction 1 as [|x l Hx Hl IH]; simpl; [constructor|].
  destruct (p x); constructor; auto.
Qed.

Lemma Forall_update_many {A} (P : A -> Prop) (p : A -> bool) (f : A -> A) (l : list A) :
  (forall x, P x -> P (f x)) -> Forall P l -> Forall P (update_many p f l).
Proof.
  intros Hf. induction 1 as [|x l Hx Hl IH]; simpl; [constructor|].
  constructor; [destruct (p x); auto|exact IH].
Qed.

Lemma Forall_delete_many {A} (P : A -> Prop) (p : A -> bool) (l : list A) :
  Forall P l -> Forall P (delete_many p l).
Proof.
  induction 1 as [|x l Hx Hl IH]; simpl; [constructor|].
  destruct (p x); simpl; [exact IH|by constructor].
Qed.

Lemma elem_of_delete_many {A} (p : A -> bool) (l : list A) x :
  x ∈ delete_many p l <-> x ∈ l /\ p x = false.
Proof.
  unfold delete_many. rewrite !list_elem_of_In, filter_In.
  by destruct (p x); simpl; intuition.
Qed.

Lemma elem_of_update_first {A} (p : A -> bool) (f : A -> A) (l : list A) x :
  x ∈ l -> x ∈ update_first p f l \/ f x ∈ update_first p f l.
Proof.
  induction l as [|y l IH]; [by intros ?%elem_of_nil|].
  intros [->|Hx]%elem_of_cons; simpl.
  - destruct (p y); [right|left]; apply list_elem_of_here.
  - destruct (p y); [left; by apply list_elem_of_further|].
    destruct (IH Hx); [left|right]; by apply list_elem_of_further.
Qed.

Lemma write_read_marks st st' : write st st' -> read_marks st -> read_marks st'.
Proof.
  unfold read_marks.
  destruct 1 as [st' _ Hm _|d st' _ Hm _ _|token st' _ Hm _|c a b st' _ _ _ _ Hm _
                |c m st' _ _ _ _ Hr Ht _ Hm _|p f st' _ _ _ Hm _|p t st' _ Hm _
                |ids st' _ Hm _];
    rewrite Hm; try done.
  - intros H. apply Forall_app. split; [exact H|].
    apply Forall_cons_2; [|apply Forall_nil_2]. rewrite Hr, Ht.
    split; [discriminate|by intros [? ?]].
  - apply Forall_update_many. intros m _. simpl. by split; [eexists|].
  - apply Forall_delete_many.
Qed.

Lemma write_messages_belong st st' : write st st' -> messages_belong st -> messages_belong st'.
Proof.
  unfold messages_belong.
  destruct 1 as [st' Hc Hm _|d st' Hc Hm _ _|token st' Hc Hm _|c a b st' _ _ _ Hc Hm _
                |c m st' Hin Hid Hs Hr _ _ Hc Hm _|p f st' Hf _ Hc Hm _|p t st' Hc Hm _
                |ids st' Hc Hm _];
    rewrite Hm, Hc; try done.
  - intros H. eapply Forall_impl; [exact H|]. intros m (c' & Hin & ?). exists c'. split; [|done].
    apply elem_of_app. by left.
  - intros H. apply Forall_app. split; [exact H|].
    apply Forall_cons_2; [|apply Forall_nil_2]. by exists c.
  - intros H. eapply Forall_impl; [exact H|]. intros m (c & Hin & Hid & Hs & Hr).
    destruct (elem_of_update_first p f _ _ Hin) as [H'|H'].
    + by exists c.
    + exists (f c). destruct (Hf c) as [-> ->]. done.
  - intros H. unfold update_many. apply Forall_fmap.
    eapply Forall_impl; [exact H|]. intros m (c & ?). simpl. exists c. by destruct (p m).
  - intros H. apply Forall_forall. intros m [Hin Hout]%elem_of_delete_many.
    rewrite Forall_forall in H. destruct (H m Hin) as (c & Hc' & Hid & ?).
    exists c. split; [|done]. apply elem_of_delete_many. split; [done|].
    simpl. by rewrite Hid.
Qed.

Lemma write_two_party st st' : write st st' -> two_party st -> two_party st'.
Proof.
  intros Hw Hst. pose proof Hst as Hst0. revert Hst. unfold two_party.
  destruct Hw as [st' Hc _ _|d st' Hc _ _ _|token st' Hc _ _|c a b st' Hp Hok _ Hc _ _
                 |c m st' _ _ _ _ _ _ Hc _ _|p f st' Hf Hk Hc _ _|p t st' Hc _ _
                 |ids st' Hc _ _];
    rewrite Hc; try done.
  - intros H. apply Forall_app. split; [exact H|].
    apply Forall_cons_2; [|apply Forall_nil_2]. by rewrite Hp.
  - apply Forall_update_first. intros c [Hl Hok]. destruct (Hf c) as [_ ->].
    split; [done|]. by apply Hk.
  - apply Forall_delete_many.
Qed.

Lemma StronglySorted_update_first {A} (R : relation A) (p : A -> bool) (f : A -> A)
    (l : list A) :
  (forall x y, R x y -> R (f x) y) -> (forall x y, R x y -> R x (f y)) ->
  StronglySorted R l -> StronglySorted R (update_first p f l).
Proof.
  intros Hl Hr. induction 1 as [|x l Hs IH Hx]; simpl; [constructor|].
  destruct (p x); constructor; auto.
  - eapply Forall_impl; [exact Hx|]. intros y. apply Hl.
  - apply Forall_update_first; [|exact Hx]. intros y. apply Hr.
Qed.

Lemma StronglySorted_delete_many {A} (R : relation A) (p : A -> bool) (l : list A) :
  StronglySorted R l -> StronglySorted R (delete_many p l).
Proof.
  induction 1 as [|x l Hs IH Hx]; simpl; [constructor|].
  destruct (p x); simpl; [exact IH|]. constructor; [exact IH|].
  by apply Forall_delete_many.
Qed.

Lemma has_all_participants_ext ids c c' :
  participants c' = participants c ->
  has_all_participants ids c' = has_all_participants ids c.
Proof. unfold has_all_participants, has_participant. by intros ->. Qed.

Lemma write_one_per_pair st st' : write st st' -> one_per_pair st -> one_per_pair st'.
Proof.
  unfold one_per_pair.
  destruct 1 as [st' Hc _ _|d st' Hc _ _ _|token st' Hc _ _|c a b st' Hp _ Hnone Hc _ _
                |c m st' _ _ _ _ _ _ Hc _ _|p f st' Hf _ Hc _ _|p t st' Hc _ _
                |ids st' Hc _ _];
    rewrite Hc; try done.
  - intros H. apply StronglySorted_app_2; [|exact H|repeat constructor].
    intros x1 x2 Hx1 ->%list_elem_of_singleton. rewrite Hp.
    apply list_elem_of_In in Hx1.
    destruct (has_all_participants [a; b] x1) eqn:E; [|reflexivity].
    by pose proof (find_none _ _ Hnone _ Hx1) as H'; rewrite E in H'.
  - apply StronglySorted_update_first.
    + intros x y. by rewrite (has_all_participants_ext _ x (f x)) by apply Hf.
    + intros x y. by destruct (Hf y) as [_ ->].
  - apply StronglySorted_delete_many.
Qed.

Lemma map_delete_first_sublist (token : string) (l : list DeviceToken) :
  sublist (map fcmToken (PushService.delete_first (has_token token) l)) (map fcmToken l).
Proof.
  induction l as [|d l IH]; simpl; [constructor|].
  destruct (has_token token d); simpl; [by apply sublist_cons|by apply sublist_skip].
Qed.

Lemma write_unique_tokens st st' : write st st' -> unique_tokens st -> unique_tokens st'.
Proof.
  unfold unique_tokens.
  destruct 1 as [st' _ _ Ht|d st' _ _ Hnone Ht|token st' _ _ Ht|c a b st' _ _ _ _ _ Ht
                |c m st' _ _ _ _ _ _ _ _ Ht|p f st' _ _ _ _ Ht|p t st' _ _ Ht
                |ids st' _ _ Ht];
    rewrite Ht; try done.
  - intros Hu. rewrite map_app. simpl. apply NoDup_app.
    split; [exact Hu|]. split; [|apply NoDup_singleton].
    intros x Hx ->%list_elem_of_singleton. by apply (find_none_not_in _ _ Hnone).
  - intros Hu. eapply sublist_NoDup; [exact Hu|apply map_delete_first_sublist].
Qed.

(** *** Every handler is a sequence of writes *)

Lemma writes_same st st' :
  conversations st' = conversations st -> messages st' = messages st ->
  map fcmToken (deviceTokens st') = map fcmToken (deviceTokens st) ->
  rtc write st st'.
Proof. intros. by apply rtc_once, write_tokens. Qed.

Lemma map_update_many {A B} (g : A -> B) (p : A -> bool) (f : A -> A) (l : list A) :
  (forall x, g (f x) = g x) -> map g (update_many p f l) = map g l.
Proof.
  intros H. unfold update_many. rewrite map_map. apply map_ext.
  intros x. by destruct (p x).
Qed.

Lemma sendPushToUser_keeps_tokens env userId notification st :
  map fcmToken (deviceTokens (snd (PushService.sendPushToUser env userId notification st)))
  = map fcmToken (deviceTokens st).
Proof.
  unfold PushService.sendPushToUser.
  destruct (firebaseInitialized st); [|reflexivity]. cbn [negb].
  unfold try_catch, PushService.sendPushToUser_try, bind,
    PushService.DeviceToken_find_active.
  destruct (isValid userId); [|reflexivity].
  destruct (length _ =? 0)%nat; [reflexivity|].
  unfold PushService.call_provider.
  destruct (sendEachForMulticast env _) as [r|e]; [|reflexivity].
  unfold ret. destruct (failureCount r >? 0); [|reflexivity].
  destruct (0 <? length _)%nat; [|reflexivity].
  cbn. by apply map_update_many.
Qed.

Lemma deliver_keeps_tokens env req c m pv st :
  map fcmToken (deviceTokens (snd (deliver env req c m pv st)))
  = map fcmToken (deviceTokens st).
Proof.
  unfold deliver, bind, User_findById, ChatControllerPush.detached.
  set (push := PushService.sendNewMessageNotification _ _ _ _ _ _).
  cbn [fst snd]. unfold ChatControllerPush.emitToUser.
  destruct (io (snd (push st))); cbn; apply sendPushToUser_keeps_tokens.
Qed.

Lemma has_all_participants_elem a b c :
  has_all_participants [a; b] c = true -> a ∈ participants c /\ b ∈ participants c.
Proof.
  unfold has_all_participants, has_participant. simpl. rewrite andb_true_r.
  intros [Ha Hb]%andb_prop.
  apply existsb_exists in Ha as (x & Hx & ->%String.eqb_eq).
  apply existsb_exists in Hb as (y & Hy & ->%String.eqb_eq).
  by rewrite !list_elem_of_In.
Qed.

Lemma num_or_nonneg (c : Conversation) key : counters_ok c -> 0 <= num_or (unreadCount c !! key) 0.
Proof.
  intros Hc. unfold num_or. destruct (unreadCount c !! key) as [n|] eqn:E; [|lia].
  destruct (n =? 0); [lia|]. exact (Hc _ _ E).
Qed.

Lemma bump_writes env req c m st :
  c ∈ conversations st ->
  write st (bump_conversation env req c m st).
Proof.
  intros Hin. eapply write_touch; [| |reflexivity|reflexivity|reflexivity].
  - intros c'. by split.
  - intros Hst c' Hc'. unfold counters_ok, bump, touch_conversation. simpl.
    apply map_Forall_insert_2; [|exact Hc'].
    unfold two_party in Hst. rewrite Forall_forall in Hst.
    pose proof (num_or_nonneg c (js_String (param_recipientId req))
                  (proj2 (Hst c Hin))). lia.
Qed.

Lemma message_writes env req c m st :
  c ∈ conversations st ->
  has_all_participants [mkObjectId (js_String (getReqUserId req));
                        mkObjectId (js_String (param_recipientId req))] c = true ->
  message_for env req c m ->
  write st (add_message m st).
Proof.
  intros Hin [Hs Hr]%has_all_participants_elem
    (_ & Hid & Hsender & Hreceiver & _ & _ & Hread & Hat & _).
  eapply (write_message st c m); try done; by rewrite ?Hsender, ?Hreceiver.
Qed.

Lemma stored_writes unread0 env req st out :
  map_Forall (fun _ n => 0 <= n) unread0 ->
  stored unread0 env req st out -> rtc write st (snd out).
Proof.
  intros H0. destruct 1 as [e|e Hnone|c m Hfind Hm|m Hnone Hm]; cbn [snd].
  - apply rtc_refl.
  - apply rtc_once.
    eapply (write_conversation st (new_conversation unread0 env req));
      [reflexivity|exact H0|exact Hnone|reflexivity..].
  - pose proof (find_some _ _ Hfind) as [Hin%list_elem_of_In Hpair].
    eapply rtc_l; [by eapply message_writes|].
    apply rtc_once. by apply bump_writes.
  - set (c := new_conversation unread0 env req) in *.
    apply (rtc_l _ _ (add_conversation c st));
      [eapply (write_conversation st c);
         [reflexivity|exact H0|exact Hnone|reflexivity..]|].
    assert (Hin : c ∈ conversations (add_conversation c st)).
    { simpl. apply elem_of_app. right. apply list_elem_of_here. }
    eapply rtc_l; [eapply message_writes; [exact Hin| |exact Hm]|].
    { apply has_all_participants_self. }
    apply rtc_once. by apply bump_writes.
Qed.

Lemma sendMessage_writes env req st :
  rtc write st (snd (ChatController.sendMessage env req st)) /\
  rtc write st (snd (ChatControllerPush.sendMessage env req st)).
Proof.
  assert (Hdec : passes_checks req \/ ~ passes_checks req).
  { unfold passes_checks.
    destruct (bad_id (getReqUserId req)); [right; by intros (? & _)|].
    destruct (bad_id (param_recipientId req)); [right; by intros (_ & ? & _)|].
    destruct (check_content req); [right; by intros (_ & _ & ?)|by left]. }
  destruct Hdec as [Hok|Hbad].
  - rewrite sendMessage_stores, sendMessage_stores_delivers by exact Hok. split.
    + pose proof (store_message_stored {[ js_String (param_recipientId req) := 1 ]}
                    env req st) as Hst.
      apply stored_writes in Hst; [|by apply map_Forall_singleton].
      by destruct (store_message _ env req st) as [[[[c m] pv]|e] st'].
    + pose proof (store_message_stored ∅ env req st) as Hst.
      apply stored_writes in Hst; [|apply map_Forall_empty].
      destruct (store_message _ env req st) as [[[[c m] pv]|e] st']; [|exact Hst].
      simpl in *. eapply rtc_r; [exact Hst|].
      destruct (deliver_same_chats env req c m pv st') as (Hc & Hm & _).
      apply write_tokens; [done|done|apply deliver_keeps_tokens].
  - destruct (sendMessage_rejects env req st Hbad) as (-> & -> & _). by split.
Qed.

Lemma markAsRead_writes env req st : rtc write st (snd (markAsRead env req st)).
Proof.
  destruct (bad_id (getReqUserId req)) eqn:Hu;
    [rewrite (proj1 (markAsRead_rejected env req st (or_introl Hu))); apply rtc_refl|].
  destruct (bad_id (param_conversationId req)) eqn:Hc;
    [rewrite (proj1 (markAsRead_rejected env req st (or_intror Hc))); apply rtc_refl|].
  rewrite markAsRead_run by done. cbv zeta. cbn [snd].
  eapply (rtc_l _ _ (set_messages (update_many _ (mark_read (now env))) st));
    [eapply write_read; reflexivity|].
  apply rtc_once. eapply write_touch; [| |reflexivity|reflexivity|reflexivity].
  - intros c. by split.
  - intros _ c Hok. unfold counters_ok, set_unread. simpl.
    by apply map_Forall_insert_2.
Qed.

Lemma bad_id_false x : bad_id x = false -> exists s, x = Some s /\ isValid s = true.
Proof.
  unfold bad_id. destruct x as [s|]; [|discriminate]. simpl.
  intros [_ H]%orb_false_elim. exists s. split; [done|]. by destruct (isValid s).
Qed.

Lemma startConversation_writes city_of env req st :
  rtc write st (snd (startConversation_with city_of env req st)).
Proof.
  destruct (bad_id (getReqUserId req)) eqn:Hu.
  { unfold startConversation_with, handler. cbv zeta. rewrite Hu. apply rtc_refl. }
  destruct (bad_id (param_recipientId req)) eqn:Hr.
  { unfold startConversation_with, handler. cbv zeta. rewrite Hu, Hr. apply rtc_refl. }
  apply bad_id_false in Hu as (user & Hu & Hvu).
  apply bad_id_false in Hr as (other & Hr & Hvo).
  rewrite (startConversation_run city_of env req st user other) by done. cbv zeta.
  destruct (List.find _ (conversations st)) eqn:Hfind; [apply rtc_refl|].
  apply rtc_once.
  eapply (write_conversation st
            (mkConversation (newConversationId env) [mkObjectId user; mkObjectId other]
                            (mkLastMessage "" None (now env)) ∅ (now env) (now env)));
    [reflexivity| |exact Hfind|reflexivity..].
  apply map_Forall_empty.
Qed.

Lemma deleteConversations_writes req st : rtc write st (snd (deleteConversations req st)).
Proof.
  destruct (bad_id (getReqUserId req)) eqn:Hu.
  { unfold deleteConversations, handler. cbv zeta. rewrite Hu. apply rtc_refl. }
  destruct (body_conversationIds req) as [[|i ids]|] eqn:Hids.
  1,3: unfold deleteConversations, handler; cbv zeta; rewrite Hu, Hids; apply rtc_refl.
  rewrite (deleteConversations_run req st (i :: ids)) by done. cbv zeta.
  destruct (length _ =? 0)%nat; [apply rtc_refl|].
  apply rtc_once. eapply write_delete; reflexivity.
Qed.

Lemma registerDeviceToken_writes env userId token platform_ deviceId_ st :
  rtc write st (snd (PushService.registerDeviceToken env userId token platform_
                       deviceId_ st)).
Proof.
  destruct (List.find (has_token token) (deviceTokens st)) as [existing|] eqn:Hfind.
  - rewrite (registerDeviceToken_existing _ _ _ _ _ _ _ Hfind).
    destruct (registration_ok userId platform_); [|apply rtc_refl].
    apply writes_same; [done..|]. cbn. by apply map_update_first.
  - rewrite (registerDeviceToken_new _ _ _ _ _ _ Hfind).
    destruct (_ && _); [|apply rtc_refl].
    apply rtc_once. eapply write_token_new; [done|done| |reflexivity]. exact Hfind.
Qed.

Lemma registerPushToken_writes env req body st :
  rtc write st (snd (registerPushToken env req body st)).
Proof.
  unfold registerPushToken, handler. cbv zeta.
  destruct (bad_id (getReqUserId req)); [apply rtc_refl|].
  destruct (present (tb_fcmToken body)); [|apply rtc_refl]. cbn [negb]. unfold bind.
  pose proof (registerDeviceToken_writes env (js_String (getReqUserId req))
                (js_String (tb_fcmToken body)) (tb_platform body) (tb_deviceId body) st)
    as H.
  destruct (PushService.registerDeviceToken _ _ _ _ _ st) as [[[]|e] st']; exact H.
Qed.

Lemma unregisterPushToken_writes req body st :
  rtc write st (snd (unregisterPushToken req body st)).
Proof.
  unfold unregisterPushToken, handler. cbv zeta.
  destruct (bad_id (getReqUserId req)); [apply rtc_refl|].
  destruct (present (tb_fcmToken body)); [|apply rtc_refl]. cbn [negb]. unfold bind.
  rewrite unregisterDeviceToken_run. cbn.
  apply rtc_once. eapply write_token_delete; reflexivity.
Qed.

Lemma debugPush_writes env userId st : rtc write st (snd (debugPush env userId st)).
Proof.
  unfold debugPush, handler. destruct (bad_id userId); [apply rtc_refl|].
  unfold bind. set (tokens := List.filter _ _).
  destruct (existsb isActive tokens); [|apply rtc_refl].
  pose proof (sendPushToUser_keeps_tokens env (js_String userId) test_notification st) as Ht.
  destruct (sendPushToUser_same_chats env (js_String userId) test_notification st)
    as (Hc & Hm & _).
  destruct (PushService.sendPushToUser _ _ _ st) as [[r|e] st']; by apply writes_same.
Qed.

Lemma guarded_writes {A} verify authorization (h : Request -> Store -> Response A * Store)
    req st :
  (forall r, rtc write st (snd (h r st))) ->
  rtc write st (guarded verify authorization h req st).
Proof.
  intros H. unfold guarded. destruct (authRequired _ _ _); [apply rtc_refl|apply H].
Qed.

Lemma serve_writes verify i st : rtc write st (serve verify i st).
Proof.
  destruct i as [push env authorization call]. unfold serve. simpl.
  destruct push, call; simpl; try apply rtc_refl; try apply guarded_writes; intros.
  all: first
    [ rewrite (proj1 (getConversations_reads _ _ _)); apply rtc_refl
    | rewrite (proj2 (getConversations_reads _ _ _)); apply rtc_refl
    | rewrite getMessages_reads; apply rtc_refl
    | rewrite uploadVoice_reads; apply rtc_refl
    | apply startConversation_writes
    | apply (proj1 (sendMessage_writes _ _ _))
    | apply (proj2 (sendMessage_writes _ _ _))
    | apply markAsRead_writes
    | apply deleteConversations_writes
    | apply registerPushToken_writes
    | apply unregisterPushToken_writes
    | apply debugPush_writes ].
Qed.

(** An invariant of the writes is an invariant of the service. *)
Lemma serve_all_keeps (P : Store -> Prop) verify l st :
  (forall a b, write a b -> P a -> P b) -> P st -> P (serve_all verify l st).
Proof.
  intros Hw. unfold serve_all. revert st.
  induction l as [|i l IH]; intros st Hst; [exact Hst|]. simpl. apply IH.
  pose proof (serve_writes verify i st) as Hs.
  induction Hs as [|a b c Hab _ IH']; [exact Hst|]. apply IH'. by apply (Hw a b).
Qed.

(** *** The invariants of the service *)

(** X16. Read marks stay consistent: when every stored message is marked
    read exactly if it has a time of reading, this is still so after any
    sequence of requests, whichever of the two routers serves each of
    them. *)
Theorem read_marks_invariant verify l st :
  read_marks st ->
  forall m, m ∈ messages (serve_all verify l st) ->
    isRead m = true <-> exists t, readAt m = Some t.
Proof.
  intros Hst m Hm.
  assert (H : read_marks (serve_all verify l st))
    by (apply serve_all_keeps; [apply write_read_marks|exact Hst]).
  unfold read_marks in H. rewrite Forall_forall in H. exact (H m Hm).
Qed.

Lemma read_marks_invariant_witness :
  map (fun m => (isRead m, readAt m)) (messages (serve_all knows_two (a_day true) online))
    = [(true, Some 3); (false, None)] /\
  forall m, m ∈ messages (serve_all knows_two (a_day true) online) ->
    isRead m = true <-> exists t, readAt m = Some t.
Proof.
  split; [reflexivity|].
  apply (read_marks_invariant knows_two (a_day true) online).
  unfold read_marks. cbn. constructor.
Defined.

(** X17. No message is left without its conversation: when every stored
    message is in a stored conversation that its sender and its receiver
    take part in, this is still so after any sequence of requests. *)
Theorem messages_belong_invariant verify l st :
  messages_belong st ->
  forall m, m ∈ messages (serve_all verify l st) ->
    exists c, c ∈ conversations (serve_all verify l st) /\
              conv_id c = conversationId m /\
              senderId m ∈ participants c /\ receiverId m ∈ participants c.
Proof.
  intros Hst m Hm.
  assert (H : messages_belong (serve_all verify l st))
    by (apply serve_all_keeps; [apply write_messages_belong|exact Hst]).
  unfold messages_belong in H. rewrite Forall_forall in H. exact (H m Hm).
Qed.

Lemma messages_belong_invariant_witness :
  length (messages (serve_all knows_two (a_day false) no_chats)) = 2%nat /\
  forall m, m ∈ messages (serve_all knows_two (a_day false) no_chats) ->
    exists c, c ∈ conversations (serve_all knows_two (a_day false) no_chats) /\
              conv_id c = conversationId m /\
              senderId m ∈ participants c /\ receiverId m ∈ participants c.
Proof.
  split; [reflexivity|].
  apply (messages_belong_invariant knows_two (a_day false) no_chats).
  unfold messages_belong. cbn. constructor.
Defined.

Lemma StronglySorted_lookup {A} (R : relation A) (l : list A) i j x y :
  StronglySorted R l -> (i < j)%nat -> l !! i = Some x -> l !! j = Some y -> R x y.
Proof.
  intros Hs. revert i j. induction Hs as [|a l Hs IH Ha]; intros i j Hij Hi Hj.
  - by rewrite lookup_nil in Hi.
  - destruct j as [|j]; [lia|]. simpl in Hj. destruct i as [|i].
    + simpl in Hi. injection Hi as ->. rewrite Forall_forall in Ha.
      apply Ha. by eapply list_elem_of_lookup_2.
    + simpl in Hi. apply (IH i j); [lia|done|done].
Qed.

Lemma has_all_participants_subset ids c :
  (forall x, x ∈ ids -> x ∈ participants c) -> has_all_participants ids c = true.
Proof.
  intros H. unfold has_all_participants. apply forallb_forall. intros x Hx.
  unfold has_participant. apply existsb_exists. exists x.
  split; [|apply string_eqb_refl]. apply list_elem_of_In, H. by apply list_elem_of_In.
Qed.

Lemma one_per_pair_lookup st i j ci cj :
  one_per_pair st -> i <> j ->
  conversations st !! i = Some ci -> conversations st !! j = Some cj ->
  ~ (forall x, x ∈ participants ci <-> x ∈ participants cj).
Proof.
  intros Hst Hij Hi Hj Hsame. unfold one_per_pair in Hst.
  destruct (Nat.lt_total i j) as [Hlt|[->|Hlt]]; [|done|].
  - pose proof (StronglySorted_lookup _ _ _ _ _ _ Hst Hlt Hi Hj) as H. simpl in H.
    rewrite has_all_participants_subset in H; [discriminate|]. intros x. apply Hsame.
  - pose proof (StronglySorted_lookup _ _ _ _ _ _ Hst Hlt Hj Hi) as H. simpl in H.
    rewrite has_all_participants_subset in H; [discriminate|]. intros x. apply Hsame.
Qed.

(** X18. A pair of users never gets a second conversation: when no stored
    conversation holds all the participants of a later one, then after
    any sequence of requests served one after the other no two stored
    conversations have the same participants. *)
Theorem one_conversation_per_pair verify l st :
  one_per_pair st ->
  forall i j ci cj,
    i <> j ->
    conversations (serve_all verify l st) !! i = Some ci ->
    conversations (serve_all verify l st) !! j = Some cj ->
    ~ (forall x, x ∈ participants ci <-> x ∈ participants cj).
Proof.
  intros Hst i j ci cj. apply one_per_pair_lookup.
  apply serve_all_keeps; [apply write_one_per_pair|exact Hst].
Qed.

Lemma one_conversation_per_pair_witness :
  map participants (conversations (serve_all knows_two (a_day true) online))
    = [[alice; bob]; [bob; carol]] /\
  forall i j ci cj,
    i <> j ->
    conversations (serve_all knows_two (a_day true) online) !! i = Some ci ->
    conversations (serve_all knows_two (a_day true) online) !! j = Some cj ->
    ~ (forall x, x ∈ participants ci <-> x ∈ participants cj).
Proof.
  split; [reflexivity|].
  apply (one_conversation_per_pair knows_two (a_day true) online).
  unfold one_per_pair. cbn. constructor.
Defined.

(** X19. Conversations keep their shape: when every stored conversation
    has two participants and no negative counter, this is still so after
    any sequence of requests. *)
Theorem two_party_invariant verify l st :
  two_party st ->
  forall c, c ∈ conversations (serve_all verify l st) ->
    length (participants c) = 2%nat /\
    forall key n, unreadCount c !! key = Some n -> 0 <= n.
Proof.
  intros Hst c Hc.
  assert (H : two_party (serve_all verify l st))
    by (apply serve_all_keeps; [apply write_two_party|exact Hst]).
  unfold two_party in H. rewrite Forall_forall in H. exact (H c Hc).
Qed.

Lemma two_party_invariant_witness :
  map (fun c => unreadCount c !! bob)
      (conversations (serve_all knows_two (a_day false) no_chats))
    = [Some 1; None] /\
  forall c, c ∈ conversations (serve_all knows_two (a_day false) no_chats) ->
    length (participants c) = 2%nat /\
    forall key n, unreadCount c !! key = Some n -> 0 <= n.
Proof.
  split; [vm_compute; reflexivity|].
  apply (two_party_invariant knows_two (a_day false) no_chats).
  unfold two_party. cbn. constructor.
Defined.

(** X20. A token has one record: when no two stored records share a
    token, this is still so after any sequence of requests, so two
    records with the same token are the same record. *)
Theorem unique_tokens_invariant verify l st :
  unique_tokens st ->
  unique_tokens (serve_all verify l st) /\
  forall d1 d2, d1 ∈ deviceTokens (serve_all verify l st) ->
                d2 ∈ deviceTokens (serve_all verify l st) ->
                fcmToken d1 = fcmToken d2 -> d1 = d2.
Proof.
  intros Hst.
  assert (H : unique_tokens (serve_all verify l st))
    by (apply serve_all_keeps; [apply write_unique_tokens|exact Hst]).
  split; [exact H|]. intros d1 d2. by apply unique_same_token.
Qed.

Lemma unique_tokens_invariant_witness :
  map fcmToken (deviceTokens (serve_all knows_two (a_day true) online)) = ["tok-a"] /\
  unique_tokens (serve_all knows_two (a_day true) online).
Proof.
  split; [reflexivity|].
  apply (unique_tokens_invariant knows_two (a_day true) online).
  unfold unique_tokens. cbn. constructor.
Defined.

(** ** A stored message and its two parties *)

Lemma two_of (l : list ObjectId) a b :
  length l = 2%nat -> a ∈ l -> b ∈ l -> a <> b -> forall x, x ∈ l <-> x = a \/ x = b.
Proof.
  destruct l as [|p [|q [|? ?]]]; try discriminate. intros _ Ha Hb Hab x.
  rewrite !elem_of_cons, elem_of_nil in *.
  destruct Ha as [->|[->|[]]], Hb as [->|[->|[]]]; try done; tauto.
Qed.

Lemma find_is_some {A} (p : A -> bool) (l : list A) x :
  x ∈ l -> p x = true -> exists y, List.find p l = Some y.
Proof.
  intros Hx Hp. destruct (List.find p l) as [y|] eqn:E; [by exists y|].
  apply list_elem_of_In in Hx. pose proof (find_none _ _ E _ Hx). congruence.
Qed.

(** X21. A stored message is found by its two parties: in a store that the
    service has produced, [getMessages] asked by the sender about the
    receiver of a stored message, or by the receiver about the sender,
    reads the conversation that the message is in, when sender and
    receiver are two users. *)
Theorem message_found_by_its_parties verify l st m req :
  messages_belong st -> two_party st -> one_per_pair st ->
  m ∈ messages (serve_all verify l st) ->
  senderId m <> receiverId m ->
  bad_id (getReqUserId req) = false ->
  bad_id (param_recipientId req) = false ->
  (mkObjectId (js_String (getReqUserId req)) = senderId m /\
   mkObjectId (js_String (param_recipientId req)) = receiverId m
   \/
   mkObjectId (js_String (getReqUserId req)) = receiverId m /\
   mkObjectId (js_String (param_recipientId req)) = senderId m) ->
  exists c page,
    List.find (has_all_participants [senderId m; receiverId m])
              (conversations (serve_all verify l st)) = Some c /\
    conv_id c = conversationId m /\
    m ∈ newest_of c (serve_all verify l st) /\
    fst (getMessages req (serve_all verify l st)) = Json 200 page /\
    mp_conversationId page = Some (conversationId m).
Proof.
  intros Hb Ht Ho. set (st' := serve_all verify l st).
  assert (Hb' : messages_belong st')
    by (apply serve_all_keeps; [apply write_messages_belong|exact Hb]).
  assert (Ht' : two_party st')
    by (apply serve_all_keeps; [apply write_two_party|exact Ht]).
  assert (Ho' : one_per_pair st')
    by (apply serve_all_keeps; [apply write_one_per_pair|exact Ho]).
  clearbody st'. clear Hb Ht Ho. intros Hm Hsr Hu Hr Hwho.
  unfold messages_belong in Hb'. rewrite Forall_forall in Hb'.
  destruct (Hb' m Hm) as (c & Hc & Hid & Hs & Hrc).
  assert (Hpair : has_all_participants [senderId m; receiverId m] c = true).
  { apply has_all_participants_subset. intros x.
    rewrite !elem_of_cons, elem_of_nil. by intros [->|[->|[]]]. }
  destruct (find_is_some _ _ _ Hc Hpair) as (c0 & Hfind).
  pose proof (find_some _ _ Hfind) as [Hc0%list_elem_of_In Hpair0].
  apply has_all_participants_elem in Hpair0 as [Hs0 Hr0].
  assert (Hsame : c0 = c).
  { apply list_elem_of_lookup_1 in Hc as [i Hi], Hc0 as [i0 Hi0].
    destruct (decide (i0 = i)) as [->|Hne]; [congruence|]. exfalso.
    apply (one_per_pair_lookup st' i0 i c0 c Ho' Hne Hi0 Hi). intros x.
    unfold two_party in Ht'. rewrite Forall_forall in Ht'.
    rewrite (two_of (participants c0) (senderId m) (receiverId m));
      [|by apply Ht', (list_elem_of_lookup_2 _ i0)|done..].
    rewrite (two_of (participants c) (senderId m) (receiverId m));
      [done|by apply Ht', (list_elem_of_lookup_2 _ i)|done..]. }
  subst c0.
  assert (Hfind' : List.find (has_all_participants
                                [mkObjectId (js_String (getReqUserId req));
                                 mkObjectId (js_String (param_recipientId req))])
                             (conversations st') = Some c).
  { destruct Hwho as [[-> ->]|[-> ->]]; [exact Hfind|].
    rewrite <- Hfind. apply find_ext. intros x. apply has_all_participants_swap. }
  rewrite (getMessages_run req st' Hu Hr), Hfind'. cbv zeta. cbn [fst].
  eexists c, _. split; [exact Hfind|]. split; [exact Hid|].
  split; [|split; [reflexivity|by rewrite <- Hid]].
  unfold newest_of. rewrite merge_sort_Permutation.
  apply list_elem_of_In, filter_In. split; [by apply list_elem_of_In|].
  unfold oid_eqb. rewrite Hid. apply string_eqb_refl.
Qed.

(** bob asks for his messages with alice and gets the conversation that
    alice's second message is in. *)
Lemma message_found_by_its_parties_witness :
  exists c page,
    List.find (has_all_participants [alice; bob])
              (conversations (serve_all knows_two (a_day false) no_chats)) = Some c /\
    conv_id c = chat_id /\
    mkMessage "e00000000000000000000004" chat_id alice bob (Some "text") "again"
              None None None false None 4
      ∈ newest_of c (serve_all knows_two (a_day false) no_chats) /\
    fst (getMessages (get_messages bob alice None None)
                     (serve_all knows_two (a_day false) no_chats)) = Json 200 page /\
    mp_conversationId page = Some chat_id.
Proof.
  apply (message_found_by_its_parties knows_two (a_day false) no_chats
           (mkMessage "e00000000000000000000004" chat_id alice bob (Some "text") "again"
                      None None None false None 4)
           (get_messages bob alice None None)).
  - unfold messages_belong. cbn. constructor.
  - unfold two_party. cbn. constructor.
  - unfold one_per_pair. cbn. constructor.
  - apply list_elem_of_In. vm_compute. tauto.
  - discriminate.
  - reflexivity.
  - reflexivity.
  - right. split; reflexivity.
Defined.

(** ** [markAsRead], then [getConversations] *)

(** The list of the revision with push delivery: one item for each
    conversation of the caller, latest first, with the stored counter. *)
Lemma getConversations_push_run env req st userId :
  getReqUserId req = Some userId -> isValid userId = true ->
  exists items,
    ChatControllerPush.getConversations env req st = (Json 200 items, st) /\
    Forall2 (fun c i => lists st userId c i /\
                        ci_unreadCount i = default 0 (unreadCount c !! userId))
            (merge_sort latest_first
               (List.filter (has_participant (mkObjectId userId)) (conversations st)))
            items.
Proof.
  intros Hu Hv. unfold ChatControllerPush.getConversations, handler. cbv zeta.
  rewrite Hu, valid_not_bad by done. unfold bind, Conversation_find_sorted.
  change (js_String (Some userId)) with userId.
  destruct (mapM_Forall2 (ChatControllerPush.enrich env userId)
              (fun c i => lists st userId c i /\
                          ci_unreadCount i = default 0 (unreadCount c !! userId))
              (merge_sort latest_first
                 (List.filter (has_participant (mkObjectId userId)) (conversations st))) st)
    as (items & Hrun & HF).
  { intros c _. destruct (enrich_push_run env st userId c) as (item & ? & ? & ?).
    by exists item. }
  exists items. by rewrite Hrun.
Qed.

(** With unique ids, the conversation with id [cid] in the updated list is
    the updated one. *)
Lemma update_first_by_id (cid : ObjectId) (f : Conversation -> Conversation)
    (l : list Conversation) c :
  NoDup (map conv_id l) -> (forall x, conv_id (f x) = conv_id x) ->
  c ∈ update_first (fun x => oid_eqb (conv_id x) cid) f l -> conv_id c = cid ->
  exists c0, c0 ∈ l /\ c = f c0.
Proof.
  intros Hnd Hf. induction l as [|y l IH]; simpl; [by intros ?%elem_of_nil|].
  simpl in Hnd. apply NoDup_cons in Hnd as [Hy Hnd].
  destruct (oid_eqb (conv_id y) cid) eqn:E.
  - apply String.eqb_eq in E.
    intros [->|Hc]%elem_of_cons Hid.
    + exists y. split; [apply list_elem_of_here|done].
    + exfalso. apply Hy. rewrite E, <- Hid. by apply list_elem_of_fmap_2.
  - intros [->|Hc]%elem_of_cons Hid.
    + unfold oid_eqb in E. rewrite Hid, string_eqb_refl in E. discriminate.
    + destruct (IH Hnd Hc Hid) as (c0 & ? & ?). exists c0.
      split; [by apply list_elem_of_further|done].
Qed.

(** X22. What is read is no longer counted: after [markAsRead] by a user
    for a conversation, the list that the revision with push delivery
    answers that user with reports 0 unread messages for the conversation,
    when the stored conversations have different ids; the list has an item
    for every conversation of the user, as before. *)
Theorem markAsRead_then_getConversations env env' req req' st userId cid :
  getReqUserId req = Some userId -> isValid userId = true ->
  param_conversationId req = Some cid -> isValid cid = true ->
  getReqUserId req' = Some userId ->
  NoDup (map conv_id (conversations st)) ->
  let st' := snd (markAsRead env req st) in
  exists items0 items,
    fst (ChatControllerPush.getConversations env' req' st) = Json 200 items0 /\
    fst (ChatControllerPush.getConversations env' req' st') = Json 200 items /\
    map ci_id items ≡ₚ map ci_id items0 /\
    forall item, item ∈ items -> ci_id item = mkObjectId cid -> ci_unreadCount item = 0.
Proof.
  intros Hu Hv Hc Hvc Hu' Hnd st'.
  destruct (getConversations_push_run env' req' st userId Hu' Hv) as (items0 & Hrun0 & HF0).
  destruct (getConversations_push_run env' req' st' userId Hu' Hv) as (items & Hrun & HF).
  exists items0, items. rewrite Hrun0, Hrun. split; [reflexivity|]. split; [reflexivity|].
  assert (Hst' : conversations st'
                 = update_first (fun c => oid_eqb (conv_id c) (mkObjectId cid))
                                (set_unread userId 0) (conversations st)).
  { subst st'. rewrite markAsRead_run by (rewrite ?Hu, ?Hc; by apply valid_not_bad).
    cbv zeta. by rewrite Hu, Hc. }
  split.
  - destruct (lists_sorted st userId _ items0 _ (fun c i H => proj1 H) HF0) as [_ ->].
    destruct (lists_sorted st' userId _ items _ (fun c i H => proj1 H) HF) as [_ ->].
    rewrite Hst'. clear. induction (conversations st) as [|c l IH]; [reflexivity|].
    simpl. destruct (oid_eqb (conv_id c) (mkObjectId cid)); simpl.
    + change (has_participant (mkObjectId userId) (set_unread userId 0 c))
        with (has_participant (mkObjectId userId) c).
      by destruct (has_participant (mkObjectId userId) c).
    + destruct (has_participant (mkObjectId userId) c); simpl; by rewrite IH.
  - intros item Hitem Hid.
    apply list_elem_of_lookup_1 in Hitem as [k Hk].
    destruct (Forall2_lookup_r _ _ _ _ _ HF Hk) as (c & Hck & [Hlists Hcount]).
    rewrite Hcount. destruct Hlists as (Hcid & _). rewrite Hid in Hcid.
    apply list_elem_of_lookup_2 in Hck. rewrite merge_sort_Permutation in Hck.
    apply list_elem_of_In, filter_In in Hck as [Hin%list_elem_of_In _].
    rewrite Hst' in Hin.
    destruct (update_first_by_id (mkObjectId cid) (set_unread userId 0) _ c Hnd
                (fun x => eq_refl) Hin (eq_sym Hcid))
      as (c0 & _ & ->).
    unfold set_unread. simpl. by rewrite lookup_insert_eq.
Qed.

Lemma markAsRead_then_getConversations_witness :
  exists items0 items,
    fst (ChatControllerPush.getConversations (at_time 9) (request_of bob) three_unread)
      = Json 200 items0 /\
    fst (ChatControllerPush.getConversations (at_time 9) (request_of bob)
           (snd (markAsRead (at_time 8) (mark_read_req bob chat_id) three_unread)))
      = Json 200 items /\
    map ci_id items ≡ₚ map ci_id items0 /\
    forall item, item ∈ items -> ci_id item = mkObjectId chat_id -> ci_unreadCount item = 0.
Proof.
  apply (markAsRead_then_getConversations (at_time 8) (at_time 9)
           (mark_read_req bob chat_id) (request_of bob) three_unread bob chat_id);
    try reflexivity.
  cbn. apply NoDup_singleton.
Defined.

(** ** [sendMessage], then [getConversations] *)







(** ** [debugPush] *)






(** ** [uploadVoice], then [sendMessage] *)

(** X25. An upload is answered 200 whether or not its url could be signed:
    [uploadVoice] answers an identified caller with the key of the file
    and with the signed url, or with no url when the key is empty or the
    signer fails, and stores nothing. A voice message that carries the url
    of that answer is refused with 400 by both revisions of [sendMessage]
    exactly when the answer has no url or an empty one, and passes the
    content check otherwise. *)
Theorem uploadVoice_then_sendMessage env env' req req' key st user other userId :
  getReqUserId req = Some userId -> isValid userId = true ->
  between req' user other ->
  body_messageType req' = JStr "voice" ->
  exists up,
    uploadVoice env req (Some key) st = (Json 200 up, st) /\
    voiceKey up = key /\
    up_voiceUrl up = (if present key then getSignedUrl env (js_String key) else None) /\
    (body_voiceUrl req' = url_value (up_voiceUrl up) ->
     if present (up_voiceUrl up) then check_content req' = None
     else
       ChatController.sendMessage env' req' st = (Fail 400 "Voice URL is required", st) /\
       ChatControllerPush.sendMessage env' req' st = (Fail 400 "Voice URL is required", st)).
Proof.
  intros Hu Hv (Hu' & Hr' & Hvu & Hvo) Htype.
  unfold uploadVoice, handler. cbv zeta. rewrite Hu, valid_not_bad by done.
  eexists. split; [reflexivity|]. cbn [voiceKey up_voiceUrl].
  split; [reflexivity|]. split; [reflexivity|]. intros Hurl.
  assert (Hcheck : check_content req'
                   = if present (getPhotoUrl env key) then None
                     else Some "Voice URL is required").
  { unfold check_content, messageType_of. rewrite Htype, Hurl. cbn.
    destruct (getPhotoUrl env key) as [u|]; [|reflexivity]. cbn.
    unfold truthy. destruct u; reflexivity. }
  destruct (present (getPhotoUrl env key)); [exact Hcheck|].
  unfold ChatController.sendMessage, ChatControllerPush.sendMessage, handler. cbv zeta.
  rewrite Hu', Hr', !valid_not_bad, Hcheck by done. by split.
Qed.

Lemma uploadVoice_then_sendMessage_witness :
  ChatControllerPush.sendMessage (at_time 9)
    (post_message alice bob JUndefined (JStr "voice") JNull) no_chats
    = (Fail 400 "Voice URL is required", no_chats) /\
  check_content (post_voice alice bob "https://files/voice/1.m4a" None) = None.
Proof.
  split.
  - destruct (uploadVoice_then_sendMessage (unsigned 8) (at_time 9) (request_of alice)
                (post_message alice bob JUndefined (JStr "voice") JNull)
                (Some "voice/1.m4a") no_chats alice bob alice)
      as (up & Hup & _ & _ & H); [reflexivity|reflexivity|by repeat split|reflexivity|].
    injection Hup as <-. exact (proj2 (H eq_refl)).
  - destruct (uploadVoice_then_sendMessage (signing 8) (at_time 9) (request_of alice)
                (post_voice alice bob "https://files/voice/1.m4a" None)
                (Some "voice/1.m4a") no_chats alice bob alice)
      as (up & Hup & _ & _ & H); [reflexivity|reflexivity|by repeat split|reflexivity|].
    injection Hup as <-. exact (H eq_refl).
Defined.
